(** * Academic records: authorization and data-integrity model

    A shallow embedding of the database migration (tables, constraints,
    triggers, [has_role], row-level security policies) and of the three
    client data-access components ([AlunosManager], [CursosManager],
    [MatriculasManager]), followed by the properties proved about them.

    Conventions.
    - A table is the list of its rows, in insertion order.
    - [UUID], [DATE] and [TEXT] columns are strings, [INTEGER] columns are
      mathematical integers, [TIMESTAMPTZ] is an integer instant; a nullable
      column is an [option].  These carriers are wider than the types:
      [is_UUID], [is_DATE], [is_TEXT] and [is_INTEGER] say which of their
      members are values of a type, and a property that depends on it
      assumes so.
    - A statement is a function from the database to a [result]: either the
      new database or the error that aborted it.  [commit] gives the
      database left behind, which is the old one when the statement failed.
    - [NOW()] and [gen_random_uuid()] are read from a [Server] record that
      the caller of a statement supplies. *)

From stdpp Require Import base list strings gmap sorting relations.
From Stdlib Require Import ZArith Ascii.

Set Default Proof Using "Type".

(** ** Enumerated types *)

Inductive app_role := admin | leitor.
Inductive status_matricula := ATIVO | INATIVO | TRANCADO | FORMADO.

#[global] Instance app_role_eq_dec : EqDecision app_role.
Proof. solve_decision. Defined.
#[global] Instance status_matricula_eq_dec : EqDecision status_matricula.
Proof. solve_decision. Defined.

Definition uuid := string.
Definition timestamptz := Z.

(** ** JSON metadata of an auth subject *)

(** A member of a JSON object: [null], a string, or any other value given
    by its text rendering. *)
Inductive json_value :=
  | JNull
  | JString (s : string)
  | JOther (text : string).

(** [j ->> key]: the member as text; SQL NULL when the column is NULL, the
    key is missing or the member is JSON [null]. *)
Definition json_get_text (j : option (gmap string json_value)) (key : string)
  : option string :=
  match j with
  | None => None
  | Some obj =>
      match obj !! key with
      | Some (JString s) => Some s
      | Some (JOther t) => Some t
      | Some JNull | None => None
      end
  end.

(** [COALESCE(a, b)] *)
Definition COALESCE {A} (a : option A) (b : A) : A := default b a.

(** ** Rows *)

Module AuthUser.
(** The columns of [auth.users] that the migration reads. *)
Record row := {
  id : uuid;
  email : option string;
  raw_user_meta_data : option (gmap string json_value)
}.
End AuthUser.

Module Profile.
Record row := {
  id : uuid;
  nome_completo : string;
  email : string;
  created_at : timestamptz;
  updated_at : timestamptz
}.
Definition with_updated_at (t : timestamptz) (r : row) : row :=
  {| id := id r; nome_completo := nome_completo r; email := email r;
     created_at := created_at r; updated_at := t |}.
End Profile.

Module UserRole.
Record row := {
  id : uuid;
  user_id : uuid;
  role : app_role;
  created_at : timestamptz
}.
End UserRole.

Module Curso.
Record row := {
  id : uuid;
  nome : string;
  codigo_curso : string;
  duracao_semestres : Z;
  created_at : timestamptz;
  updated_at : timestamptz
}.
Definition with_updated_at (t : timestamptz) (r : row) : row :=
  {| id := id r; nome := nome r; codigo_curso := codigo_curso r;
     duracao_semestres := duracao_semestres r;
     created_at := created_at r; updated_at := t |}.
End Curso.

Module Aluno.
Record row := {
  id : uuid;
  nome_completo : string;
  matricula : string;
  cpf : string;
  email : string;
  data_nascimento : string;
  telefone : option string;
  status : status_matricula;
  created_at : timestamptz;
  updated_at : timestamptz
}.
Definition with_updated_at (t : timestamptz) (r : row) : row :=
  {| id := id r; nome_completo := nome_completo r; matricula := matricula r;
     cpf := cpf r; email := email r; data_nascimento := data_nascimento r;
     telefone := telefone r; status := status r;
     created_at := created_at r; updated_at := t |}.
End Aluno.

Module Matricula.
Record row := {
  id : uuid;
  aluno_id : uuid;
  curso_id : uuid;
  ano_ingresso : Z;
  semestre_ingresso : Z;
  data_matricula : timestamptz
}.
End Matricula.

(** ** The database *)

Record Db := {
  auth_users : list AuthUser.row;
  profiles : list Profile.row;
  user_roles : list UserRole.row;
  cursos : list Curso.row;
  alunos : list Aluno.row;
  matriculas : list Matricula.row
}.

Definition set_auth_users (v : list AuthUser.row) (db : Db) : Db :=
  {| auth_users := v; profiles := profiles db; user_roles := user_roles db;
     cursos := cursos db; alunos := alunos db; matriculas := matriculas db |}.
Definition set_profiles (v : list Profile.row) (db : Db) : Db :=
  {| auth_users := auth_users db; profiles := v; user_roles := user_roles db;
     cursos := cursos db; alunos := alunos db; matriculas := matriculas db |}.
Definition set_user_roles (v : list UserRole.row) (db : Db) : Db :=
  {| auth_users := auth_users db; profiles := profiles db; user_roles := v;
     cursos := cursos db; alunos := alunos db; matriculas := matriculas db |}.
Definition set_cursos (v : list Curso.row) (db : Db) : Db :=
  {| auth_users := auth_users db; profiles := profiles db;
     user_roles := user_roles db; cursos := v; alunos := alunos db;
     matriculas := matriculas db |}.
Definition set_alunos (v : list Aluno.row) (db : Db) : Db :=
  {| auth_users := auth_users db; profiles := profiles db;
     user_roles := user_roles db; cursos := cursos db; alunos := v;
     matriculas := matriculas db |}.
Definition set_matriculas (v : list Matricula.row) (db : Db) : Db :=
  {| auth_users := auth_users db; profiles := profiles db;
     user_roles := user_roles db; cursos := cursos db; alunos := alunos db;
     matriculas := v |}.

(** ** Sessions *)

Inductive pg_role := anon | authenticated.

#[global] Instance pg_role_eq_dec : EqDecision pg_role.
Proof. solve_decision. Defined.

(** The caller of a statement: [auth_uid] is [auth.uid()], NULL for a
    request without a subject; [db_role] is the database role that the
    [TO] clause of a policy is matched against. *)
Record Session := {
  auth_uid : option uuid;
  db_role : pg_role
}.

(** [auth.uid() = col]: NULL, hence not true, when there is no subject. *)
Definition uid_is (s : Session) (col : uuid) : bool :=
  match auth_uid s with
  | Some u => bool_decide (u = col)
  | None => false
  end.

(** ** [has_role]

    [SELECT EXISTS (SELECT 1 FROM user_roles
                    WHERE user_id = _user_id AND role = _role)].
    The function is SECURITY DEFINER, so it reads the whole table whatever
    the caller may see. *)
Definition has_role (db : Db) (_user_id : option uuid) (_role : app_role) : bool :=
  existsb
    (λ r, bool_decide (Some (UserRole.user_id r) = _user_id)
          && bool_decide (UserRole.role r = _role))
    (user_roles db).

(** ** Row-level security *)

Inductive command := SELECT | INSERT | UPDATE | DELETE.

#[global] Instance command_eq_dec : EqDecision command.
Proof. solve_decision. Defined.

Inductive policy_for := FOR_ALL | FOR (c : command).
Inductive policy_to := TO_PUBLIC | TO (r : pg_role).

Record policy (R : Type) := {
  pol_name : string;
  pol_for : policy_for;
  pol_to : policy_to;
  pol_using : Db → Session → R → bool;
  pol_with_check : option (Db → Session → R → bool)
}.
Arguments pol_name {R} _.
Arguments pol_for {R} _.
Arguments pol_to {R} _.
Arguments pol_using {R} _ _ _ _.
Arguments pol_with_check {R} _.

(** A policy written with [USING] only. *)
Definition CREATE_POLICY {R} (name : string) (f : policy_for) (t : policy_to)
    (expr : Db → Session → R → bool) : policy R :=
  {| pol_name := name; pol_for := f; pol_to := t; pol_using := expr;
     pol_with_check := None |}.

Definition applies {R} (p : policy R) (s : Session) (c : command) : bool :=
  match pol_for p with
  | FOR_ALL => true
  | FOR c' => bool_decide (c' = c)
  end
  &&
  match pol_to p with
  | TO_PUBLIC => true
  | TO r => bool_decide (r = db_role s)
  end.

(** The check a policy puts on a new row: its [WITH CHECK] expression, or
    its [USING] expression when it has none. *)
Definition with_check {R} (p : policy R) : Db → Session → R → bool :=
  default (pol_using p) (pol_with_check p).

(** With row-level security enabled, an existing row is visible to a
    command when some applicable policy's [USING] holds; with no applicable
    policy nothing is. *)
Definition using_ok {R} (ps : list (policy R)) (db : Db) (s : Session)
    (c : command) (r : R) : bool :=
  existsb (λ p, applies p s c && pol_using p db s r) ps.

(** A new row is accepted when some applicable policy's check holds. *)
Definition check_ok {R} (ps : list (policy R)) (db : Db) (s : Session)
    (c : command) (r : R) : bool :=
  existsb (λ p, applies p s c && with_check p db s r) ps.

Definition profiles_policies : list (policy Profile.row) :=
  [ CREATE_POLICY "Usuários podem ver seu próprio perfil"
      (FOR SELECT) TO_PUBLIC (λ _ s r, uid_is s (Profile.id r));
    CREATE_POLICY "Usuários podem atualizar seu próprio perfil"
      (FOR UPDATE) TO_PUBLIC (λ _ s r, uid_is s (Profile.id r));
    CREATE_POLICY "Admins podem ver todos os perfis"
      (FOR SELECT) TO_PUBLIC (λ db s _, has_role db (auth_uid s) admin) ].

Definition user_roles_policies : list (policy UserRole.row) :=
  [ CREATE_POLICY "Admins podem gerenciar roles"
      FOR_ALL TO_PUBLIC (λ db s _, has_role db (auth_uid s) admin);
    CREATE_POLICY "Usuários podem ver suas próprias roles"
      (FOR SELECT) TO_PUBLIC (λ _ s r, uid_is s (UserRole.user_id r)) ].

Definition cursos_policies : list (policy Curso.row) :=
  [ CREATE_POLICY "Todos autenticados podem ver cursos"
      (FOR SELECT) (TO authenticated) (λ _ _ _, true);
    CREATE_POLICY "Admins podem gerenciar cursos"
      FOR_ALL TO_PUBLIC (λ db s _, has_role db (auth_uid s) admin) ].

Definition alunos_policies : list (policy Aluno.row) :=
  [ CREATE_POLICY "Todos autenticados podem ver alunos"
      (FOR SELECT) (TO authenticated) (λ _ _ _, true);
    CREATE_POLICY "Admins podem gerenciar alunos"
      FOR_ALL TO_PUBLIC (λ db s _, has_role db (auth_uid s) admin) ].

Definition matriculas_policies : list (policy Matricula.row) :=
  [ CREATE_POLICY "Todos autenticados podem ver matrículas"
      (FOR SELECT) (TO authenticated) (λ _ _ _, true);
    CREATE_POLICY "Admins podem gerenciar matrículas"
      FOR_ALL TO_PUBLIC (λ db s _, has_role db (auth_uid s) admin) ].

(** ** Statements: results, constraints, triggers *)

Inductive sqlstate :=
  | insufficient_privilege
  | not_null_violation (column : string)
  | check_violation (name : string)
  | unique_violation (name : string)
  | foreign_key_violation (name : string).

Inductive result (A : Type) :=
  | Ok (a : A)
  | Err (e : sqlstate).
Arguments Ok {A} a.
Arguments Err {A} e.

(** The database a statement leaves behind: a failed statement is rolled
    back as a whole. *)
Definition commit (db : Db) (r : result Db) : Db :=
  match r with
  | Ok db' => db'
  | Err _ => db
  end.

Definition is_err {A} (r : result A) : bool :=
  match r with
  | Ok _ => false
  | Err _ => true
  end.

Record Server := {
  NOW : timestamptz;
  gen_random_uuid : uuid
}.

Record check_constraint (R : Type) := {
  ck_name : string;
  ck_holds : R → bool
}.
Arguments ck_name {R} _.
Arguments ck_holds {R} _ _.

(** [uq_same a b]: the two rows agree on the columns of the constraint. *)
Record unique_constraint (R : Type) := {
  uq_name : string;
  uq_same : R → R → bool
}.
Arguments uq_name {R} _.
Arguments uq_same {R} _ _ _.

(** [fk_holds db r]: the row that [r] references exists in [db]. *)
Record foreign_key (R : Type) := {
  fk_name : string;
  fk_holds : Db → R → bool
}.
Arguments fk_name {R} _.
Arguments fk_holds {R} _ _ _.

Record table_def (R : Type) := {
  td_policies : list (policy R);
  td_checks : list (check_constraint R);
  td_uniques : list (unique_constraint R);
  td_foreign_keys : list (foreign_key R);
  td_before_update : Server → R → R
}.
Arguments td_policies {R} _.
Arguments td_checks {R} _.
Arguments td_uniques {R} _.
Arguments td_foreign_keys {R} _.
Arguments td_before_update {R} _ _ _.

Definition first_error {A} (f : A → option sqlstate) (l : list A)
  : option sqlstate :=
  foldr (λ a acc, match f a with Some e => Some e | None => acc end) None l.

Section Table.
Context {R : Type} (td : table_def R).

(** The row-local checks, in the order the executor makes them: CHECK
    constraints before the row is stored, unique indexes when it is.
    [conflict u r] says whether [r] collides on [u]. *)
Definition row_error (conflict : unique_constraint R → R → bool) (new : R)
  : option sqlstate :=
  match List.find (λ c, negb (ck_holds c new)) (td_checks td) with
  | Some c => Some (check_violation (ck_name c))
  | None =>
      match List.find (λ u, conflict u new) (td_uniques td) with
      | Some u => Some (unique_violation (uq_name u))
      | None => None
      end
  end.

(** Foreign keys of the row, checked at the end of the statement. *)
Definition fk_error (db : Db) (new : R) : option sqlstate :=
  match List.find (λ f, negb (fk_holds f db new)) (td_foreign_keys td) with
  | Some f => Some (foreign_key_violation (fk_name f))
  | None => None
  end.

(** [INSERT] by the table owner: constraints only. *)
Definition insert_as_owner (db : Db) (new : R) (rows : list R)
  : result (list R) :=
  match row_error (λ u n, existsb (uq_same u n) rows) new with
  | Some e => Err e
  | None =>
      match fk_error db new with
      | Some e => Err e
      | None => Ok (rows ++ [new])
      end
  end.

(** [INSERT] under row-level security: the new row must pass the check
    of an applicable policy before any constraint is looked at. *)
Definition insert_row (db : Db) (s : Session) (new : R) (rows : list R)
  : result (list R) :=
  if check_ok (td_policies td) db s INSERT new
  then insert_as_owner db new rows
  else Err insufficient_privilege.

(** The rows a command reaches: those its [WHERE] selects and row-level
    security lets it see. *)
Definition targeted (db : Db) (s : Session) (c : command)
    (where_ : R → bool) (r : R) : bool :=
  where_ r && using_ok (td_policies td) db s c r.

(** [UPDATE ... SET ... WHERE ...]: each targeted row is replaced by its
    [SET] image after the BEFORE UPDATE trigger; every new row must pass
    the policy check and the constraints.  Uniqueness is judged on the
    table as the statement leaves it; the store judges it as each row is
    written, so of the updates that change keys of several rows at once it
    lets through fewer than this definition.  The two agree on an update
    that reaches one row or changes no key. *)
Definition update_rows (srv : Server) (db : Db) (s : Session)
    (where_ : R → bool) (set : R → R) (rows : list R) : result (list R) :=
  let hit := targeted db s UPDATE where_ in
  let new := λ r, td_before_update td srv (set r) in
  let news := new <$> filter (λ r, hit r) rows in
  let final := (λ r, if hit r then new r else r) <$> rows in
  if forallb (check_ok (td_policies td) db s UPDATE) news then
    match first_error
            (row_error (λ u n,
               bool_decide (1 < length (filter (λ r, uq_same u n r) final))))
            news with
    | Some e => Err e
    | None =>
        match first_error (fk_error db) news with
        | Some e => Err e
        | None => Ok final
        end
    end
  else Err insufficient_privilege.

(** [DELETE ... WHERE ...]: the rows removed and the rows kept. *)
Definition deleted_rows (db : Db) (s : Session) (where_ : R → bool)
    (rows : list R) : list R :=
  filter (λ r, targeted db s DELETE where_ r) rows.

Definition kept_rows (db : Db) (s : Session) (where_ : R → bool)
    (rows : list R) : list R :=
  filter (λ r, negb (targeted db s DELETE where_ r)) rows.
End Table.

(** A parent key that an [UPDATE] changed away while children still
    reference it ([ON UPDATE NO ACTION], the default). *)
Definition orphaned (old_keys final_keys child_refs : list uuid) : bool :=
  existsb
    (λ k, bool_decide (k ∈ child_refs) && negb (bool_decide (k ∈ final_keys)))
    old_keys.

(** ** The tables of the migration *)

(** [update_updated_at_column()]: [NEW.updated_at = NOW(); RETURN NEW;] *)
Definition update_updated_at_column {R}
    (with_updated_at : timestamptz → R → R) (srv : Server) (NEW : R) : R :=
  with_updated_at (NOW srv) NEW.

Definition no_trigger {R} (srv : Server) (NEW : R) : R := NEW.

Definition eq_uuid (a b : uuid) : bool := bool_decide (a = b).

Definition profiles_def : table_def Profile.row := {|
  td_policies := profiles_policies;
  td_checks := [];
  td_uniques :=
    [ {| uq_name := "profiles_pkey";
         uq_same := λ a b, eq_uuid (Profile.id a) (Profile.id b) |};
      {| uq_name := "profiles_email_key";
         uq_same := λ a b, bool_decide (Profile.email a = Profile.email b) |} ];
  td_foreign_keys :=
    [ {| fk_name := "profiles_id_fkey";
         fk_holds := λ db r,
           bool_decide (Profile.id r ∈ AuthUser.id <$> auth_users db) |} ];
  td_before_update := update_updated_at_column Profile.with_updated_at
|}.

Definition user_roles_def : table_def UserRole.row := {|
  td_policies := user_roles_policies;
  td_checks := [];
  td_uniques :=
    [ {| uq_name := "user_roles_pkey";
         uq_same := λ a b, eq_uuid (UserRole.id a) (UserRole.id b) |};
      {| uq_name := "user_roles_user_id_role_key";
         uq_same := λ a b,
           eq_uuid (UserRole.user_id a) (UserRole.user_id b)
           && bool_decide (UserRole.role a = UserRole.role b) |} ];
  td_foreign_keys :=
    [ {| fk_name := "user_roles_user_id_fkey";
         fk_holds := λ db r,
           bool_decide (UserRole.user_id r ∈ Profile.id <$> profiles db) |} ];
  td_before_update := no_trigger
|}.

Definition cursos_def : table_def Curso.row := {|
  td_policies := cursos_policies;
  td_checks := [];
  td_uniques :=
    [ {| uq_name := "cursos_pkey";
         uq_same := λ a b, eq_uuid (Curso.id a) (Curso.id b) |};
      {| uq_name := "cursos_nome_key";
         uq_same := λ a b, bool_decide (Curso.nome a = Curso.nome b) |};
      {| uq_name := "cursos_codigo_curso_key";
         uq_same := λ a b,
           bool_decide (Curso.codigo_curso a = Curso.codigo_curso b) |} ];
  td_foreign_keys := [];
  td_before_update := update_updated_at_column Curso.with_updated_at
|}.

Definition alunos_def : table_def Aluno.row := {|
  td_policies := alunos_policies;
  td_checks := [];
  td_uniques :=
    [ {| uq_name := "alunos_pkey";
         uq_same := λ a b, eq_uuid (Aluno.id a) (Aluno.id b) |};
      {| uq_name := "alunos_matricula_key";
         uq_same := λ a b, bool_decide (Aluno.matricula a = Aluno.matricula b) |};
      {| uq_name := "alunos_cpf_key";
         uq_same := λ a b, bool_decide (Aluno.cpf a = Aluno.cpf b) |};
      {| uq_name := "alunos_email_key";
         uq_same := λ a b, bool_decide (Aluno.email a = Aluno.email b) |} ];
  td_foreign_keys := [];
  td_before_update := update_updated_at_column Aluno.with_updated_at
|}.

Definition matriculas_def : table_def Matricula.row := {|
  td_policies := matriculas_policies;
  td_checks :=
    [ {| ck_name := "matriculas_semestre_ingresso_check";
         ck_holds := λ r,
           bool_decide (Matricula.semestre_ingresso r ∈ [1%Z; 2%Z]) |} ];
  td_uniques :=
    [ {| uq_name := "matriculas_pkey";
         uq_same := λ a b, eq_uuid (Matricula.id a) (Matricula.id b) |};
      {| uq_name := "matriculas_aluno_id_curso_id_key";
         uq_same := λ a b,
           eq_uuid (Matricula.aluno_id a) (Matricula.aluno_id b)
           && eq_uuid (Matricula.curso_id a) (Matricula.curso_id b) |} ];
  td_foreign_keys :=
    [ {| fk_name := "matriculas_aluno_id_fkey";
         fk_holds := λ db r,
           bool_decide (Matricula.aluno_id r ∈ Aluno.id <$> alunos db) |};
      {| fk_name := "matriculas_curso_id_fkey";
         fk_holds := λ db r,
           bool_decide (Matricula.curso_id r ∈ Curso.id <$> cursos db) |} ];
  td_before_update := no_trigger
|}.

(** What an [UPDATE] at instant [now] does to a table that carries the
    trigger: row by row, a row the statement reaches becomes its [SET]
    image with [updated_at] overwritten by [now], any other row stays; in
    both cases [updated_at] does not go back unless the clock did. *)
Definition restamped {R} (updated_at : R → timestamptz)
    (with_updated_at : timestamptz → R → R) (hit : R → bool) (set : R → R)
    (now : timestamptz) (rows rows' : list R) : Prop :=
  length rows' = length rows
  ∧ ∀ i old, rows !! i = Some old →
      ∃ new, rows' !! i = Some new
        ∧ (if hit old
           then new = with_updated_at now (set old) ∧ updated_at new = now
           else new = old)
        ∧ ((updated_at old ≤ now)%Z → (updated_at old ≤ updated_at new)%Z).

(** ** Inserted values

    The columns a caller supplies; the others take their defaults
    ([gen_random_uuid()], [NOW()]).  A record holds the values after the
    store converted them to the types of the columns; which members of the
    carriers are such values is said by [curso_values_typed],
    [aluno_values_typed] and [matricula_values_typed] below. *)

Record profile_values := {
  pv_id : uuid;
  pv_nome_completo : string;
  pv_email : option string
}.

Record user_role_values := {
  uv_user_id : uuid;
  uv_role : app_role
}.

Record curso_values := {
  cv_nome : string;
  cv_codigo_curso : string;
  cv_duracao_semestres : Z
}.

Record aluno_values := {
  av_nome_completo : string;
  av_matricula : string;
  av_cpf : string;
  av_email : string;
  av_data_nascimento : string;
  av_telefone : option string;
  av_status : status_matricula
}.

Record matricula_values := {
  mv_aluno_id : uuid;
  mv_curso_id : uuid;
  mv_ano_ingresso : Z;
  mv_semestre_ingresso : Z
}.

(** [email TEXT NOT NULL]: the only required column that the migration
    itself may hand a NULL (see [handle_new_user]). *)
Definition profile_row (srv : Server) (v : profile_values)
  : result Profile.row :=
  match pv_email v with
  | None => Err (not_null_violation "email")
  | Some e =>
      Ok {| Profile.id := pv_id v;
            Profile.nome_completo := pv_nome_completo v;
            Profile.email := e;
            Profile.created_at := NOW srv;
            Profile.updated_at := NOW srv |}
  end.

Definition user_role_row (srv : Server) (v : user_role_values) : UserRole.row :=
  {| UserRole.id := gen_random_uuid srv;
     UserRole.user_id := uv_user_id v;
     UserRole.role := uv_role v;
     UserRole.created_at := NOW srv |}.

Definition curso_row (srv : Server) (v : curso_values) : Curso.row :=
  {| Curso.id := gen_random_uuid srv;
     Curso.nome := cv_nome v;
     Curso.codigo_curso := cv_codigo_curso v;
     Curso.duracao_semestres := cv_duracao_semestres v;
     Curso.created_at := NOW srv;
     Curso.updated_at := NOW srv |}.

Definition aluno_row (srv : Server) (v : aluno_values) : Aluno.row :=
  {| Aluno.id := gen_random_uuid srv;
     Aluno.nome_completo := av_nome_completo v;
     Aluno.matricula := av_matricula v;
     Aluno.cpf := av_cpf v;
     Aluno.email := av_email v;
     Aluno.data_nascimento := av_data_nascimento v;
     Aluno.telefone := av_telefone v;
     Aluno.status := av_status v;
     Aluno.created_at := NOW srv;
     Aluno.updated_at := NOW srv |}.

Definition matricula_row (srv : Server) (v : matricula_values) : Matricula.row :=
  {| Matricula.id := gen_random_uuid srv;
     Matricula.aluno_id := mv_aluno_id v;
     Matricula.curso_id := mv_curso_id v;
     Matricula.ano_ingresso := mv_ano_ingresso v;
     Matricula.semestre_ingresso := mv_semestre_ingresso v;
     Matricula.data_matricula := NOW srv |}.

(** ** Statements a session can send *)

#[global] Instance result_bind : MBind result := λ A B k r,
  match r with
  | Ok a => k a
  | Err e => Err e
  end.

Inductive table := t_profiles | t_user_roles | t_cursos | t_alunos | t_matriculas.

Inductive statement :=
  | insert_into_profiles (v : profile_values)
  | update_profiles (where_ : Profile.row → bool) (set : Profile.row → Profile.row)
  | delete_from_profiles (where_ : Profile.row → bool)
  | insert_into_user_roles (v : user_role_values)
  | update_user_roles (where_ : UserRole.row → bool) (set : UserRole.row → UserRole.row)
  | delete_from_user_roles (where_ : UserRole.row → bool)
  | insert_into_cursos (v : curso_values)
  | update_cursos (where_ : Curso.row → bool) (set : Curso.row → Curso.row)
  | delete_from_cursos (where_ : Curso.row → bool)
  | insert_into_alunos (v : aluno_values)
  | update_alunos (where_ : Aluno.row → bool) (set : Aluno.row → Aluno.row)
  | delete_from_alunos (where_ : Aluno.row → bool)
  | insert_into_matriculas (v : matricula_values)
  | update_matriculas (where_ : Matricula.row → bool) (set : Matricula.row → Matricula.row)
  | delete_from_matriculas (where_ : Matricula.row → bool).

Definition target (st : statement) : table :=
  match st with
  | insert_into_profiles _ | update_profiles _ _ | delete_from_profiles _ =>
      t_profiles
  | insert_into_user_roles _ | update_user_roles _ _
  | delete_from_user_roles _ => t_user_roles
  | insert_into_cursos _ | update_cursos _ _ | delete_from_cursos _ => t_cursos
  | insert_into_alunos _ | update_alunos _ _ | delete_from_alunos _ => t_alunos
  | insert_into_matriculas _ | update_matriculas _ _
  | delete_from_matriculas _ => t_matriculas
  end.

Definition no_orphans (name : string) (old_keys final_keys child_refs : list uuid)
  : result unit :=
  if orphaned old_keys final_keys child_refs
  then Err (foreign_key_violation name)
  else Ok ().

Definition exec (srv : Server) (s : Session) (st : statement) (db : Db)
  : result Db :=
  match st with
  | insert_into_profiles v =>
      new ← profile_row srv v;
      rows ← insert_row profiles_def db s new (profiles db);
      Ok (set_profiles rows db)
  | update_profiles where_ set =>
      rows ← update_rows profiles_def srv db s where_ set (profiles db);
      no_orphans "user_roles_user_id_fkey"
            (Profile.id <$> filter (λ r, targeted profiles_def db s UPDATE where_ r)
                              (profiles db))
            (Profile.id <$> rows) (UserRole.user_id <$> user_roles db);;
      Ok (set_profiles rows db)
  | delete_from_profiles where_ =>
      let gone := Profile.id <$> deleted_rows profiles_def db s where_ (profiles db) in
      (* user_roles.user_id ... ON DELETE CASCADE *)
      Ok (set_user_roles
            (filter (λ r, UserRole.user_id r ∉ gone) (user_roles db))
            (set_profiles (kept_rows profiles_def db s where_ (profiles db)) db))
  | insert_into_user_roles v =>
      rows ← insert_row user_roles_def db s (user_role_row srv v) (user_roles db);
      Ok (set_user_roles rows db)
  | update_user_roles where_ set =>
      rows ← update_rows user_roles_def srv db s where_ set (user_roles db);
      Ok (set_user_roles rows db)
  | delete_from_user_roles where_ =>
      Ok (set_user_roles (kept_rows user_roles_def db s where_ (user_roles db)) db)
  | insert_into_cursos v =>
      rows ← insert_row cursos_def db s (curso_row srv v) (cursos db);
      Ok (set_cursos rows db)
  | update_cursos where_ set =>
      rows ← update_rows cursos_def srv db s where_ set (cursos db);
      no_orphans "matriculas_curso_id_fkey"
            (Curso.id <$> filter (λ r, targeted cursos_def db s UPDATE where_ r)
                            (cursos db))
            (Curso.id <$> rows) (Matricula.curso_id <$> matriculas db);;
      Ok (set_cursos rows db)
  | delete_from_cursos where_ =>
      let gone := Curso.id <$> deleted_rows cursos_def db s where_ (cursos db) in
      (* matriculas.curso_id ... ON DELETE CASCADE *)
      Ok (set_matriculas
            (filter (λ m, Matricula.curso_id m ∉ gone) (matriculas db))
            (set_cursos (kept_rows cursos_def db s where_ (cursos db)) db))
  | insert_into_alunos v =>
      rows ← insert_row alunos_def db s (aluno_row srv v) (alunos db);
      Ok (set_alunos rows db)
  | update_alunos where_ set =>
      rows ← update_rows alunos_def srv db s where_ set (alunos db);
      no_orphans "matriculas_aluno_id_fkey"
            (Aluno.id <$> filter (λ r, targeted alunos_def db s UPDATE where_ r)
                            (alunos db))
            (Aluno.id <$> rows) (Matricula.aluno_id <$> matriculas db);;
      Ok (set_alunos rows db)
  | delete_from_alunos where_ =>
      let gone := Aluno.id <$> deleted_rows alunos_def db s where_ (alunos db) in
      (* matriculas.aluno_id ... ON DELETE CASCADE *)
      Ok (set_matriculas
            (filter (λ m, Matricula.aluno_id m ∉ gone) (matriculas db))
            (set_alunos (kept_rows alunos_def db s where_ (alunos db)) db))
  | insert_into_matriculas v =>
      rows ← insert_row matriculas_def db s (matricula_row srv v) (matriculas db);
      Ok (set_matriculas rows db)
  | update_matriculas where_ set =>
      rows ← update_rows matriculas_def srv db s where_ set (matriculas db);
      Ok (set_matriculas rows db)
  | delete_from_matriculas where_ =>
      Ok (set_matriculas (kept_rows matriculas_def db s where_ (matriculas db)) db)
  end.

(** [SELECT * FROM t]: the rows row-level security lets the session see. *)
Definition visible {R} (td : table_def R) (db : Db) (s : Session)
    (rows : list R) : list R :=
  filter (λ r, using_ok (td_policies td) db s SELECT r) rows.

(** ** Provisioning of a profile for a new auth subject *)

(** [handle_new_user()], SECURITY DEFINER: the insert runs as the owner of
    [profiles], outside row-level security. *)
Definition handle_new_user (srv : Server) (NEW : AuthUser.row) (db : Db)
  : result Db :=
  new ← profile_row srv
          {| pv_id := AuthUser.id NEW;
             pv_nome_completo :=
               COALESCE
                 (json_get_text (AuthUser.raw_user_meta_data NEW) "nome_completo")
                 "Usuário";
             pv_email := AuthUser.email NEW |};
  rows ← insert_as_owner profiles_def db new (profiles db);
  Ok (set_profiles rows db).

(** [INSERT INTO auth.users], issued by the auth subsystem, with its
    [AFTER INSERT ... FOR EACH ROW] trigger [on_auth_user_created]; both
    run in one transaction, so an error of the trigger aborts the insert. *)
Definition insert_into_auth_users (srv : Server) (NEW : AuthUser.row) (db : Db)
  : result Db :=
  if bool_decide (AuthUser.id NEW ∈ AuthUser.id <$> auth_users db)
  then Err (unique_violation "users_pkey")
  else handle_new_user srv NEW (set_auth_users (auth_users db ++ [NEW]) db).

(** * The client components *)

(** ** Form values

    A JavaScript string is modelled by a [string], one character for one
    code unit.  The numbers a form holds are the initial constants, stored
    integers and results of [parseInt]: an integer or [NaN]. *)

Inductive number := NaN | Num (z : Z).

(** ** Schemas of the validation library *)

(** What the schema language leaves to the library: its e-mail test and
    the message of the issue it raises when a number is [NaN]. *)
Class Zod := {
  z_is_email : string → bool;
  z_nan_message : string
}.

Record ZodIssue := {
  issue_path : string;
  issue_message : string
}.

(** The regular expressions of the schemas are sequences of one-character
    atoms between [^] and [$]. *)
Inductive atom :=
  | digit                      (* \d *)
  | lit (c : ascii)            (* an escaped or plain character *)
  | one_of (cs : list ascii).  (* [...] *)

Definition is_digit (c : ascii) : bool :=
  let n := Ascii.nat_of_ascii c in
  bool_decide (48 ≤ n ≤ 57).

Definition atom_matches (a : atom) (c : ascii) : bool :=
  match a with
  | digit => is_digit c
  | lit c' => bool_decide (c' = c)
  | one_of cs => bool_decide (c ∈ cs)
  end.

(** [/^re$/.test(s)] *)
Fixpoint regex_test (re : list atom) (s : string) : bool :=
  match re, s with
  | [], EmptyString => true
  | a :: re', String c s' => atom_matches a c && regex_test re' s'
  | _, _ => false
  end.

(** [/^\d{4}-[12]-\d{4}$/] *)
Definition matricula_regex : list atom :=
  replicate 4 digit ++ [lit "-"; one_of ["1"; "2"]%char; lit "-"]%char
  ++ replicate 4 digit.

(** [/^\d{3}\.\d{3}\.\d{3}-\d{2}$/] *)
Definition cpf_regex : list atom :=
  replicate 3 digit ++ [lit "."%char] ++ replicate 3 digit ++ [lit "."%char]
  ++ replicate 3 digit ++ [lit "-"%char] ++ replicate 2 digit.

Definition issue_unless (ok : bool) (path message : string) : list ZodIssue :=
  if ok then [] else [ {| issue_path := path; issue_message := message |} ].

(** [z.string().min(n, message)] *)
Definition z_string_min (n : nat) (message path value : string) : list ZodIssue :=
  issue_unless (bool_decide (n ≤ String.length value)) path message.

(** [z.string().regex(re, message)] *)
Definition z_string_regex (re : list atom) (message path value : string)
  : list ZodIssue :=
  issue_unless (regex_test re value) path message.

(** [z.string().email(message)] *)
Definition z_string_email `{Zod} (message path value : string) : list ZodIssue :=
  issue_unless (z_is_email value) path message.

(** [z.number().min(n, message)] *)
Definition z_number_min `{Zod} (n : Z) (message path : string) (value : number)
  : list ZodIssue :=
  match value with
  | NaN => issue_unless false path z_nan_message
  | Num v => issue_unless (bool_decide (n ≤ v)%Z) path message
  end.

Module AlunoForm.
Record formData := {
  nome_completo : string;
  matricula : string;
  cpf : string;
  email : string;
  data_nascimento : string;
  telefone : string;
  status : status_matricula
}.
End AlunoForm.

Module CursoForm.
Record formData := {
  nome : string;
  codigo_curso : string;
  duracao_semestres : number
}.
End CursoForm.

Module MatriculaForm.
Record formData := {
  aluno_id : string;
  curso_id : string;
  ano_ingresso : number;
  semestre_ingresso : number
}.
End MatriculaForm.

(** The issues of [alunoSchema.parse(formData)], in the order of the
    schema's keys.  [data_nascimento], [telefone] and [status] hold values
    of the types their schemas ask for and raise none. *)
Definition alunoSchema `{Zod} (f : AlunoForm.formData) : list ZodIssue :=
  z_string_min 3 "Nome deve ter no mínimo 3 caracteres"
    "nome_completo" (AlunoForm.nome_completo f)
  ++ z_string_regex matricula_regex "Formato: AAAA-S-NNNN (ex: 2025-1-1234)"
       "matricula" (AlunoForm.matricula f)
  ++ z_string_regex cpf_regex "Formato: XXX.XXX.XXX-XX" "cpf" (AlunoForm.cpf f)
  ++ z_string_email "Email inválido" "email" (AlunoForm.email f).

Definition cursoSchema `{Zod} (f : CursoForm.formData) : list ZodIssue :=
  z_string_min 3 "Nome deve ter no mínimo 3 caracteres"
    "nome" (CursoForm.nome f)
  ++ z_string_min 2 "Código deve ter no mínimo 2 caracteres"
       "codigo_curso" (CursoForm.codigo_curso f)
  ++ z_number_min 1 "Duração deve ser no mínimo 1 semestre"
       "duracao_semestres" (CursoForm.duracao_semestres f).

(** ** Requests, replies and what the user sees *)

Inductive request :=
  | alunos_select_order_nome
  | alunos_select_ativos_order_nome
  | alunos_insert (formData : AlunoForm.formData)
  | alunos_update_eq_id (formData : AlunoForm.formData) (id : string)
  | alunos_update_status_INATIVO_eq_id (id : string)
  | cursos_select_order_nome
  | cursos_insert (formData : CursoForm.formData)
  | cursos_update_eq_id (formData : CursoForm.formData) (id : string)
  | cursos_delete_eq_id (id : string)
  | matriculas_select_order_ano
  | matriculas_insert (formData : MatriculaForm.formData)
  | matriculas_delete_eq_id (id : string).

(** The [error] member of a reply, when it is not [null]. *)
Record PostgrestError := {
  message : string;
  instanceof_Error : bool
}.

Inductive variant := default_variant | destructive.

Record toast := {
  title : string;
  description : option string;
  toast_variant : variant
}.

Definition success (t : string) : toast :=
  {| title := t; description := None; toast_variant := default_variant |}.

Definition failure (t d : string) : toast :=
  {| title := t; description := Some d; toast_variant := destructive |}.

(** What a handler does, in order. *)
Inductive event :=
  | Sent (r : request)
  | Toasted (t : toast)
  | SetIsDialogOpen (b : bool)
  | ResetForm.

(** [string.includes(needle)] *)
Fixpoint includes (haystack needle : string) : bool :=
  String.prefix needle haystack
  || match haystack with
     | EmptyString => false
     | String _ rest => includes rest needle
     end.

Module AlunosManager.
Import AlunoForm.

Definition handleSubmit `{Zod} (editingAluno : option Aluno.row)
    (formData : formData) (reply : request → option PostgrestError)
  : list event :=
  match alunoSchema formData with
  | issue :: _ => [Toasted (failure "Erro de validação" (issue_message issue))]
  | [] =>
      let '(req, done) :=
        match editingAluno with
        | Some a => (alunos_update_eq_id formData (Aluno.id a),
                     "Aluno atualizado com sucesso!")
        | None => (alunos_insert formData, "Aluno cadastrado com sucesso!")
        end in
      Sent req ::
      match reply req with
      | Some error =>
          [Toasted (failure "Erro ao salvar aluno"
                      (if instanceof_Error error then message error
                       else "Erro desconhecido"))]
      | None =>
          [Toasted (success done); SetIsDialogOpen false; ResetForm;
           Sent alunos_select_order_nome]
      end
  end.

Definition handleDelete (confirmed : bool) (id : string)
    (reply : request → option PostgrestError) : list event :=
  if confirmed then
    Sent (alunos_update_status_INATIVO_eq_id id) ::
    match reply (alunos_update_status_INATIVO_eq_id id) with
    | None => [Toasted (success "Aluno desativado com sucesso!");
               Sent alunos_select_order_nome]
    | Some _ => []
    end
  else [].
End AlunosManager.

Module CursosManager.
Import CursoForm.

Definition handleSubmit `{Zod} (editingCurso : option Curso.row)
    (formData : formData) (reply : request → option PostgrestError)
  : list event :=
  match cursoSchema formData with
  | issue :: _ => [Toasted (failure "Erro de validação" (issue_message issue))]
  | [] =>
      let '(req, done) :=
        match editingCurso with
        | Some c => (cursos_update_eq_id formData (Curso.id c),
                     "Curso atualizado com sucesso!")
        | None => (cursos_insert formData, "Curso cadastrado com sucesso!")
        end in
      Sent req ::
      match reply req with
      | Some error =>
          [Toasted (failure "Erro ao salvar curso"
                      (if instanceof_Error error then message error
                       else "Erro desconhecido"))]
      | None =>
          [Toasted (success done); SetIsDialogOpen false; ResetForm;
           Sent cursos_select_order_nome]
      end
  end.

Definition handleDelete (confirmed : bool) (id : string)
    (reply : request → option PostgrestError) : list event :=
  if confirmed then
    Sent (cursos_delete_eq_id id) ::
    match reply (cursos_delete_eq_id id) with
    | None => [Toasted (success "Curso excluído com sucesso!");
               Sent cursos_select_order_nome]
    | Some _ =>
        [Toasted (failure "Erro ao excluir curso"
                    "Pode haver alunos matriculados neste curso")]
    end
  else [].
End CursosManager.

(** ** Queries of the enrollment component *)

(** The collation [ORDER BY] sorts text with. *)
Class Collation := {
  collate_le : string → string → bool
}.

Definition order_by `{Collation} {R} (key : R → string) (rows : list R)
  : list R :=
  merge_sort (λ a b, collate_le (key a) (key b)) rows.

(** [id] is the id of a student of [db] whose status is ATIVO. *)
Definition active_student (db : Db) (id : string) : Prop :=
  ∃ a, a ∈ alunos db ∧ Aluno.id a = id ∧ Aluno.status a = ATIVO.

Module MatriculasManager.
Import MatriculaForm.

(** A row of [select('id, nome_completo, matricula')]. *)
Record AlunoItem := {
  id : string;
  nome_completo : string;
  matricula : string
}.

(** A row of [select('id, nome, codigo_curso')]. *)
Record CursoItem := {
  curso_item_id : string;
  nome : string;
  codigo_curso : string
}.

(** What the store answers to the query of [fetchAlunos]:
    [from('alunos').select(...).eq('status', 'ATIVO').order('nome_completo')]. *)
Definition alunos_select_ativos `{Collation} (db : Db) (s : Session)
  : list AlunoItem :=
  (λ a, {| id := Aluno.id a; nome_completo := Aluno.nome_completo a;
           matricula := Aluno.matricula a |})
  <$> order_by Aluno.nome_completo
        (filter (λ a, Aluno.status a = ATIVO)
           (visible alunos_def db s (alunos db))).

(** What the store answers to the query of [fetchCursos]. *)
Definition cursos_select `{Collation} (db : Db) (s : Session)
  : list CursoItem :=
  (λ c, {| curso_item_id := Curso.id c; nome := Curso.nome c;
           codigo_curso := Curso.codigo_curso c |})
  <$> order_by Curso.nome (visible cursos_def db s (cursos db)).

Record State := {
  alunos : list AlunoItem;
  cursos : list CursoItem;
  isDialogOpen : bool;
  formData : MatriculaForm.formData
}.

(** [year] is [new Date().getFullYear()]. *)
Definition emptyForm (year : Z) : MatriculaForm.formData :=
  {| aluno_id := ""; curso_id := ""; ano_ingresso := Num year;
     semestre_ingresso := Num 1 |}.

Definition initialState (year : Z) : State :=
  {| alunos := []; cursos := []; isDialogOpen := false;
     formData := emptyForm year |}.

Definition setAlunos (v : list AlunoItem) (st : State) : State :=
  {| alunos := v; cursos := cursos st; isDialogOpen := isDialogOpen st;
     formData := formData st |}.
Definition setCursos (v : list CursoItem) (st : State) : State :=
  {| alunos := alunos st; cursos := v; isDialogOpen := isDialogOpen st;
     formData := formData st |}.
Definition setIsDialogOpen (v : bool) (st : State) : State :=
  {| alunos := alunos st; cursos := cursos st; isDialogOpen := v;
     formData := formData st |}.
Definition setFormData (v : MatriculaForm.formData) (st : State) : State :=
  {| alunos := alunos st; cursos := cursos st;
     isDialogOpen := isDialogOpen st; formData := v |}.

Definition resetForm (year : Z) (st : State) : State :=
  setFormData (emptyForm year) st.

(** [if (data) setAlunos(data)] *)
Definition fetchAlunos (data : option (list AlunoItem)) (st : State) : State :=
  match data with
  | Some d => setAlunos d st
  | None => st
  end.

Definition fetchCursos (data : option (list CursoItem)) (st : State) : State :=
  match data with
  | Some d => setCursos d st
  | None => st
  end.

Definition handleSubmit (formData : MatriculaForm.formData)
    (reply : request → option PostgrestError) : list event :=
  Sent (matriculas_insert formData) ::
  match reply (matriculas_insert formData) with
  | None =>
      [Toasted (success "Matrícula realizada com sucesso!");
       SetIsDialogOpen false; ResetForm; Sent matriculas_select_order_ano]
  | Some error =>
      [Toasted (failure "Erro ao matricular"
                  (if includes (message error) "duplicate"
                   then "Aluno já está matriculado neste curso"
                   else message error))]
  end.

Definition handleDelete (confirmed : bool) (id : string)
    (reply : request → option PostgrestError) : list event :=
  if confirmed then
    Sent (matriculas_delete_eq_id id) ::
    match reply (matriculas_delete_eq_id id) with
    | None => [Toasted (success "Matrícula excluída com sucesso!");
               Sent matriculas_select_order_ano]
    | Some _ => []
    end
  else [].

(** The state after the events of a handler. *)
Definition after (year : Z) (evs : list event) (st : State) : State :=
  foldl (λ st ev,
           match ev with
           | SetIsDialogOpen b => setIsDialogOpen b st
           | ResetForm => resetForm year st
           | Sent _ | Toasted _ => st
           end) st evs.

(** One step of a session with the enrollment form over the database
    [db]: a fetch of the mount effect is answered, the user picks an item
    of a list, edits a field, opens or closes the dialog, or submits. *)
Inductive step `{Collation} (db : Db) (s : Session) (year : Z)
  : State → State → Prop :=
  | step_fetchAlunos st :
      step db s year st (fetchAlunos (Some (alunos_select_ativos db s)) st)
  | step_fetchCursos st :
      step db s year st (fetchCursos (Some (cursos_select db s)) st)
  | step_select_aluno st item :
      item ∈ alunos st →
      step db s year st
        (setFormData
           {| aluno_id := id item; curso_id := curso_id (formData st);
              ano_ingresso := ano_ingresso (formData st);
              semestre_ingresso := semestre_ingresso (formData st) |} st)
  | step_select_curso st item :
      item ∈ cursos st →
      step db s year st
        (setFormData
           {| aluno_id := aluno_id (formData st);
              curso_id := curso_item_id item;
              ano_ingresso := ano_ingresso (formData st);
              semestre_ingresso := semestre_ingresso (formData st) |} st)
  | step_ano st n :
      step db s year st
        (setFormData
           {| aluno_id := aluno_id (formData st);
              curso_id := curso_id (formData st);
              ano_ingresso := n;
              semestre_ingresso := semestre_ingresso (formData st) |} st)
  | step_semestre st n :
      n ∈ [1%Z; 2%Z] →
      step db s year st
        (setFormData
           {| aluno_id := aluno_id (formData st);
              curso_id := curso_id (formData st);
              ano_ingresso := ano_ingresso (formData st);
              semestre_ingresso := Num n |} st)
  | step_open_change st (open : bool) :
      step db s year st
        (if open then setIsDialogOpen true st
         else resetForm year (setIsDialogOpen false st))
  | step_submit st reply :
      step db s year st (after year (handleSubmit (formData st) reply) st).

Definition reachable `{Collation} (db : Db) (s : Session) (year : Z)
    (st : State) : Prop :=
  rtc (step db s year) (initialState year) st.

(** What every state of a session keeps: the list offers active
    students only, and the student of the form is either not picked yet
    or an active one. *)
Definition form_ok (db : Db) (st : State) : Prop :=
  (∀ item, item ∈ alunos st → active_student db (id item))
  ∧ (aluno_id (formData st) = ""
     ∨ active_student db (aluno_id (formData st))).
End MatriculasManager.

(** * Integrity of the stored data *)

(** No two rows of the list collide on [same]. *)
Fixpoint distinct_on {R} (same : R → R → bool) (rows : list R) : bool :=
  match rows with
  | [] => true
  | r :: rest => forallb (λ r', negb (same r r')) rest && distinct_on same rest
  end.

(** The rows satisfy every unique constraint of the table. *)
Definition unique_ok {R} (td : table_def R) (rows : list R) : bool :=
  forallb (λ u, distinct_on (uq_same u) rows) (td_uniques td).

(** The rows satisfy every CHECK constraint of the table. *)
Definition checks_ok {R} (td : table_def R) (rows : list R) : bool :=
  forallb (λ r, forallb (λ c, ck_holds c r) (td_checks td)) rows.

(** Every row references rows that exist in [db]. *)
Definition fks_ok {R} (td : table_def R) (db : Db) (rows : list R) : bool :=
  forallb (λ r, forallb (λ f, fk_holds f db r) (td_foreign_keys td)) rows.

Definition unique_keys (db : Db) : bool :=
  distinct_on (λ a b, eq_uuid (AuthUser.id a) (AuthUser.id b)) (auth_users db)
  && unique_ok profiles_def (profiles db)
  && unique_ok user_roles_def (user_roles db)
  && unique_ok cursos_def (cursos db)
  && unique_ok alunos_def (alunos db)
  && unique_ok matriculas_def (matriculas db).

Definition referential_integrity (db : Db) : bool :=
  fks_ok profiles_def db (profiles db)
  && fks_ok user_roles_def db (user_roles db)
  && fks_ok cursos_def db (cursos db)
  && fks_ok alunos_def db (alunos db)
  && fks_ok matriculas_def db (matriculas db).

Definition checks_hold (db : Db) : bool :=
  checks_ok profiles_def (profiles db)
  && checks_ok user_roles_def (user_roles db)
  && checks_ok cursos_def (cursos db)
  && checks_ok alunos_def (alunos db)
  && checks_ok matriculas_def (matriculas db).

(** A constraint that compares keys: every row collides with itself, and
    colliding does not depend on the order of the two rows. *)
Definition key_like {R} (same : R → R → bool) : Prop :=
  (∀ a, same a a = true) ∧ (∀ a b, same a b = same b a).

(** Nobody holds the admin role. *)
Definition no_admin (db : Db) : Prop :=
  ∀ u, has_role db u admin = false.

(** * Runs of operations *)

(** What changes the database: a statement sent by a session, or the
    creation of an auth subject by the auth subsystem. *)
Inductive operation :=
  | by_session (srv : Server) (s : Session) (st : statement)
  | sign_up (srv : Server) (NEW : AuthUser.row).

Definition perform (op : operation) (db : Db) : result Db :=
  match op with
  | by_session srv s st => exec srv s st db
  | sign_up srv NEW => insert_into_auth_users srv NEW db
  end.

(** The database after the operations, each one committed or, when it
    failed, rolled back. *)
Definition run (ops : list operation) (db : Db) : Db :=
  foldl (λ db op, commit db (perform op db)) db ops.

(** * The statements behind the requests of the components *)

Definition with_status (s : status_matricula) (r : Aluno.row) : Aluno.row :=
  {| Aluno.id := Aluno.id r; Aluno.nome_completo := Aluno.nome_completo r;
     Aluno.matricula := Aluno.matricula r; Aluno.cpf := Aluno.cpf r;
     Aluno.email := Aluno.email r;
     Aluno.data_nascimento := Aluno.data_nascimento r;
     Aluno.telefone := Aluno.telefone r; Aluno.status := s;
     Aluno.created_at := Aluno.created_at r;
     Aluno.updated_at := Aluno.updated_at r |}.

(** [from('alunos').update({ status: 'INATIVO' }).eq('id', id)] *)
Definition alunos_soft_delete (id : uuid) : statement :=
  update_alunos (λ r, eq_uuid (Aluno.id r) id) (with_status INATIVO).

(** [from('cursos').delete().eq('id', id)] *)
Definition cursos_delete (id : uuid) : statement :=
  delete_from_cursos (λ r, eq_uuid (Curso.id r) id).

(** [from('matriculas').delete().eq('id', id)] *)
Definition matriculas_delete (id : uuid) : statement :=
  delete_from_matriculas (λ r, eq_uuid (Matricula.id r) id).

(** The [error] member of the reply to a statement: [null] when the
    statement went through, else the error object the client library makes
    of the failure. *)
Definition reply_error (to_error : sqlstate → PostgrestError) (r : result Db)
  : option PostgrestError :=
  match r with
  | Ok _ => None
  | Err e => Some (to_error e)
  end.

(** [update({ nome_completo: name })] of a profile. *)
Definition rename (name : string) (p : Profile.row) : Profile.row :=
  {| Profile.id := Profile.id p; Profile.nome_completo := name;
     Profile.email := Profile.email p;
     Profile.created_at := Profile.created_at p;
     Profile.updated_at := Profile.updated_at p |}.

(** * More of the student and course components *)

(** [String.prototype.toLowerCase], which the components call on names
    and search terms. *)
Class JsString := {
  toLowerCase : string → string
}.

(** [alunos.filter(aluno => ...)] of [AlunosManager]. *)
Definition filteredAlunos `{JsString} (searchTerm : string)
    (alunos : list Aluno.row) : list Aluno.row :=
  filter
    (λ aluno,
       includes (toLowerCase (Aluno.nome_completo aluno)) (toLowerCase searchTerm)
       || includes (Aluno.matricula aluno) searchTerm)
    alunos.

(** The form data [CursosManager] starts with and [resetForm] restores. *)
Definition cursos_emptyForm : CursoForm.formData :=
  {| CursoForm.nome := ""; CursoForm.codigo_curso := "";
     CursoForm.duracao_semestres := Num 8 |}.

(** * The sign-in page *)

Module Auth.
(** What [handleSubmit] does, in order. *)
Inductive effect :=
  | SetLoading (b : bool)
  | SignIn (email password : string)
  | SignUp (email password nomeCompleto : string)
  | Notify (t : toast)
  | Navigate (to : string).

Definition loginSchema `{Zod} (email password : string) : list ZodIssue :=
  z_string_email "Email inválido" "email" email
  ++ z_string_min 6 "Senha deve ter no mínimo 6 caracteres" "password" password.

(** [loginSchema.extend({...}).refine(...)]: the issues of the fields, then
    the issue of the refinement, which runs on the parsed strings. *)
Definition signupSchema `{Zod} (email password confirmPassword nomeCompleto : string)
  : list ZodIssue :=
  loginSchema email password
  ++ z_string_min 3 "Nome deve ter no mínimo 3 caracteres"
       "nomeCompleto" nomeCompleto
  ++ issue_unless (bool_decide (password = confirmPassword))
       "confirmPassword" "As senhas não coincidem".

(** [signIn] and [signUp] answer with the message of their error, if any. *)
Definition handleSubmit `{Zod} (isLogin : bool)
    (email password confirmPassword nomeCompleto : string)
    (signIn : string → string → option string)
    (signUp : string → string → string → option string) : list effect :=
  SetLoading true ::
  (if isLogin then
     match loginSchema email password with
     | issue :: _ => [Notify (failure "Erro de validação" (issue_message issue))]
     | [] =>
         SignIn email password ::
         match signIn email password with
         | Some msg =>
             [Notify (failure "Erro ao fazer login"
                        (if bool_decide (msg = "Invalid login credentials")
                         then "Credenciais inválidas. Verifique seu email e senha."
                         else msg))]
         | None => [Navigate "/"]
         end
     end
   else
     match signupSchema email password confirmPassword nomeCompleto with
     | issue :: _ => [Notify (failure "Erro de validação" (issue_message issue))]
     | [] =>
         SignUp email password nomeCompleto ::
         match signUp email password nomeCompleto with
         | Some msg =>
             [Notify (failure "Erro ao criar conta"
                        (if bool_decide (msg = "User already registered")
                         then "Este email já está cadastrado."
                         else msg))]
         | None =>
             [Notify {| title := "Conta criada com sucesso!";
                        description := Some "Você será redirecionado automaticamente.";
                        toast_variant := default_variant |};
              Navigate "/"]
         end
     end)
  ++ [SetLoading false].
End Auth.

(** * Values of the column types

    A row, and a record of inserted values, holds a column by a string or
    by an integer.  Not every string or integer is a value of the column's
    type: the store converts what a request carries to the type of each
    column before the statement runs, and answers with an error of its own
    when that fails.  A statement of this model stands for a request that
    passed the conversion; the predicates below say which strings and
    integers are values of a type, written the way the store prints
    them. *)

(** [INTEGER]: a signed integer of four bytes. *)
Definition is_INTEGER (n : Z) : bool :=
  bool_decide (-2147483648 ≤ n ≤ 2147483647)%Z.

(** [TEXT]: any characters but the one of code zero. *)
Definition is_TEXT (s : string) : bool :=
  forallb (λ c, negb (bool_decide (c = Ascii.zero)))
    (String.list_ascii_of_string s).

(** [UUID]: 32 hexadecimal digits in lower case, in groups of 8, 4, 4, 4
    and 12 separated by hyphens. *)
Definition hex_digit : atom :=
  one_of (String.list_ascii_of_string "0123456789abcdef").

Definition uuid_regex : list atom :=
  replicate 8 hex_digit ++ [lit "-"%char] ++ replicate 4 hex_digit
  ++ [lit "-"%char] ++ replicate 4 hex_digit ++ [lit "-"%char]
  ++ replicate 4 hex_digit ++ [lit "-"%char] ++ replicate 12 hex_digit.

Definition is_UUID (s : string) : bool := regex_test uuid_regex s.

(** The number that a string of decimal digits writes. *)
Definition digits_value (s : string) : Z :=
  foldl (λ acc c, 10 * acc + (Z.of_nat (Ascii.nat_of_ascii c) - 48))%Z 0%Z
    (String.list_ascii_of_string s).

Definition leap_year (y : Z) : bool :=
  ((y mod 4 =? 0) && negb (y mod 100 =? 0) || (y mod 400 =? 0))%Z.

Definition days_in_month (y m : Z) : Z :=
  if (m =? 2)%Z then (if leap_year y then 29 else 28)%Z
  else if bool_decide (m ∈ [4; 6; 9; 11]%Z) then 30%Z else 31%Z.

(** [/^\d{4}-\d{2}-\d{2}$/] *)
Definition date_regex : list atom :=
  replicate 4 digit ++ [lit "-"%char] ++ replicate 2 digit ++ [lit "-"%char]
  ++ replicate 2 digit.

(** [DATE]: a day of the calendar from year 1 to year 9999, written
    YYYY-MM-DD. *)
Definition is_DATE (s : string) : bool :=
  regex_test date_regex s
  && (let y := digits_value (String.substring 0 4 s) in
      let m := digits_value (String.substring 5 2 s) in
      let d := digits_value (String.substring 8 2 s) in
      bool_decide (1 ≤ y ∧ 1 ≤ m ≤ 12 ∧ 1 ≤ d ≤ days_in_month y m)%Z).

(** A profile whose columns are values of their types: [id UUID],
    [nome_completo TEXT] and [email TEXT]. *)
Definition profile_typed (p : Profile.row) : bool :=
  is_UUID (Profile.id p) && is_TEXT (Profile.nome_completo p)
  && is_TEXT (Profile.email p).

(** The values of an insert are values of the types of their columns:
    [cursos] has [nome TEXT], [codigo_curso TEXT] and
    [duracao_semestres INTEGER]. *)
Definition curso_values_typed (v : curso_values) : bool :=
  is_TEXT (cv_nome v) && is_TEXT (cv_codigo_curso v)
  && is_INTEGER (cv_duracao_semestres v).

(** [alunos]: [TEXT] columns, [data_nascimento DATE] and the enumerated
    [status], which is of its type as it stands. *)
Definition aluno_values_typed (v : aluno_values) : bool :=
  is_TEXT (av_nome_completo v) && is_TEXT (av_matricula v)
  && is_TEXT (av_cpf v) && is_TEXT (av_email v)
  && is_DATE (av_data_nascimento v)
  && from_option is_TEXT true (av_telefone v).

(** [matriculas]: [aluno_id UUID], [curso_id UUID], [ano_ingresso INTEGER]
    and [semestre_ingresso INTEGER]. *)
Definition matricula_values_typed (v : matricula_values) : bool :=
  is_UUID (mv_aluno_id v) && is_UUID (mv_curso_id v)
  && is_INTEGER (mv_ano_ingresso v) && is_INTEGER (mv_semestre_ingresso v).

(** * Sample data *)

Module Sample.
Local Open Scope Z_scope.
Definition ana : uuid := "a0000000-0000-4000-8000-000000000001".
Definition bob : uuid := "b0000000-0000-4000-8000-000000000002".

Definition es : Curso.row :=
  {| Curso.id := "c0000000-0000-4000-8000-000000000001";
     Curso.nome := "Engenharia de Software"; Curso.codigo_curso := "ENG-SW";
     Curso.duracao_semestres := 8;
     Curso.created_at := 10; Curso.updated_at := 10 |}.

Definition rita : Aluno.row :=
  {| Aluno.id := "d0000000-0000-4000-8000-000000000001";
     Aluno.nome_completo := "Rita Lopes"; Aluno.matricula := "2025-1-0001";
     Aluno.cpf := "111.222.333-44"; Aluno.email := "rita@example.org";
     Aluno.data_nascimento := "2001-02-03"; Aluno.telefone := None;
     Aluno.status := ATIVO; Aluno.created_at := 11; Aluno.updated_at := 11 |}.

Definition tito : Aluno.row :=
  {| Aluno.id := "d0000000-0000-4000-8000-000000000002";
     Aluno.nome_completo := "Tito Reis"; Aluno.matricula := "2024-2-0007";
     Aluno.cpf := "555.666.777-88"; Aluno.email := "tito@example.org";
     Aluno.data_nascimento := "2000-05-06"; Aluno.telefone := None;
     Aluno.status := INATIVO; Aluno.created_at := 12; Aluno.updated_at := 12 |}.

Definition rita_es : Matricula.row :=
  {| Matricula.id := "e0000000-0000-4000-8000-000000000001";
     Matricula.aluno_id := Aluno.id rita; Matricula.curso_id := Curso.id es;
     Matricula.ano_ingresso := 2025; Matricula.semestre_ingresso := 1;
     Matricula.data_matricula := 13 |}.

Definition db : Db :=
  {| auth_users :=
       [ {| AuthUser.id := ana; AuthUser.email := Some "ana@example.org";
            AuthUser.raw_user_meta_data := None |};
         {| AuthUser.id := bob; AuthUser.email := Some "bob@example.org";
            AuthUser.raw_user_meta_data := None |} ];
     profiles :=
       [ {| Profile.id := ana; Profile.nome_completo := "Ana";
            Profile.email := "ana@example.org";
            Profile.created_at := 1; Profile.updated_at := 1 |};
         {| Profile.id := bob; Profile.nome_completo := "Bob";
            Profile.email := "bob@example.org";
            Profile.created_at := 2; Profile.updated_at := 2 |} ];
     user_roles :=
       [ {| UserRole.id := "f0000000-0000-4000-8000-000000000001";
            UserRole.user_id := ana; UserRole.role := admin;
            UserRole.created_at := 3 |};
         {| UserRole.id := "f0000000-0000-4000-8000-000000000002";
            UserRole.user_id := bob; UserRole.role := leitor;
            UserRole.created_at := 4 |} ];
     cursos := [es];
     alunos := [rita; tito];
     matriculas := [rita_es] |}.

Definition as_ana : Session := {| auth_uid := Some ana; db_role := authenticated |}.
Definition as_bob : Session := {| auth_uid := Some bob; db_role := authenticated |}.

Definition srv : Server :=
  {| NOW := 1000; gen_random_uuid := "90000000-0000-4000-8000-000000000009" |}.

(** A subject signing up with a display name. *)
Definition carla : AuthUser.row :=
  {| AuthUser.id := "a0000000-0000-4000-8000-000000000003";
     AuthUser.email := Some "carla@example.org";
     AuthUser.raw_user_meta_data :=
       Some {[ "nome_completo" := JString "Carla Dias" ]} |}.

(** A stand-in for the validation library and for the collation. *)
#[local] Instance zod : Zod :=
  {| z_is_email := λ e, includes e "@";
     z_nan_message := "Expected number, received nan" |}.

#[local] Instance collation : Collation := {| collate_le := String.leb |}.

(** A run: the admin adds a course with a taken code and one with a free
    code, an auth subject is created, the admin moves a course to another
    id, drops a student, and enrols with a term that does not exist. *)
Definition busy_day : list operation :=
  [ by_session srv as_ana
      (insert_into_cursos {| cv_nome := "Direito"; cv_codigo_curso := "ENG-SW";
                             cv_duracao_semestres := 10 |});
    by_session srv as_ana
      (insert_into_cursos {| cv_nome := "Direito"; cv_codigo_curso := "DIR";
                             cv_duracao_semestres := 10 |});
    sign_up srv carla;
    by_session srv as_ana
      (update_cursos (λ c, eq_uuid (Curso.id c) (Curso.id es))
         (λ c, {| Curso.id := "c0000000-0000-4000-8000-000000000007";
                  Curso.nome := Curso.nome c;
                  Curso.codigo_curso := Curso.codigo_curso c;
                  Curso.duracao_semestres := Curso.duracao_semestres c;
                  Curso.created_at := Curso.created_at c;
                  Curso.updated_at := Curso.updated_at c |}));
    by_session srv as_ana (delete_from_alunos (λ a, eq_uuid (Aluno.id a) (Aluno.id tito)));
    by_session srv as_ana
      (insert_into_matriculas {| mv_aluno_id := Aluno.id rita;
                                 mv_curso_id := Curso.id es;
                                 mv_ano_ingresso := 2026;
                                 mv_semestre_ingresso := 3 |}) ].

(** The sample database before anyone was made admin, and what a reader
    may try to change that. *)
Definition before_admins : Db :=
  set_user_roles (filter (λ r, UserRole.role r = leitor) (user_roles db)) db.

Definition self_promotion : list operation :=
  [ by_session srv as_bob
      (insert_into_user_roles {| uv_user_id := bob; uv_role := admin |});
    by_session srv as_bob
      (update_user_roles (λ _, true)
         (λ r, {| UserRole.id := UserRole.id r;
                  UserRole.user_id := UserRole.user_id r;
                  UserRole.role := admin;
                  UserRole.created_at := UserRole.created_at r |})) ].
End Sample.

(** * Properties *)

(** ** Records and lists *)

Lemma set_profiles_id db : set_profiles (profiles db) db = db.
Proof. by destruct db. Qed.
Lemma set_user_roles_id db : set_user_roles (user_roles db) db = db.
Proof. by destruct db. Qed.
Lemma set_cursos_id db : set_cursos (cursos db) db = db.
Proof. by destruct db. Qed.
Lemma set_alunos_id db : set_alunos (alunos db) db = db.
Proof. by destruct db. Qed.
Lemma set_matriculas_id db : set_matriculas (matriculas db) db = db.
Proof. by destruct db. Qed.

Lemma filter_none {A} (f : A → bool) (l : list A) :
  (∀ x, f x = false) → filter (λ x, f x) l = [].
Proof.
  intros Hf. induction l as [|x l IH]; [done|].
  rewrite filter_cons, Hf. by case_decide.
Qed.

Lemma filter_all {A} (P : A → Prop) `{∀ x, Decision (P x)} (l : list A) :
  (∀ x, x ∈ l → P x) → filter P l = l.
Proof.
  induction l as [|x l IH]; intros HP; [done|].
  rewrite filter_cons. rewrite decide_True by (apply HP; left).
  f_equal. apply IH. intros y Hy. apply HP. by right.
Qed.

Lemma fmap_unless {A} (f : A → bool) (g : A → A) (l : list A) :
  (∀ x, f x = false) → (λ x, if f x then g x else x) <$> l = l.
Proof.
  intros Hf. induction l as [|x l IH]; [done|].
  rewrite fmap_cons, Hf. by f_equal.
Qed.

(** ** Statements that reach no row *)

Section Untargeted.
Context {R : Type} (td : table_def R) (db : Db) (s : Session).

Lemma targeted_false c where_ r :
  using_ok (td_policies td) db s c r = false →
  targeted td db s c where_ r = false.
Proof. unfold targeted. intros ->. apply andb_false_r. Qed.

Lemma update_rows_untargeted srv where_ set rows :
  (∀ r, using_ok (td_policies td) db s UPDATE r = false) →
  update_rows td srv db s where_ set rows = Ok rows.
Proof.
  intros Hno. unfold update_rows.
  rewrite filter_none by (intros r; by apply targeted_false).
  simpl. rewrite fmap_unless by (intros r; by apply targeted_false).
  done.
Qed.

Lemma deleted_rows_untargeted where_ rows :
  (∀ r, using_ok (td_policies td) db s DELETE r = false) →
  deleted_rows td db s where_ rows = [].
Proof.
  intros Hno. unfold deleted_rows.
  apply filter_none. intros r. by apply targeted_false.
Qed.

Lemma kept_rows_untargeted where_ rows :
  (∀ r, using_ok (td_policies td) db s DELETE r = false) →
  kept_rows td db s where_ rows = rows.
Proof.
  intros Hno. unfold kept_rows. apply filter_all.
  intros r _. by rewrite targeted_false.
Qed.
End Untargeted.

Lemma orphaned_nil final_keys child_refs : orphaned [] final_keys child_refs = false.
Proof. done. Qed.

(** ** What the policies grant someone who is not an admin *)

Ltac eval_policies not_admin :=
  intros; unfold using_ok, check_ok, with_check;
  match goal with c : command |- _ => destruct c end;
  simpl; rewrite ?not_admin; try done.

Section NotAdmin.
Context (db : Db) (s : Session).
Hypothesis not_admin : has_role db (auth_uid s) admin = false.

Lemma user_roles_writes_need_admin c r :
  c ≠ SELECT →
  using_ok user_roles_policies db s c r = false
  ∧ check_ok user_roles_policies db s c r = false.
Proof using not_admin. eval_policies not_admin. Qed.

Lemma cursos_writes_need_admin c r :
  c ≠ SELECT →
  using_ok cursos_policies db s c r = false
  ∧ check_ok cursos_policies db s c r = false.
Proof using not_admin. eval_policies not_admin. Qed.

Lemma alunos_writes_need_admin c r :
  c ≠ SELECT →
  using_ok alunos_policies db s c r = false
  ∧ check_ok alunos_policies db s c r = false.
Proof using not_admin. eval_policies not_admin. Qed.

Lemma matriculas_writes_need_admin c r :
  c ≠ SELECT →
  using_ok matriculas_policies db s c r = false
  ∧ check_ok matriculas_policies db s c r = false.
Proof using not_admin. eval_policies not_admin. Qed.
End NotAdmin.

(** ** Writes by someone who is not an admin *)

(** C1. Whoever does not hold the admin role cannot create, update or
    delete a row of [cursos], [alunos], [matriculas] or [user_roles]:
    whatever statement the session sends to one of these tables, and
    whatever it targets or supplies, the database is left as it was.  An
    insert is refused with [insufficient_privilege]; an update or a delete
    reaches no row. *)
Theorem non_admin_writes_denied (srv : Server) (s : Session) (st : statement)
    (db : Db) :
  has_role db (auth_uid s) admin = false →
  target st ≠ t_profiles →
  commit db (exec srv s st db) = db
  ∧ (exec srv s st db = Err insufficient_privilege ∨ exec srv s st db = Ok db).
Proof.
  intros Hna Ht.
  assert (exec srv s st db = Err insufficient_privilege
          ∨ exec srv s st db = Ok db) as Hexec.
  { destruct st; try done; simpl.
    - left. unfold insert_row. simpl td_policies.
      by rewrite (proj2 (user_roles_writes_need_admin db s Hna INSERT _ ltac:(done))).
    - right. rewrite update_rows_untargeted; [simpl; by rewrite set_user_roles_id|].
      intros r. by apply user_roles_writes_need_admin.
    - right. rewrite kept_rows_untargeted; [by rewrite set_user_roles_id|].
      intros r. by apply user_roles_writes_need_admin.
    - left. unfold insert_row. simpl td_policies.
      by rewrite (proj2 (cursos_writes_need_admin db s Hna INSERT _ ltac:(done))).
    - right.
      assert (∀ r, using_ok (td_policies cursos_def) db s UPDATE r = false) as Hno
        by (intros r; by apply cursos_writes_need_admin).
      rewrite update_rows_untargeted by done. simpl.
      rewrite filter_none by (intros r; by apply targeted_false).
      simpl. by rewrite set_cursos_id.
    - right.
      assert (∀ r, using_ok (td_policies cursos_def) db s DELETE r = false) as Hno
        by (intros r; by apply cursos_writes_need_admin).
      rewrite deleted_rows_untargeted, kept_rows_untargeted by done. simpl.
      rewrite set_cursos_id, filter_all; [by rewrite set_matriculas_id|].
      intros m _. apply not_elem_of_nil.
    - left. unfold insert_row. simpl td_policies.
      by rewrite (proj2 (alunos_writes_need_admin db s Hna INSERT _ ltac:(done))).
    - right.
      assert (∀ r, using_ok (td_policies alunos_def) db s UPDATE r = false) as Hno
        by (intros r; by apply alunos_writes_need_admin).
      rewrite update_rows_untargeted by done. simpl.
      rewrite filter_none by (intros r; by apply targeted_false).
      simpl. by rewrite set_alunos_id.
    - right.
      assert (∀ r, using_ok (td_policies alunos_def) db s DELETE r = false) as Hno
        by (intros r; by apply alunos_writes_need_admin).
      rewrite deleted_rows_untargeted, kept_rows_untargeted by done. simpl.
      rewrite set_alunos_id, filter_all; [by rewrite set_matriculas_id|].
      intros m _. apply not_elem_of_nil.
    - left. unfold insert_row. simpl td_policies.
      by rewrite (proj2 (matriculas_writes_need_admin db s Hna INSERT _ ltac:(done))).
    - right. rewrite update_rows_untargeted; [simpl; by rewrite set_matriculas_id|].
      intros r. by apply matriculas_writes_need_admin.
    - right. rewrite kept_rows_untargeted; [by rewrite set_matriculas_id|].
      intros r. by apply matriculas_writes_need_admin. }
  split; [|done]. by destruct Hexec as [-> | ->].
Qed.

Lemma non_admin_writes_denied_witness :
  has_role Sample.db (auth_uid Sample.as_bob) admin = false
  ∧ target (delete_from_cursos (λ _, true)) ≠ t_profiles
  ∧ commit Sample.db
      (exec Sample.srv Sample.as_bob (delete_from_cursos (λ _, true)) Sample.db)
    = Sample.db.
Proof.
  split; [reflexivity|]. split; [discriminate|].
  apply (non_admin_writes_denied Sample.srv Sample.as_bob
           (delete_from_cursos (λ _, true)) Sample.db);
    [reflexivity | discriminate].
Defined.

(** ** Deleting a course *)

Lemma admin_reaches_cursos db s c r :
  has_role db (auth_uid s) admin = true →
  c ≠ SELECT →
  using_ok cursos_policies db s c r = true.
Proof. intros Ha Hc. unfold using_ok. destruct c; simpl; by rewrite ?Ha. Qed.

(** C2, as the specification words it, fails: the course of the sample
    database has an enrollment, and the admin's delete of it is not refused
    with a foreign-key violation; it succeeds and takes the enrollment
    along. *)
Lemma delete_enrolled_course_is_not_refused :
  let st := delete_from_cursos (λ c, eq_uuid (Curso.id c) (Curso.id Sample.es)) in
  Sample.es ∈ cursos Sample.db
  ∧ Sample.rita_es ∈ matriculas Sample.db
  ∧ Matricula.curso_id Sample.rita_es = Curso.id Sample.es
  ∧ (∀ name, exec Sample.srv Sample.as_ana st Sample.db
             ≠ Err (foreign_key_violation name))
  ∧ ∃ db', exec Sample.srv Sample.as_ana st Sample.db = Ok db'
           ∧ cursos db' = [] ∧ matriculas db' = [].
Proof.
  simpl. split; [apply list_elem_of_here|]. split; [apply list_elem_of_here|].
  split; [reflexivity|]. split; [intros name; vm_compute; discriminate|].
  eexists. split; [reflexivity|]. split; vm_compute; reflexivity.
Qed.

(** C2, amended. A delete of courses sent by an admin never fails: it
    removes exactly the courses its condition selects and, by cascade,
    exactly the enrollments that reference one of them; every other course
    and enrollment, and every other table, stays. *)
Theorem delete_course_cascades (srv : Server) (s : Session)
    (where_ : Curso.row → bool) (db : Db) :
  has_role db (auth_uid s) admin = true →
  ∃ db', exec srv s (delete_from_cursos where_) db = Ok db'
    ∧ (∀ c, c ∈ cursos db' ↔ c ∈ cursos db ∧ where_ c = false)
    ∧ (∀ m, m ∈ matriculas db' ↔
            m ∈ matriculas db
            ∧ ¬ ∃ c, c ∈ cursos db ∧ where_ c = true
                     ∧ Matricula.curso_id m = Curso.id c)
    ∧ auth_users db' = auth_users db ∧ profiles db' = profiles db
    ∧ user_roles db' = user_roles db ∧ alunos db' = alunos db.
Proof.
  intros Ha. eexists. split; [reflexivity|]. simpl.
  assert (∀ c, targeted cursos_def db s DELETE where_ c = where_ c) as Ht.
  { intros c. unfold targeted.
    change (td_policies cursos_def) with cursos_policies.
    rewrite admin_reaches_cursos by done. apply andb_true_r. }
  split; [|split; [|done]].
  - intros c. unfold kept_rows. rewrite list_elem_of_filter, Ht.
    destruct (where_ c); simpl; split; intros [? ?]; done.
  - intros m. rewrite list_elem_of_filter. unfold deleted_rows.
    rewrite list_elem_of_fmap. split.
    + intros [Hn Hm]. split; [done|]. intros (c & Hc & Hw & Heq).
      apply Hn. exists c. split; [done|].
      apply list_elem_of_filter. rewrite Ht, Hw. done.
    + intros [Hm Hn]. split; [|done]. intros (c & Heq & Hc).
      apply list_elem_of_filter in Hc as [Hw Hc]. rewrite Ht in Hw.
      apply Hn. exists c. split; [done|]. split; [|done].
      by destruct (where_ c).
Qed.

Lemma delete_course_cascades_witness :
  has_role Sample.db (auth_uid Sample.as_ana) admin = true
  ∧ ∃ db', exec Sample.srv Sample.as_ana (delete_from_cursos (λ _, true)) Sample.db
           = Ok db'
      ∧ auth_users db' = auth_users Sample.db.
Proof.
  split; [reflexivity|].
  destruct (delete_course_cascades Sample.srv Sample.as_ana (λ _, true) Sample.db)
    as (db' & Hex & _ & _ & Hau & _); [reflexivity|].
  exists db'. split; [exact Hex | exact Hau].
Defined.

(** ** Provisioning *)

Lemma existsb_false_filter {A} (f : A → bool) (P : A → Prop)
    `{∀ x, Decision (P x)} (l : list A) :
  existsb f l = false → (∀ x, P x → f x = true) → filter P l = [].
Proof.
  intros Hex HP. induction l as [|x l IH]; [done|].
  simpl in Hex. apply orb_false_iff in Hex as [Hx Hl].
  rewrite filter_cons. case_decide as HPx; [|by apply IH].
  apply HP in HPx. congruence.
Qed.

Lemma existsb_true_elem {A} (f : A → bool) (l : list A) (x : A) :
  x ∈ l → f x = true → existsb f l = true.
Proof.
  intros Hx Hf. apply existsb_exists. exists x.
  split; [by apply list_elem_of_In|done].
Qed.

(** A profile the owner manages to insert is appended, and no earlier row
    has its id. *)
Lemma insert_as_owner_profiles_Ok db new rows rows' :
  insert_as_owner profiles_def db new rows = Ok rows' →
  rows' = rows ++ [new]
  ∧ filter (λ q, Profile.id q = Profile.id new) rows = [].
Proof.
  unfold insert_as_owner, row_error, fk_error. simpl.
  destruct (existsb (λ b, eq_uuid (Profile.id new) (Profile.id b)) rows)
    eqn:Hpk; [done|].
  destruct (existsb (λ b, bool_decide (Profile.email new = Profile.email b)) rows)
    eqn:Hem; [done|].
  case_bool_decide; simpl; [|done]. intros [= <-]. split; [done|].
  eapply existsb_false_filter; [exact Hpk|].
  intros q Hq. unfold eq_uuid. by rewrite bool_decide_eq_true.
Qed.

(** C3. Creating an auth subject creates, in the same transaction, exactly
    one profile: when the creation succeeds the subject is stored and
    [profiles] has grown by one row, the only one with the subject's id,
    carrying the subject's email and, as display name, the
    ['nome_completo'] member of the subject's metadata or ["Usuário"] when
    there is none; when the insert of the profile fails, the creation of
    the subject fails and leaves the database as it was. *)
Theorem new_subject_gets_one_profile (srv : Server) (NEW : AuthUser.row)
    (db : Db) :
  (∀ db', insert_into_auth_users srv NEW db = Ok db' →
     auth_users db' = auth_users db ++ [NEW]
     ∧ ∃ p, profiles db' = profiles db ++ [p]
         ∧ Profile.id p = AuthUser.id NEW
         ∧ AuthUser.email NEW = Some (Profile.email p)
         ∧ Profile.nome_completo p =
             match json_get_text (AuthUser.raw_user_meta_data NEW) "nome_completo" with
             | Some supplied => supplied
             | None => "Usuário"
             end
         ∧ filter (λ q, Profile.id q = AuthUser.id NEW) (profiles db') = [p])
  ∧ (∀ e, handle_new_user srv NEW (set_auth_users (auth_users db ++ [NEW]) db)
          = Err e →
       is_err (insert_into_auth_users srv NEW db) = true
       ∧ commit db (insert_into_auth_users srv NEW db) = db).
Proof.
  split.
  - intros db'. unfold insert_into_auth_users.
    case_bool_decide; [done|]. unfold handle_new_user, profile_row. simpl.
    destruct (AuthUser.email NEW) as [mail|] eqn:Hmail; simpl; [|done].
    match goal with
    | |- context [insert_as_owner profiles_def ?d ?n ?r] =>
        destruct (insert_as_owner profiles_def d n r) as [rows|err] eqn:Hins
    end; simpl; [|done].
    intros [= <-]. apply insert_as_owner_profiles_Ok in Hins as [-> Hfresh].
    simpl in Hfresh. split; [done|]. eexists. split; [done|].
    split; [done|]. split; [done|]. split.
    { unfold COALESCE. by destruct (json_get_text _ _). }
    simpl. rewrite filter_app, Hfresh, filter_cons. simpl.
    by rewrite decide_True.
  - intros e He. unfold insert_into_auth_users.
    case_bool_decide; [done|]. by rewrite He.
Qed.

Lemma new_subject_gets_one_profile_witness :
  ∃ db', insert_into_auth_users Sample.srv Sample.carla Sample.db = Ok db'
    ∧ auth_users db' = auth_users Sample.db ++ [Sample.carla]
    ∧ ∃ p, profiles db' = profiles Sample.db ++ [p]
        ∧ Profile.nome_completo p = "Carla Dias".
Proof.
  eexists. split; [vm_compute; reflexivity|].
  edestruct (proj1 (new_subject_gets_one_profile Sample.srv Sample.carla Sample.db))
    as (Hau & p & Hp & _ & _ & Hname & _); [vm_compute; reflexivity|].
  split; [exact Hau|]. exists p. split; [exact Hp | exact Hname].
Defined.

(** ** The subject of a session *)

Lemma uid_is_spec s col : uid_is s col = true ↔ auth_uid s = Some col.
Proof.
  unfold uid_is. destruct (auth_uid s) as [u|]; [|done].
  rewrite bool_decide_eq_true. naive_solver.
Qed.

(** ** Enrollments *)

Lemma admin_passes_matriculas_check db s c r :
  has_role db (auth_uid s) admin = true →
  c ≠ SELECT →
  check_ok matriculas_policies db s c r = true.
Proof.
  intros Ha Hc. unfold check_ok, with_check. destruct c; simpl; by rewrite ?Ha.
Qed.

(** An insert into [matriculas] that repeats a stored (student, course)
    pair never gets past the constraints. *)
Lemma insert_as_owner_matriculas_duplicate db new rows e :
  e ∈ rows →
  Matricula.aluno_id e = Matricula.aluno_id new →
  Matricula.curso_id e = Matricula.curso_id new →
  is_err (insert_as_owner matriculas_def db new rows) = true
  ∧ (Matricula.semestre_ingresso new ∈ [1%Z; 2%Z] →
     ∃ name, insert_as_owner matriculas_def db new rows
             = Err (unique_violation name)).
Proof.
  intros He Ha Hc.
  assert (existsb
            (λ b, eq_uuid (Matricula.aluno_id new) (Matricula.aluno_id b)
                  && eq_uuid (Matricula.curso_id new) (Matricula.curso_id b))
            rows = true) as Hdup.
  { apply existsb_true_elem with e; [done|].
    unfold eq_uuid. rewrite Ha, Hc, !bool_decide_eq_true_2; done. }
  unfold insert_as_owner, row_error. simpl.
  case_bool_decide as Hsem; simpl.
  - destruct (existsb (λ b, eq_uuid (Matricula.id new) (Matricula.id b)) rows);
      simpl; [by eauto|].
    rewrite Hdup. simpl. by eauto.
  - done.
Qed.

(** C5, as the specification words it, fails: the sample database holds
    an enrollment of Rita in the course, and an insert of a second
    enrollment of Rita in that course is refused, but not always with a
    uniqueness violation.  Sent by the admin with term 3 it is refused by
    the CHECK constraint on the term, which is looked at before the unique
    constraint; sent by a reader with term 1 it is refused by row-level
    security, which is looked at before any constraint. *)
Lemma duplicate_enrollment_other_refusals :
  let v3 := {| mv_aluno_id := Aluno.id Sample.rita;
               mv_curso_id := Curso.id Sample.es;
               mv_ano_ingresso := 2026; mv_semestre_ingresso := 3 |} in
  let v1 := {| mv_aluno_id := Aluno.id Sample.rita;
               mv_curso_id := Curso.id Sample.es;
               mv_ano_ingresso := 2026; mv_semestre_ingresso := 1 |} in
  Sample.rita_es ∈ matriculas Sample.db
  ∧ Matricula.aluno_id Sample.rita_es = mv_aluno_id v3
  ∧ Matricula.curso_id Sample.rita_es = mv_curso_id v3
  ∧ matricula_values_typed v3 = true
  ∧ has_role Sample.db (auth_uid Sample.as_ana) admin = true
  ∧ exec Sample.srv Sample.as_ana (insert_into_matriculas v3) Sample.db
    = Err (check_violation "matriculas_semestre_ingresso_check")
  ∧ (∀ name, exec Sample.srv Sample.as_ana (insert_into_matriculas v3) Sample.db
             ≠ Err (unique_violation name))
  ∧ exec Sample.srv Sample.as_bob (insert_into_matriculas v1) Sample.db
    = Err insufficient_privilege.
Proof.
  simpl. split; [apply list_elem_of_here|]. do 4 (split; [reflexivity|]).
  split; [vm_compute; reflexivity|].
  split; [intros name; vm_compute; discriminate|]. vm_compute; reflexivity.
Qed.

(** C5, amended. When [matriculas] holds an enrollment of a student in a
    course, an insert of another enrollment of that student in that course
    fails and leaves the database as it was, whatever entry year and term
    it supplies and whoever sends it.  For ids that are [UUID]s and a year
    and a term that are [INTEGER]s, the failure is a uniqueness violation
    exactly when the insert is sent by an admin with term 1 or 2, whatever
    the entry year; it then names the constraint on the (student, course)
    pair unless the generated id is taken as well.  Sent by someone who is
    not an admin, the insert is refused by row-level security; sent by an
    admin with another term, by the CHECK constraint on the term. *)
Theorem duplicate_enrollment_rejected (srv : Server) (s : Session)
    (v : matricula_values) (db : Db) (e : Matricula.row) :
  e ∈ matriculas db →
  Matricula.aluno_id e = mv_aluno_id v →
  Matricula.curso_id e = mv_curso_id v →
  is_err (exec srv s (insert_into_matriculas v) db) = true
  ∧ commit db (exec srv s (insert_into_matriculas v) db) = db
  ∧ (matricula_values_typed v = true →
     ((∃ name, exec srv s (insert_into_matriculas v) db
               = Err (unique_violation name))
      ↔ has_role db (auth_uid s) admin = true
        ∧ mv_semestre_ingresso v ∈ [1%Z; 2%Z])
     ∧ (has_role db (auth_uid s) admin = true →
        mv_semestre_ingresso v ∈ [1%Z; 2%Z] →
        (∀ m, m ∈ matriculas db → Matricula.id m ≠ gen_random_uuid srv) →
        exec srv s (insert_into_matriculas v) db
        = Err (unique_violation "matriculas_aluno_id_curso_id_key"))
     ∧ (has_role db (auth_uid s) admin = false →
        exec srv s (insert_into_matriculas v) db = Err insufficient_privilege)
     ∧ (has_role db (auth_uid s) admin = true →
        mv_semestre_ingresso v ∉ [1%Z; 2%Z] →
        exec srv s (insert_into_matriculas v) db
        = Err (check_violation "matriculas_semestre_ingresso_check"))).
Proof.
  intros He Ha Hc.
  destruct (insert_as_owner_matriculas_duplicate db (matricula_row srv v)
              (matriculas db) e He Ha Hc) as [Herr Huniq].
  assert (is_err (exec srv s (insert_into_matriculas v) db) = true) as Hfail.
  { simpl. unfold insert_row.
    destruct (check_ok _ _ _ _ _); [|done].
    by destruct (insert_as_owner _ _ _ _). }
  split; [done|]. split.
  { by destruct (exec srv s (insert_into_matriculas v) db). }
  intros _.
  assert (has_role db (auth_uid s) admin = true →
          exec srv s (insert_into_matriculas v) db
          = rows ← insert_as_owner matriculas_def db (matricula_row srv v)
                     (matriculas db);
            Ok (set_matriculas rows db)) as Hadmin.
  { intros Hadm. simpl. unfold insert_row.
    change (td_policies matriculas_def) with matriculas_policies.
    by rewrite admin_passes_matriculas_check. }
  assert (has_role db (auth_uid s) admin = false →
          exec srv s (insert_into_matriculas v) db = Err insufficient_privilege)
    as Hreader.
  { intros Hna. simpl. unfold insert_row.
    change (td_policies matriculas_def) with matriculas_policies.
    by rewrite (proj2 (matriculas_writes_need_admin db s Hna INSERT _
                         ltac:(done))). }
  assert (has_role db (auth_uid s) admin = true →
          mv_semestre_ingresso v ∉ [1%Z; 2%Z] →
          exec srv s (insert_into_matriculas v) db
          = Err (check_violation "matriculas_semestre_ingresso_check"))
    as Hterm.
  { intros Hadm Hsem. rewrite Hadmin by done.
    unfold insert_as_owner, row_error. simpl.
    by rewrite bool_decide_eq_false_2. }
  split; [|split; [|split; done]].
  - split.
    + intros [name Hname].
      destruct (has_role db (auth_uid s) admin) eqn:Hadm.
      * split; [done|].
        destruct (decide (mv_semestre_ingresso v ∈ [1%Z; 2%Z])) as [|Hsem];
          [done|].
        rewrite Hterm in Hname; done.
      * rewrite Hreader in Hname; done.
    + intros [Hadm Hsem]. rewrite Hadmin by done.
      destruct (Huniq Hsem) as [name ->]. by exists name.
  - intros Hadm Hsem Hid. rewrite Hadmin by done.
    unfold insert_as_owner, row_error. simpl.
    rewrite bool_decide_eq_true_2 by done. simpl.
    assert (existsb (λ b, eq_uuid (gen_random_uuid srv) (Matricula.id b))
              (matriculas db) = false) as ->.
    { apply not_true_iff_false. intros (m & Hm & Hsame)%existsb_exists.
      apply list_elem_of_In in Hm. apply bool_decide_eq_true in Hsame.
      by apply (Hid m Hm). }
    simpl.
    assert (existsb
              (λ b, eq_uuid (mv_aluno_id v) (Matricula.aluno_id b)
                    && eq_uuid (mv_curso_id v) (Matricula.curso_id b))
              (matriculas db) = true) as ->; [|done].
    apply existsb_true_elem with e; [done|].
    unfold eq_uuid. by rewrite Ha, Hc, !bool_decide_eq_true_2.
Qed.

Lemma duplicate_enrollment_rejected_witness :
  let v := {| mv_aluno_id := Aluno.id Sample.rita;
              mv_curso_id := Curso.id Sample.es;
              mv_ano_ingresso := 2031; mv_semestre_ingresso := 2 |} in
  Sample.rita_es ∈ matriculas Sample.db
  ∧ matricula_values_typed v = true
  ∧ has_role Sample.db (auth_uid Sample.as_ana) admin = true
  ∧ mv_semestre_ingresso v ∈ [1%Z; 2%Z]
  ∧ (∀ m, m ∈ matriculas Sample.db →
          Matricula.id m ≠ gen_random_uuid Sample.srv)
  ∧ exec Sample.srv Sample.as_ana (insert_into_matriculas v) Sample.db
    = Err (unique_violation "matriculas_aluno_id_curso_id_key").
Proof.
  intros v.
  assert (Sample.rita_es ∈ matriculas Sample.db) as Hin by apply list_elem_of_here.
  assert (mv_semestre_ingresso v ∈ [1%Z; 2%Z]) as Hsem
    by (apply list_elem_of_further, list_elem_of_here).
  assert (∀ m, m ∈ matriculas Sample.db →
               Matricula.id m ≠ gen_random_uuid Sample.srv) as Hid.
  { intros m Hm. apply list_elem_of_singleton in Hm as ->. discriminate. }
  split; [exact Hin|]. split; [reflexivity|]. split; [reflexivity|].
  split; [exact Hsem|]. split; [exact Hid|].
  apply (proj1 (proj2 (proj2 (proj2
           (duplicate_enrollment_rejected Sample.srv Sample.as_ana v Sample.db
              Sample.rita_es Hin eq_refl eq_refl)) eq_refl)));
    [reflexivity | exact Hsem | exact Hid].
Defined.

(** ** The update timestamp *)

Lemma update_rows_Ok {R} (td : table_def R) srv db s where_ set rows rows' :
  update_rows td srv db s where_ set rows = Ok rows' →
  rows' = (λ r, if targeted td db s UPDATE where_ r
                then td_before_update td srv (set r) else r) <$> rows.
Proof.
  unfold update_rows. destruct (forallb _ _); [|done].
  destruct (first_error _ _); [done|].
  destruct (first_error _ _); [done|]. by intros [= <-].
Qed.

Section Restamp.
Context {R : Type} (td : table_def R).
Context (updated_at : R → timestamptz) (with_updated_at : timestamptz → R → R).
Hypothesis trigger :
  td_before_update td = update_updated_at_column with_updated_at.
Hypothesis stamp : ∀ t r, updated_at (with_updated_at t r) = t.

Lemma update_rows_restamps srv db s where_ set rows rows' :
  update_rows td srv db s where_ set rows = Ok rows' →
  restamped updated_at with_updated_at (targeted td db s UPDATE where_) set
    (NOW srv) rows rows'.
Proof using trigger stamp.
  intros ->%update_rows_Ok. split; [by rewrite length_fmap|].
  intros i old Hold. rewrite list_lookup_fmap, Hold. simpl.
  eexists. split; [done|]. rewrite trigger. unfold update_updated_at_column.
  destruct (targeted td db s UPDATE where_ old).
  - rewrite stamp. by split.
  - split; [done|]. intros _. reflexivity.
Qed.
End Restamp.

Lemma exec_update_profiles_Ok srv s where_ set db db' :
  exec srv s (update_profiles where_ set) db = Ok db' →
  update_rows profiles_def srv db s where_ set (profiles db) = Ok (profiles db').
Proof.
  simpl. destruct (update_rows _ _ _ _ _ _ _); simpl; [|done].
  destruct (no_orphans _ _ _ _); simpl; [|done]. by intros [= <-].
Qed.

Lemma exec_update_cursos_Ok srv s where_ set db db' :
  exec srv s (update_cursos where_ set) db = Ok db' →
  update_rows cursos_def srv db s where_ set (cursos db) = Ok (cursos db').
Proof.
  simpl. destruct (update_rows _ _ _ _ _ _ _); simpl; [|done].
  destruct (no_orphans _ _ _ _); simpl; [|done]. by intros [= <-].
Qed.

Lemma exec_update_alunos_Ok srv s where_ set db db' :
  exec srv s (update_alunos where_ set) db = Ok db' →
  update_rows alunos_def srv db s where_ set (alunos db) = Ok (alunos db').
Proof.
  simpl. destruct (update_rows _ _ _ _ _ _ _); simpl; [|done].
  destruct (no_orphans _ _ _ _); simpl; [|done]. by intros [= <-].
Qed.

(** C8. Every update of [profiles], [cursos] or [alunos] that goes through
    writes [NOW()] into [updated_at] of each row it changes, whatever value
    its [SET] clause put there, and leaves the other rows alone; so, as
    long as the server clock is not behind a row's stored timestamp, the
    timestamp of that row never goes back. *)
Theorem updated_at_is_server_time (srv : Server) (s : Session) (db db' : Db) :
  (∀ where_ set,
     exec srv s (update_profiles where_ set) db = Ok db' →
     restamped Profile.updated_at Profile.with_updated_at
       (targeted profiles_def db s UPDATE where_) set (NOW srv)
       (profiles db) (profiles db'))
  ∧ (∀ where_ set,
       exec srv s (update_cursos where_ set) db = Ok db' →
       restamped Curso.updated_at Curso.with_updated_at
         (targeted cursos_def db s UPDATE where_) set (NOW srv)
         (cursos db) (cursos db'))
  ∧ (∀ where_ set,
       exec srv s (update_alunos where_ set) db = Ok db' →
       restamped Aluno.updated_at Aluno.with_updated_at
         (targeted alunos_def db s UPDATE where_) set (NOW srv)
         (alunos db) (alunos db')).
Proof.
  split; [|split]; intros where_ set Hex.
  - apply exec_update_profiles_Ok in Hex.
    by apply (update_rows_restamps profiles_def Profile.updated_at
                Profile.with_updated_at) in Hex.
  - apply exec_update_cursos_Ok in Hex.
    by apply (update_rows_restamps cursos_def Curso.updated_at
                Curso.with_updated_at) in Hex.
  - apply exec_update_alunos_Ok in Hex.
    by apply (update_rows_restamps alunos_def Aluno.updated_at
                Aluno.with_updated_at) in Hex.
Qed.

(** Two updates in a row that both reach the row at position [i]: its
    timestamp after the second is not before its timestamp after the
    first, provided the clock did not go back in between. *)
Corollary successive_updates_advance srv1 srv2 s1 s2 w1 w2 set1 set2
    db db1 db2 i r0 r1 r2 :
  exec srv1 s1 (update_cursos w1 set1) db = Ok db1 →
  exec srv2 s2 (update_cursos w2 set2) db1 = Ok db2 →
  cursos db !! i = Some r0 → cursos db1 !! i = Some r1 →
  cursos db2 !! i = Some r2 →
  targeted cursos_def db s1 UPDATE w1 r0 = true →
  (NOW srv1 ≤ NOW srv2)%Z →
  Curso.updated_at r1 = NOW srv1 ∧ (Curso.updated_at r1 ≤ Curso.updated_at r2)%Z.
Proof.
  intros H1%exec_update_cursos_Ok H2%exec_update_cursos_Ok Hr0 Hr1 Hr2 Hhit Hclock.
  apply (update_rows_restamps cursos_def Curso.updated_at Curso.with_updated_at)
    in H1 as [_ H1]; [|done..].
  apply (update_rows_restamps cursos_def Curso.updated_at Curso.with_updated_at)
    in H2 as [_ H2]; [|done..].
  destruct (H1 i r0 Hr0) as (n1 & Hn1 & Hs1 & _).
  destruct (H2 i r1 Hr1) as (n2 & Hn2 & _ & Hm2).
  rewrite Hhit in Hs1. destruct Hs1 as [_ Hs1].
  assert (n1 = r1) as -> by congruence. assert (n2 = r2) as -> by congruence.
  split; [done|]. apply Hm2. by rewrite Hs1.
Qed.

Lemma updated_at_is_server_time_witness :
  let st := update_cursos (λ c, eq_uuid (Curso.id c) (Curso.id Sample.es))
              (λ c, {| Curso.id := Curso.id c; Curso.nome := Curso.nome c;
                       Curso.codigo_curso := Curso.codigo_curso c;
                       Curso.duracao_semestres := 10%Z;
                       Curso.created_at := Curso.created_at c;
                       Curso.updated_at := 5%Z |}) in
  ∃ db', exec Sample.srv Sample.as_ana st Sample.db = Ok db'
    ∧ ∃ new, cursos db' !! 0 = Some new ∧ Curso.updated_at new = 1000%Z.
Proof.
  intros st.
  set (db' := commit Sample.db (exec Sample.srv Sample.as_ana st Sample.db)).
  assert (exec Sample.srv Sample.as_ana st Sample.db = Ok db') as Hex
    by (vm_compute; reflexivity).
  exists db'. split; [exact Hex|].
  destruct (proj1 (proj2 (updated_at_is_server_time Sample.srv Sample.as_ana
                            Sample.db db')) _ _ Hex) as [_ Hrows].
  destruct (Hrows 0 Sample.es eq_refl) as (new & Hnew & Hstamp & _).
  exists new. split; [exact Hnew|]. exact (proj2 Hstamp).
Defined.

(** ** Validation in the forms *)

(** A schema that raises an issue stops [handleSubmit] before any request:
    all the handler does is show the first issue. *)
Lemma alunos_issue_blocks_request `{Zod} editingAluno formData reply issue rest :
  alunoSchema formData = issue :: rest →
  AlunosManager.handleSubmit editingAluno formData reply
  = [Toasted (failure "Erro de validação" (issue_message issue))].
Proof. unfold AlunosManager.handleSubmit. by intros ->. Qed.

Lemma cursos_issue_blocks_request `{Zod} editingCurso formData reply issue rest :
  cursoSchema formData = issue :: rest →
  CursosManager.handleSubmit editingCurso formData reply
  = [Toasted (failure "Erro de validação" (issue_message issue))].
Proof. unfold CursosManager.handleSubmit. by intros ->. Qed.

Lemma cursoSchema_nil `{Zod} formData :
  cursoSchema formData = [] →
  ∃ z, CursoForm.duracao_semestres formData = Num z ∧ (1 ≤ z)%Z.
Proof.
  unfold cursoSchema. intros Hnil.
  apply app_eq_nil in Hnil as [_ Hnil]. apply app_eq_nil in Hnil as [_ Hnil].
  destruct (CursoForm.duracao_semestres formData) as [|z]; [done|].
  exists z. split; [done|]. simpl in Hnil. unfold issue_unless in Hnil.
  by case_bool_decide.
Qed.

(** C6 does not hold of the enrollment form: [handleSubmit] parses its
    data against no schema, and submitting the form as it opens, with no
    student and no course picked, sends the insert with both ids empty. *)
Theorem enrollment_submit_skips_validation (year : Z)
    (reply : request → option PostgrestError) :
  MatriculaForm.aluno_id (MatriculasManager.emptyForm year) = ""
  ∧ MatriculaForm.curso_id (MatriculasManager.emptyForm year) = ""
  ∧ head (MatriculasManager.handleSubmit (MatriculasManager.emptyForm year) reply)
    = Some (Sent (matriculas_insert (MatriculasManager.emptyForm year)))
  ∧ ∀ formData,
      head (MatriculasManager.handleSubmit formData reply)
      = Some (Sent (matriculas_insert formData)).
Proof. done. Qed.

(** ** Errors of deletes *)

(** C7 does not hold of two of the three deletes: when the store answers
    the student soft delete or the enrollment delete with an error, the
    handler shows nothing; the course delete, in the same situation, shows
    an error toast. *)
Theorem delete_errors_not_shown (id : string) (error : PostgrestError) :
  AlunosManager.handleDelete true id (λ _, Some error)
  = [Sent (alunos_update_status_INATIVO_eq_id id)]
  ∧ MatriculasManager.handleDelete true id (λ _, Some error)
    = [Sent (matriculas_delete_eq_id id)]
  ∧ CursosManager.handleDelete true id (λ _, Some error)
    = [Sent (cursos_delete_eq_id id);
       Toasted (failure "Erro ao excluir curso"
                  "Pode haver alunos matriculados neste curso")].
Proof. done. Qed.

(** ** The duration of a course *)

(** C9, as the specification words it, fails: the table has no constraint
    on [duracao_semestres], and an admin's insert of a course with no
    semester at all is stored. *)
Lemma store_accepts_course_of_no_duration :
  let v := {| cv_nome := "Curso Livre"; cv_codigo_curso := "LIVRE";
              cv_duracao_semestres := 0 |} in
  ∃ db', exec Sample.srv Sample.as_ana (insert_into_cursos v) Sample.db = Ok db'
    ∧ ∃ c, c ∈ cursos db' ∧ (Curso.duracao_semestres c < 1)%Z.
Proof.
  simpl. eexists. split; [vm_compute; reflexivity|].
  eexists. split; [apply list_elem_of_further, list_elem_of_here|].
  vm_compute. reflexivity.
Qed.

(** C9, amended. The course form rejects a duration below 1, or one that
    is not a number, before any request: [handleSubmit] then only reports
    a validation error, and every insert or update it ever sends carries
    a duration of at least 1. *)
Theorem course_form_checks_duration `{Zod} (editingCurso : option Curso.row)
    (formData : CursoForm.formData) (reply : request → option PostgrestError) :
  (CursoForm.duracao_semestres formData = NaN
   ∨ (∃ z, CursoForm.duracao_semestres formData = Num z ∧ (z < 1)%Z) →
   (∃ first,
      CursosManager.handleSubmit editingCurso formData reply
      = [Toasted (failure "Erro de validação" first)])
   ∧ ∀ r, Sent r ∉ CursosManager.handleSubmit editingCurso formData reply)
  ∧ (∀ r f, Sent r ∈ CursosManager.handleSubmit editingCurso formData reply →
       r = cursos_insert f ∨ (∃ id, r = cursos_update_eq_id f id) →
       ∃ z, CursoForm.duracao_semestres f = Num z ∧ (1 ≤ z)%Z).
Proof.
  split.
  - intros Hbad.
    destruct (cursoSchema formData) as [|issue rest] eqn:Hschema.
    { apply cursoSchema_nil in Hschema as (z & Hz & Hle).
      destruct Hbad as [Hnan | (z' & Hz' & Hlt)]; [congruence|].
      assert (z' = z) by congruence. lia. }
    rewrite (cursos_issue_blocks_request _ _ _ _ _ Hschema).
    split; [by eexists|]. intros r Hr.
    apply list_elem_of_singleton in Hr. discriminate.
  - intros r f Hr Hshape.
    destruct (cursoSchema formData) as [|issue rest] eqn:Hschema.
    + assert (f = formData) as ->; [|by apply cursoSchema_nil].
      unfold CursosManager.handleSubmit in Hr. rewrite Hschema in Hr.
      destruct editingCurso as [c|];
        destruct (reply _) in Hr;
        repeat (apply elem_of_cons in Hr as [Hr|Hr];
                [try discriminate; injection Hr as ->;
                 destruct Hshape as [?|[? ?]]; congruence|]);
        by apply not_elem_of_nil in Hr.
    + rewrite (cursos_issue_blocks_request _ _ _ _ _ Hschema) in Hr.
      apply list_elem_of_singleton in Hr. discriminate.
Qed.

Lemma course_form_checks_duration_witness :
  let formData := {| CursoForm.nome := "Curso Livre";
                     CursoForm.codigo_curso := "LIVRE";
                     CursoForm.duracao_semestres := Num 0 |} in
  (CursoForm.duracao_semestres formData = NaN
   ∨ ∃ z, CursoForm.duracao_semestres formData = Num z ∧ (z < 1)%Z)
  ∧ ∀ r, Sent r ∉ @CursosManager.handleSubmit Sample.zod None formData (λ _, None).
Proof.
  intros formData.
  assert (CursoForm.duracao_semestres formData = NaN
          ∨ ∃ z, CursoForm.duracao_semestres formData = Num z ∧ (z < 1)%Z) as Hbad
    by (right; exists 0%Z; split; [reflexivity | reflexivity]).
  split; [exact Hbad|].
  exact (proj2 (proj1 (@course_form_checks_duration Sample.zod None formData
                         (λ _, None)) Hbad)).
Defined.

(** ** The student list of the enrollment form *)

Lemma elem_of_order_by `{Collation} {R} (key : R → string) (rows : list R) x :
  x ∈ order_by key rows ↔ x ∈ rows.
Proof. unfold order_by. by rewrite merge_sort_Permutation. Qed.

Lemma alunos_select_ativos_active `{Collation} db s item :
  item ∈ MatriculasManager.alunos_select_ativos db s →
  active_student db (MatriculasManager.id item).
Proof.
  unfold MatriculasManager.alunos_select_ativos.
  intros (a & -> & Ha)%list_elem_of_fmap.
  apply elem_of_order_by, list_elem_of_filter in Ha as [Hst Ha].
  apply list_elem_of_filter in Ha as [_ Ha]. by exists a.
Qed.

Lemma handleSubmit_sends_formData formData reply f :
  Sent (matriculas_insert f) ∈ MatriculasManager.handleSubmit formData reply →
  f = formData.
Proof.
  unfold MatriculasManager.handleSubmit. intros Hin.
  destruct (reply _) in Hin;
    repeat (apply elem_of_cons in Hin as [Hin|Hin]; [congruence|]);
    by apply not_elem_of_nil in Hin.
Qed.

Section EnrollmentForm.
Context `{Collation} (db : Db) (s : Session) (year : Z).
Import MatriculasManager.

Lemma form_ok_initial : form_ok db (initialState year).
Proof.
  split; [|by left]. intros item Hin. by apply not_elem_of_nil in Hin.
Qed.

Lemma form_ok_step st st' :
  step db s year st st' → form_ok db st → form_ok db st'.
Proof.
  intros Hstep [Hlist Hpick]. destruct Hstep; simpl.
  - split; [|done]. intros item. apply alunos_select_ativos_active.
  - done.
  - split; [done|]. right. by apply Hlist.
  - done.
  - done.
  - done.
  - destruct open; [done|]. split; [done|]. by left.
  - unfold handleSubmit. destruct (reply _); simpl; [done|].
    split; [done|]. by left.
Qed.

Lemma form_ok_reachable st : reachable db s year st → form_ok db st.
Proof.
  unfold reachable. revert st. apply rtc_ind_r.
  - apply form_ok_initial.
  - intros st st' _ Hstep IH. by apply (form_ok_step st).
Qed.
End EnrollmentForm.

Lemma same_id_same_row (rows : list Aluno.row) a b :
  NoDup (Aluno.id <$> rows) → a ∈ rows → b ∈ rows →
  Aluno.id a = Aluno.id b → a = b.
Proof.
  induction rows as [|r rows IH]; intros Hnd Ha Hb Hid.
  { by apply not_elem_of_nil in Ha. }
  rewrite fmap_cons in Hnd. apply NoDup_cons in Hnd as [Hr Hnd].
  apply elem_of_cons in Ha as [->|Ha]; apply elem_of_cons in Hb as [->|Hb].
  - done.
  - exfalso. apply Hr. rewrite Hid. apply list_elem_of_fmap. by exists b.
  - exfalso. apply Hr. rewrite <- Hid. apply list_elem_of_fmap. by exists a.
  - by apply IH.
Qed.

(** C10. In every state of a session with the enrollment form, the
    student list holds only students whose status in the database is
    ATIVO, and the insert that a submit sends names either no student or
    one of those.  So, the ids of [alunos] being distinct, a student who is
    INATIVO, TRANCADO or FORMADO is never in the list and never the
    student of an enrollment the form sends. *)
Theorem inactive_students_not_offered `{Collation} (db : Db) (s : Session)
    (year : Z) (st : MatriculasManager.State) :
  MatriculasManager.reachable db s year st →
  (∀ item, item ∈ MatriculasManager.alunos st →
           active_student db (MatriculasManager.id item))
  ∧ (∀ reply f,
       Sent (matriculas_insert f)
         ∈ MatriculasManager.handleSubmit (MatriculasManager.formData st) reply →
       MatriculaForm.aluno_id f = ""
       ∨ active_student db (MatriculaForm.aluno_id f))
  ∧ (NoDup (Aluno.id <$> alunos db) →
     ∀ a, a ∈ alunos db → Aluno.status a ≠ ATIVO → Aluno.id a ≠ "" →
       (∀ item, item ∈ MatriculasManager.alunos st →
                MatriculasManager.id item ≠ Aluno.id a)
       ∧ (∀ reply f,
            Sent (matriculas_insert f)
              ∈ MatriculasManager.handleSubmit (MatriculasManager.formData st) reply →
            MatriculaForm.aluno_id f ≠ Aluno.id a)).
Proof.
  intros [Hlist Hpick]%(form_ok_reachable db s year).
  assert (∀ reply f,
            Sent (matriculas_insert f)
              ∈ MatriculasManager.handleSubmit (MatriculasManager.formData st) reply →
            MatriculaForm.aluno_id f = ""
            ∨ active_student db (MatriculaForm.aluno_id f)) as Hsent.
  { intros reply f Hin. by apply handleSubmit_sends_formData in Hin as ->. }
  split; [done|]. split; [done|].
  intros Hnd a Ha Hstatus Hid.
  assert (¬ active_student db (Aluno.id a)) as Hnot.
  { intros (b & Hb & Hbid & Hbst).
    apply Hstatus. by rewrite <- (same_id_same_row (alunos db) b a Hnd Hb Ha Hbid). }
  split.
  - intros item Hin Heq. apply Hnot. rewrite <- Heq. by apply Hlist.
  - intros reply f Hin Heq.
    destruct (Hsent reply f Hin) as [Hempty|Hact]; [congruence|].
    apply Hnot. by rewrite <- Heq.
Qed.

Lemma inactive_students_not_offered_witness :
  let st := MatriculasManager.fetchAlunos
              (Some (@MatriculasManager.alunos_select_ativos Sample.collation
                       Sample.db Sample.as_bob))
              (MatriculasManager.initialState 2025) in
  @MatriculasManager.reachable Sample.collation Sample.db Sample.as_bob 2025 st
  ∧ NoDup (Aluno.id <$> alunos Sample.db)
  ∧ Sample.tito ∈ alunos Sample.db
  ∧ Aluno.status Sample.tito ≠ ATIVO
  ∧ Aluno.id Sample.tito ≠ ""
  ∧ length (MatriculasManager.alunos st) = 1
  ∧ ∀ item, item ∈ MatriculasManager.alunos st →
            MatriculasManager.id item ≠ Aluno.id Sample.tito.
Proof.
  intros st.
  assert (@MatriculasManager.reachable Sample.collation Sample.db Sample.as_bob
            2025 st) as Hreach
    by (apply rtc_once, (@MatriculasManager.step_fetchAlunos Sample.collation)).
  assert (NoDup (Aluno.id <$> alunos Sample.db)) as Hnd
    by (apply (bool_decide_unpack _); vm_compute; exact I).
  assert (Sample.tito ∈ alunos Sample.db) as Hin
    by (apply list_elem_of_further, list_elem_of_here).
  assert (Aluno.status Sample.tito ≠ ATIVO) as Hst by discriminate.
  assert (Aluno.id Sample.tito ≠ "") as Hid by discriminate.
  split; [exact Hreach|]. split; [exact Hnd|]. split; [exact Hin|].
  split; [exact Hst|]. split; [exact Hid|]. split; [vm_compute; reflexivity|].
  exact (proj1 (proj2 (proj2 (@inactive_students_not_offered Sample.collation
                                Sample.db Sample.as_bob 2025 st Hreach))
                  Hnd Sample.tito Hin Hst Hid)).
Defined.

(** * Further properties of the store *)

(** ** [has_role] *)

Lemma has_role_true db u r :
  has_role db u r = true ↔
  ∃ row, row ∈ user_roles db ∧ u = Some (UserRole.user_id row)
         ∧ UserRole.role row = r.
Proof.
  unfold has_role. rewrite existsb_exists. split.
  - intros (row & Hin & Hrow). apply andb_true_iff in Hrow as [Hu Hr].
    apply bool_decide_eq_true in Hu, Hr.
    exists row. by rewrite <- list_elem_of_In in Hin.
  - intros (row & Hin & -> & <-). exists row.
    rewrite <- list_elem_of_In. split; [done|].
    by rewrite !bool_decide_eq_true_2.
Qed.

(** X1. Granting a role is what makes [has_role] true: after an insert
    into [user_roles] that went through, the user of the new row holds its
    role, whoever held a role still holds it, and nobody else gained one;
    a request without a subject holds no role. *)
Theorem granted_role_is_held (srv : Server) (s : Session) (v : user_role_values)
    (db db' : Db) :
  exec srv s (insert_into_user_roles v) db = Ok db' →
  has_role db' (Some (uv_user_id v)) (uv_role v) = true
  ∧ (∀ u r, has_role db' u r = true ↔
            has_role db u r = true
            ∨ (u = Some (uv_user_id v) ∧ r = uv_role v))
  ∧ ∀ r, has_role db' None r = false.
Proof.
  intros Hex. simpl in Hex.
  destruct (insert_row _ _ _ _ _) as [rows|] eqn:Hins; simpl in Hex; [|done].
  injection Hex as <-. unfold insert_row in Hins.
  destruct (check_ok _ _ _ _ _); [|done].
  assert (rows = user_roles db ++ [user_role_row srv v]) as ->.
  { unfold insert_as_owner in Hins. destruct (row_error _ _ _); [done|].
    destruct (fk_error _ _ _); [done|]. by injection Hins as <-. }
  assert (∀ u r, has_role (set_user_roles (user_roles db ++ [user_role_row srv v]) db)
                   u r = true ↔
                 has_role db u r = true
                 ∨ (u = Some (uv_user_id v) ∧ r = uv_role v)) as Hiff.
  { intros u r. rewrite !has_role_true. simpl. split.
    - intros (row & [Hrow|Hrow]%elem_of_app & Hu & Hr).
      + left. by exists row.
      + apply list_elem_of_singleton in Hrow as ->. by right.
    - intros [(row & Hrow & Hu & Hr)|[-> ->]].
      + exists row. split; [|done]. apply elem_of_app. by left.
      + exists (user_role_row srv v). split; [|done].
        apply elem_of_app. right. apply list_elem_of_here. }
  split; [apply Hiff; by right|]. split; [done|].
  intros r. apply not_true_iff_false. rewrite has_role_true.
  by intros (row & _ & ? & _).
Qed.

Lemma granted_role_is_held_witness :
  let v := {| uv_user_id := Sample.bob; uv_role := admin |} in
  ∃ db', exec Sample.srv Sample.as_ana (insert_into_user_roles v) Sample.db = Ok db'
    ∧ has_role db' (Some Sample.bob) admin = true.
Proof.
  intros v.
  set (db' := commit Sample.db
                (exec Sample.srv Sample.as_ana (insert_into_user_roles v)
                   Sample.db)).
  assert (exec Sample.srv Sample.as_ana (insert_into_user_roles v) Sample.db
          = Ok db') as Hex by (vm_compute; reflexivity).
  exists db'. split; [exact Hex|].
  exact (proj1 (granted_role_is_held Sample.srv Sample.as_ana v Sample.db db' Hex)).
Defined.

(** ** Reading *)

Lemma filter_const {A} (f : A → bool) (b : bool) (l : list A) :
  (∀ x, f x = b) → filter (λ x, f x) l = if b then l else [].
Proof.
  intros Hf. destruct b.
  - apply filter_all. intros x _. by rewrite Hf.
  - by apply filter_none.
Qed.

(** X2. Courses, students and enrollments are read in full by every
    session of the [authenticated] role and by every admin, and not at all
    by anyone else; a role assignment is read by the user it belongs to and
    by admins only. *)
Theorem who_reads_what (db : Db) (s : Session) :
  let all := bool_decide (db_role s = authenticated)
             || has_role db (auth_uid s) admin in
  visible cursos_def db s (cursos db) = (if all then cursos db else [])
  ∧ visible alunos_def db s (alunos db) = (if all then alunos db else [])
  ∧ visible matriculas_def db s (matriculas db)
    = (if all then matriculas db else [])
  ∧ ∀ r, r ∈ visible user_roles_def db s (user_roles db) ↔
         r ∈ user_roles db
         ∧ (auth_uid s = Some (UserRole.user_id r)
            ∨ has_role db (auth_uid s) admin = true).
Proof.
  intros all. unfold visible.
  split; [|split; [|split]].
  1-3: apply filter_const; intros r; subst all; unfold using_ok, applies; simpl;
    by destruct (db_role s), (has_role db (auth_uid s) admin).
  intros r. unfold visible. rewrite list_elem_of_filter.
  unfold using_ok. simpl. rewrite orb_false_r, Is_true_true, orb_true_iff.
  rewrite uid_is_spec. tauto.
Qed.

(** ** The outcome of an insert *)

Lemma find_none_iff {A} (f : A → bool) (l : list A) :
  List.find f l = None ↔ ∀ x, x ∈ l → f x = false.
Proof.
  induction l as [|y l IH]; simpl.
  - split; [|done]. intros _ x Hx. by apply not_elem_of_nil in Hx.
  - destruct (f y) eqn:Hy.
    + split; [done|]. intros Hall. rewrite Hall in Hy; [done|left].
    + rewrite IH. split.
      * intros Hall x [->|Hx]%elem_of_cons; [done|by apply Hall].
      * intros Hall x Hx. apply Hall. by right.
Qed.

Lemma existsb_false_iff {A} (f : A → bool) (l : list A) :
  existsb f l = false ↔ ∀ x, x ∈ l → f x = false.
Proof.
  induction l as [|y l IH]; simpl.
  - split; [|done]. intros _ x Hx. by apply not_elem_of_nil in Hx.
  - rewrite orb_false_iff, IH. split.
    + intros [Hy Hall] x [->|Hx]%elem_of_cons; [done|by apply Hall].
    + intros Hall. split; [apply Hall; left|]. intros x Hx. apply Hall. by right.
Qed.

Lemma find_some_elem {A} (f : A → bool) (l : list A) x :
  List.find f l = Some x → x ∈ l ∧ f x = true.
Proof. intros [Hin Hf]%find_some. by rewrite list_elem_of_In. Qed.

Section InsertOutcome.
Context {R : Type} (td : table_def R).

(** An insert gets past the constraints exactly when the new row passes
    every CHECK, collides with no stored row on any unique constraint and
    references existing rows; the table then grows by that row, at its
    end. *)
Lemma insert_as_owner_Ok_iff db new rows rows' :
  insert_as_owner td db new rows = Ok rows' ↔
    rows' = rows ++ [new]
    ∧ (∀ c, c ∈ td_checks td → ck_holds c new = true)
    ∧ (∀ u r, u ∈ td_uniques td → r ∈ rows → uq_same u new r = false)
    ∧ (∀ f, f ∈ td_foreign_keys td → fk_holds f db new = true).
Proof.
  unfold insert_as_owner, row_error, fk_error.
  destruct (List.find _ (td_checks td)) as [c|] eqn:Hck.
  { apply find_some_elem in Hck as [Hc Hfail]. split; [done|].
    intros (_ & Hall & _). apply Hall in Hc. by rewrite Hc in Hfail. }
  destruct (List.find _ (td_uniques td)) as [u|] eqn:Huq.
  { apply find_some_elem in Huq as [Hu Hhit]. split; [done|].
    intros (_ & _ & Hall & _). apply existsb_exists in Hhit as (r & Hr & Hsame).
    apply list_elem_of_In in Hr. by rewrite (Hall u r Hu Hr) in Hsame. }
  destruct (List.find _ (td_foreign_keys td)) as [f|] eqn:Hfk.
  { apply find_some_elem in Hfk as [Hf Hfail]. split; [done|].
    intros (_ & _ & _ & Hall). apply Hall in Hf. by rewrite Hf in Hfail. }
  pose proof (proj1 (find_none_iff _ _) Hck) as Hck'.
  pose proof (proj1 (find_none_iff _ _) Huq) as Huq'.
  pose proof (proj1 (find_none_iff _ _) Hfk) as Hfk'. split.
  - intros [= <-]. split; [done|]. split; [|split].
    + intros c Hc. apply Hck' in Hc. by apply negb_false_iff in Hc.
    + intros u r Hu Hr. apply Huq' in Hu.
      by apply (proj1 (existsb_false_iff _ _) Hu).
    + intros f Hf. apply Hfk' in Hf. by apply negb_false_iff in Hf.
  - by intros (-> & _).
Qed.

(** The error of an insert names a constraint of the table that the new
    row violates. *)
Lemma insert_as_owner_Err db new rows e :
  insert_as_owner td db new rows = Err e →
  (∃ c, c ∈ td_checks td ∧ ck_holds c new = false
        ∧ e = check_violation (ck_name c))
  ∨ (∃ u r, u ∈ td_uniques td ∧ r ∈ rows ∧ uq_same u new r = true
            ∧ e = unique_violation (uq_name u))
  ∨ (∃ f, f ∈ td_foreign_keys td ∧ fk_holds f db new = false
          ∧ e = foreign_key_violation (fk_name f)).
Proof.
  unfold insert_as_owner, row_error, fk_error.
  destruct (List.find _ (td_checks td)) as [c|] eqn:Hck.
  { apply find_some_elem in Hck as [Hc Hfail]. intros [= <-]. left.
    exists c. by apply negb_true_iff in Hfail. }
  destruct (List.find _ (td_uniques td)) as [u|] eqn:Huq.
  { apply find_some_elem in Huq as [Hu Hhit]. intros [= <-]. right. left.
    apply existsb_exists in Hhit as (r & Hr & Hsame).
    apply list_elem_of_In in Hr. by exists u, r. }
  destruct (List.find _ (td_foreign_keys td)) as [f|] eqn:Hfk; [|done].
  apply find_some_elem in Hfk as [Hf Hfail]. intros [= <-]. right. right.
  exists f. by apply negb_true_iff in Hfail.
Qed.
End InsertOutcome.

Lemma admin_passes_check db s :
  has_role db (auth_uid s) admin = true →
  (∀ r, check_ok user_roles_policies db s INSERT r = true)
  ∧ (∀ r, check_ok cursos_policies db s INSERT r = true)
  ∧ (∀ r, check_ok alunos_policies db s INSERT r = true)
  ∧ (∀ r, check_ok matriculas_policies db s INSERT r = true).
Proof.
  intros Ha. unfold check_ok, with_check. simpl. rewrite Ha.
  repeat split; intros; by rewrite ?orb_true_r.
Qed.

(** X3. An admin's insert of a course whose name and code are texts and
    whose duration is an [INTEGER] goes through exactly when no stored
    course has the generated id, the same name or the same code; the table
    then ends with the new course, stamped with the server time.  When a
    stored course has the name or the code, the insert fails with a
    uniqueness violation.  A duration outside [INTEGER] is not a value the
    statement can carry: the store refuses it when it converts the
    request. *)
Theorem course_insert_outcome (srv : Server) (s : Session) (v : curso_values)
    (db : Db) :
  has_role db (auth_uid s) admin = true →
  curso_values_typed v = true →
  (∀ db', exec srv s (insert_into_cursos v) db = Ok db' ↔
     db' = set_cursos (cursos db ++ [curso_row srv v]) db
     ∧ ∀ c, c ∈ cursos db →
            Curso.id c ≠ gen_random_uuid srv
            ∧ Curso.nome c ≠ cv_nome v
            ∧ Curso.codigo_curso c ≠ cv_codigo_curso v)
  ∧ (∀ c, c ∈ cursos db →
          Curso.nome c = cv_nome v ∨ Curso.codigo_curso c = cv_codigo_curso v →
          ∃ name, exec srv s (insert_into_cursos v) db
                  = Err (unique_violation name)).
Proof.
  intros Ha _.
  assert (exec srv s (insert_into_cursos v) db
          = rows ← insert_as_owner cursos_def db (curso_row srv v) (cursos db);
            Ok (set_cursos rows db)) as Hexec.
  { simpl. unfold insert_row. change (td_policies cursos_def) with cursos_policies.
    by rewrite (proj1 (proj2 (admin_passes_check db s Ha))). }
  assert (∀ db', exec srv s (insert_into_cursos v) db = Ok db' ↔
     db' = set_cursos (cursos db ++ [curso_row srv v]) db
     ∧ ∀ c, c ∈ cursos db →
            Curso.id c ≠ gen_random_uuid srv
            ∧ Curso.nome c ≠ cv_nome v
            ∧ Curso.codigo_curso c ≠ cv_codigo_curso v) as Hiff.
  { intros db'. rewrite Hexec. split.
    - destruct (insert_as_owner _ _ _ _) as [rows|e] eqn:Hins; [|done].
      intros [= <-]. apply insert_as_owner_Ok_iff in Hins as (-> & _ & Huq & _).
      split; [done|]. intros c Hc.
      pose proof (Huq _ c ltac:(apply list_elem_of_here) Hc) as H0.
      pose proof (Huq _ c ltac:(apply list_elem_of_further, list_elem_of_here)
                    Hc) as H1.
      pose proof (Huq _ c ltac:(do 2 apply list_elem_of_further;
                                apply list_elem_of_here) Hc) as H2.
      simpl in H0, H1, H2. unfold eq_uuid in H0.
      apply bool_decide_eq_false in H0, H1, H2. repeat split; congruence.
    - intros [-> Hfresh].
      destruct (insert_as_owner _ _ _ _) as [rows|e] eqn:Hins.
      + by apply insert_as_owner_Ok_iff in Hins as (-> & _).
      + exfalso.
        assert (insert_as_owner cursos_def db (curso_row srv v) (cursos db)
                = Ok (cursos db ++ [curso_row srv v])) as Hok; [|congruence].
        apply insert_as_owner_Ok_iff. split; [done|].
        split; [intros c Hc; by apply not_elem_of_nil in Hc|].
        split; [|intros f Hf; by apply not_elem_of_nil in Hf].
        intros u c Hu Hc. destruct (Hfresh c Hc) as (Hid & Hnome & Hcod).
        repeat (apply elem_of_cons in Hu as [->|Hu]);
          [..|by apply not_elem_of_nil in Hu]; simpl; unfold eq_uuid;
          by rewrite bool_decide_eq_false_2. }
  split; [done|]. intros c Hc Hdup.
  destruct (exec srv s (insert_into_cursos v) db) as [db'|e] eqn:Hres.
  { destruct (proj1 (Hiff db') eq_refl) as [_ Hfresh].
    destruct (Hfresh c Hc) as (_ & ? & ?). by destruct Hdup. }
  destruct (insert_as_owner cursos_def db (curso_row srv v) (cursos db))
    as [rows|e'] eqn:Hins; [done|].
  injection Hexec as ->.
  apply insert_as_owner_Err in Hins
    as [(ck & Hck & _)|[(u & r & _ & _ & _ & ->)|(f & Hf & _)]].
  - by apply not_elem_of_nil in Hck.
  - by eexists.
  - by apply not_elem_of_nil in Hf.
Qed.

Lemma course_insert_outcome_witness :
  let v := {| cv_nome := "Direito"; cv_codigo_curso := "ENG-SW";
              cv_duracao_semestres := 10 |} in
  has_role Sample.db (auth_uid Sample.as_ana) admin = true
  ∧ curso_values_typed v = true
  ∧ ∃ name, exec Sample.srv Sample.as_ana (insert_into_cursos v) Sample.db
            = Err (unique_violation name).
Proof.
  intros v. split; [reflexivity|]. split; [reflexivity|].
  apply (proj2 (course_insert_outcome Sample.srv Sample.as_ana v Sample.db
                  eq_refl eq_refl) Sample.es);
    [apply list_elem_of_here | by right].
Defined.

Lemma bind_insert_Ok_iff {R} (td : table_def R) db new rows0
    (setter : list R → Db) db' :
  (rows ← insert_as_owner td db new rows0; Ok (setter rows)) = Ok db' ↔
    db' = setter (rows0 ++ [new])
    ∧ Forall (λ c, ck_holds c new = true) (td_checks td)
    ∧ Forall (λ u, ∀ r, r ∈ rows0 → uq_same u new r = false) (td_uniques td)
    ∧ Forall (λ f, fk_holds f db new = true) (td_foreign_keys td).
Proof.
  rewrite !Forall_forall.
  destruct (insert_as_owner td db new rows0) as [rows|e] eqn:Hins; simpl.
  - apply insert_as_owner_Ok_iff in Hins as (-> & Hck & Huq & Hfk).
    split; [intros [= <-]|intros [-> _]]; [|done].
    split; [done|]. split; [done|]. split; [|done]. intros u Hu r Hr. by apply Huq.
  - split; [done|]. intros (_ & Hck & Huq & Hfk).
    assert (insert_as_owner td db new rows0 = Ok (rows0 ++ [new])) as Hok;
      [|congruence].
    apply insert_as_owner_Ok_iff. split; [done|]. split; [done|].
    split; [|done]. intros u r Hu Hr. by apply Huq.
Qed.

(** X4. An admin's insert of an enrollment whose two ids are [UUID]s and
    whose year and term are [INTEGER]s goes through exactly when the term
    is 1 or 2, no stored enrollment has the generated id or the same
    (student, course) pair, and the student and the course exist; the table
    then ends with the new enrollment.  A term other than 1 and 2 is
    refused by the CHECK constraint, before any other constraint is looked
    at; an otherwise acceptable enrollment of a student or in a course that
    does not exist is refused with a foreign-key violation.  An id that is
    not a [UUID], such as the empty text of the form with nothing picked,
    and a number outside [INTEGER] are not values the statement can carry:
    the store refuses them when it converts the request. *)
Theorem enrollment_insert_outcome (srv : Server) (s : Session)
    (v : matricula_values) (db : Db) :
  has_role db (auth_uid s) admin = true →
  matricula_values_typed v = true →
  let fresh :=
    ∀ m, m ∈ matriculas db →
         Matricula.id m ≠ gen_random_uuid srv
         ∧ ¬ (Matricula.aluno_id m = mv_aluno_id v
              ∧ Matricula.curso_id m = mv_curso_id v) in
  (∀ db', exec srv s (insert_into_matriculas v) db = Ok db' ↔
     db' = set_matriculas (matriculas db ++ [matricula_row srv v]) db
     ∧ mv_semestre_ingresso v ∈ [1%Z; 2%Z]
     ∧ fresh
     ∧ mv_aluno_id v ∈ Aluno.id <$> alunos db
     ∧ mv_curso_id v ∈ Curso.id <$> cursos db)
  ∧ (mv_semestre_ingresso v ∉ [1%Z; 2%Z] →
     exec srv s (insert_into_matriculas v) db
     = Err (check_violation "matriculas_semestre_ingresso_check"))
  ∧ (mv_semestre_ingresso v ∈ [1%Z; 2%Z] → fresh →
     mv_aluno_id v ∉ Aluno.id <$> alunos db
     ∨ mv_curso_id v ∉ Curso.id <$> cursos db →
     ∃ name, exec srv s (insert_into_matriculas v) db
             = Err (foreign_key_violation name)).
Proof.
  intros Ha _ fresh.
  assert (exec srv s (insert_into_matriculas v) db
          = rows ← insert_as_owner matriculas_def db (matricula_row srv v)
                     (matriculas db);
            Ok (set_matriculas rows db)) as Hexec.
  { simpl. unfold insert_row.
    change (td_policies matriculas_def) with matriculas_policies.
    by rewrite (proj2 (proj2 (proj2 (admin_passes_check db s Ha)))). }
  assert ((∀ m, m ∈ matriculas db →
             eq_uuid (gen_random_uuid srv) (Matricula.id m) = false)
          ∧ (∀ m, m ∈ matriculas db →
               eq_uuid (mv_aluno_id v) (Matricula.aluno_id m)
               && eq_uuid (mv_curso_id v) (Matricula.curso_id m) = false)
          ↔ fresh) as Hfresh.
  { subst fresh. unfold eq_uuid. split.
    - intros [Hid Hpair] m Hm. specialize (Hid m Hm). specialize (Hpair m Hm).
      apply bool_decide_eq_false in Hid. split; [congruence|].
      intros [Hal Hcu]. by rewrite Hal, Hcu, !bool_decide_eq_true_2 in Hpair.
    - intros Hfr. split; intros m Hm; destruct (Hfr m Hm) as [Hid Hpair].
      + by rewrite bool_decide_eq_false_2.
      + apply andb_false_iff.
        destruct (decide (mv_aluno_id v = Matricula.aluno_id m)) as [Hal|Hal];
          [|left; by rewrite bool_decide_eq_false_2].
        right. rewrite bool_decide_eq_false_2; [done|]. intros Hcu.
        by apply Hpair. }
  assert (∀ db', exec srv s (insert_into_matriculas v) db = Ok db' ↔
     db' = set_matriculas (matriculas db ++ [matricula_row srv v]) db
     ∧ mv_semestre_ingresso v ∈ [1%Z; 2%Z]
     ∧ fresh
     ∧ mv_aluno_id v ∈ Aluno.id <$> alunos db
     ∧ mv_curso_id v ∈ Curso.id <$> cursos db) as Hiff.
  { intros db'. rewrite Hexec, bind_insert_Ok_iff. simpl.
    rewrite !Forall_cons, !Forall_nil. simpl.
    rewrite !bool_decide_eq_true, <- Hfresh. tauto. }
  split; [done|]. split.
  - intros Hsem. rewrite Hexec. unfold insert_as_owner, row_error. simpl.
    by rewrite bool_decide_eq_false_2.
  - intros Hsem Hfr Hmissing.
    destruct (exec srv s (insert_into_matriculas v) db) as [db'|e] eqn:Hres.
    { destruct (proj1 (Hiff db') eq_refl) as (_ & _ & _ & ? & ?).
      by destruct Hmissing. }
    destruct (insert_as_owner matriculas_def db (matricula_row srv v)
                (matriculas db)) as [rows|e'] eqn:Hins; [done|].
    injection Hexec as ->. apply Hfresh in Hfr as [Hid Hpair].
    apply insert_as_owner_Err in Hins
      as [(ck & Hck & Hfail & _)|[(u & r & Hu & Hr & Hsame & _)|(f & _ & _ & ->)]].
    + apply list_elem_of_singleton in Hck as ->. simpl in Hfail.
      by rewrite bool_decide_eq_true_2 in Hfail.
    + simpl in Hu. repeat (apply elem_of_cons in Hu as [->|Hu]);
        [..|by apply not_elem_of_nil in Hu]; simpl in Hsame.
      * by rewrite (Hid r Hr) in Hsame.
      * by rewrite (Hpair r Hr) in Hsame.
    + by eexists.
Qed.

Lemma enrollment_insert_outcome_witness :
  let v := {| mv_aluno_id := Aluno.id Sample.tito;
              mv_curso_id := Curso.id Sample.es;
              mv_ano_ingresso := 2026; mv_semestre_ingresso := 1 |} in
  has_role Sample.db (auth_uid Sample.as_ana) admin = true
  ∧ matricula_values_typed v = true
  ∧ exec Sample.srv Sample.as_ana (insert_into_matriculas v) Sample.db
    = Ok (set_matriculas (matriculas Sample.db ++ [matricula_row Sample.srv v])
            Sample.db).
Proof.
  intros v. split; [reflexivity|]. split; [reflexivity|].
  apply (proj1 (enrollment_insert_outcome Sample.srv Sample.as_ana v Sample.db
                  eq_refl eq_refl)).
  split; [reflexivity|]. split; [apply list_elem_of_here|]. split.
  - intros m Hm. apply list_elem_of_singleton in Hm as ->.
    split; [discriminate|]. intros [Hal _]. discriminate.
  - split; [apply list_elem_of_further, list_elem_of_here
           | apply list_elem_of_here].
Defined.

(** X5. An admin's insert of a student whose birth date is a [DATE] and
    whose other columns are texts goes through exactly when no stored
    student has the generated id, the same matricula, the same cpf or the
    same e-mail; the table then ends with the new student.  The store
    checks none of the formats the form checks: whatever the shape of the
    texts, name, matricula, cpf, e-mail, telephone and status are stored as
    given.  A birth date that is not a [DATE], such as the empty text, is
    not a value the statement can carry: the store refuses it when it
    converts the request. *)
Theorem student_insert_outcome (srv : Server) (s : Session) (v : aluno_values)
    (db : Db) (db' : Db) :
  has_role db (auth_uid s) admin = true →
  aluno_values_typed v = true →
  exec srv s (insert_into_alunos v) db = Ok db' ↔
    db' = set_alunos (alunos db ++ [aluno_row srv v]) db
    ∧ ∀ a, a ∈ alunos db →
           Aluno.id a ≠ gen_random_uuid srv
           ∧ Aluno.matricula a ≠ av_matricula v
           ∧ Aluno.cpf a ≠ av_cpf v
           ∧ Aluno.email a ≠ av_email v.
Proof.
  intros Ha _.
  assert (exec srv s (insert_into_alunos v) db
          = rows ← insert_as_owner alunos_def db (aluno_row srv v) (alunos db);
            Ok (set_alunos rows db)) as ->.
  { simpl. unfold insert_row. change (td_policies alunos_def) with alunos_policies.
    by rewrite (proj1 (proj2 (proj2 (admin_passes_check db s Ha)))). }
  rewrite bind_insert_Ok_iff. simpl. rewrite !Forall_cons, !Forall_nil. simpl.
  unfold eq_uuid. split.
  - intros (-> & _ & (H0 & H1 & H2 & H3 & _) & _). split; [done|]. intros a Hin.
    specialize (H0 a Hin). specialize (H1 a Hin). specialize (H2 a Hin).
    specialize (H3 a Hin). apply bool_decide_eq_false in H0, H1, H2, H3.
    repeat split; congruence.
  - intros [-> Hfresh]. split; [done|]. split; [done|]. split; [|done].
    repeat split; intros a Hin; destruct (Hfresh a Hin) as (? & ? & ? & ?);
      by rewrite bool_decide_eq_false_2.
Qed.

Lemma student_insert_outcome_witness :
  let v := {| av_nome_completo := ""; av_matricula := "sem formato";
              av_cpf := "0"; av_email := "x";
              av_data_nascimento := "2004-02-29";
              av_telefone := Some ""; av_status := FORMADO |} in
  has_role Sample.db (auth_uid Sample.as_ana) admin = true
  ∧ aluno_values_typed v = true
  ∧ exec Sample.srv Sample.as_ana (insert_into_alunos v) Sample.db
    = Ok (set_alunos (alunos Sample.db ++ [aluno_row Sample.srv v]) Sample.db).
Proof.
  intros v. split; [reflexivity|]. split; [reflexivity|].
  apply (student_insert_outcome Sample.srv Sample.as_ana v Sample.db _ eq_refl
           eq_refl).
  split; [reflexivity|]. intros a Hin.
  repeat (apply elem_of_cons in Hin as [->|Hin]);
    [..|by apply not_elem_of_nil in Hin]; repeat split; discriminate.
Defined.

(** X6. An admin's insert of a role assignment goes through exactly when
    the user has a profile and no stored assignment has the generated id
    or gives the same role to the same user: a user holds each role at most
    once, and may hold both. *)
Theorem role_insert_outcome (srv : Server) (s : Session) (v : user_role_values)
    (db : Db) (db' : Db) :
  has_role db (auth_uid s) admin = true →
  exec srv s (insert_into_user_roles v) db = Ok db' ↔
    db' = set_user_roles (user_roles db ++ [user_role_row srv v]) db
    ∧ (∀ r, r ∈ user_roles db →
            UserRole.id r ≠ gen_random_uuid srv
            ∧ ¬ (UserRole.user_id r = uv_user_id v ∧ UserRole.role r = uv_role v))
    ∧ uv_user_id v ∈ Profile.id <$> profiles db.
Proof.
  intros Ha.
  assert (exec srv s (insert_into_user_roles v) db
          = rows ← insert_as_owner user_roles_def db (user_role_row srv v)
                     (user_roles db);
            Ok (set_user_roles rows db)) as ->.
  { simpl. unfold insert_row.
    change (td_policies user_roles_def) with user_roles_policies.
    by rewrite (proj1 (admin_passes_check db s Ha)). }
  rewrite bind_insert_Ok_iff. simpl. rewrite !Forall_cons, !Forall_nil. simpl.
  unfold eq_uuid. rewrite bool_decide_eq_true. split.
  - intros (-> & _ & (H0 & H1 & _) & Hfk & _). split; [done|]. split; [|done].
    intros r Hin. specialize (H0 r Hin). specialize (H1 r Hin).
    apply bool_decide_eq_false in H0. split; [congruence|].
    intros [Hu Hr]. by rewrite Hu, Hr, !bool_decide_eq_true_2 in H1.
  - intros (-> & Hfresh & Hfk). split; [done|]. split; [done|].
    split; [|done]. repeat split; intros r Hin; destruct (Hfresh r Hin) as [Hid Hp].
    + by rewrite bool_decide_eq_false_2.
    + apply andb_false_iff.
      destruct (decide (uv_user_id v = UserRole.user_id r)) as [Hu|Hu];
        [|left; by rewrite bool_decide_eq_false_2].
      right. rewrite bool_decide_eq_false_2; [done|]. intros Hr. by apply Hp.
Qed.

Lemma role_insert_outcome_witness :
  let v := {| uv_user_id := Sample.bob; uv_role := admin |} in
  has_role Sample.db (auth_uid Sample.as_ana) admin = true
  ∧ exec Sample.srv Sample.as_ana (insert_into_user_roles v) Sample.db
    = Ok (set_user_roles (user_roles Sample.db ++ [user_role_row Sample.srv v])
            Sample.db).
Proof.
  intros v. split; [reflexivity|].
  apply (role_insert_outcome Sample.srv Sample.as_ana v Sample.db _ eq_refl).
  split; [reflexivity|]. split.
  - intros r Hin.
    repeat (apply elem_of_cons in Hin as [->|Hin]);
      [..|by apply not_elem_of_nil in Hin];
      (split; [discriminate|]); intros [Hu Hr]; discriminate.
  - apply list_elem_of_further, list_elem_of_here.
Defined.

(** * Constraints in every state *)

(** ** Rows that do not collide *)

Lemma forallb_elem {A} (f : A → bool) (l : list A) :
  forallb f l = true ↔ ∀ x, x ∈ l → f x = true.
Proof. rewrite forallb_forall. by setoid_rewrite list_elem_of_In. Qed.

Section Distinct.
Context {R : Type} (same : R → R → bool).

Lemma distinct_on_cons r rows :
  distinct_on same (r :: rows) = true ↔
    (∀ r', r' ∈ rows → same r r' = false) ∧ distinct_on same rows = true.
Proof.
  simpl. rewrite andb_true_iff, forallb_elem.
  by setoid_rewrite negb_true_iff.
Qed.

Lemma distinct_on_filter (P : R → Prop) `{∀ r, Decision (P r)} rows :
  distinct_on same rows = true → distinct_on same (filter P rows) = true.
Proof.
  induction rows as [|r rows IH]; [done|].
  intros [Hr Hrows]%distinct_on_cons. rewrite filter_cons.
  case_decide; [|by apply IH]. apply distinct_on_cons. split; [|by apply IH].
  intros r' [_ Hr']%list_elem_of_filter. by apply Hr.
Qed.

Lemma distinct_on_snoc rows new :
  distinct_on same rows = true →
  (∀ r, r ∈ rows → same r new = false) →
  distinct_on same (rows ++ [new]) = true.
Proof.
  induction rows as [|r rows IH]; [done|].
  intros [Hr Hrows]%distinct_on_cons Hnew. simpl. apply distinct_on_cons. split.
  - intros r' [Hr'|Hr']%elem_of_app; [by apply Hr|].
    apply list_elem_of_singleton in Hr' as ->. apply Hnew. left.
  - apply IH; [done|]. intros r' Hr'. apply Hnew. by right.
Qed.

Hypothesis symmetric : ∀ a b, same a b = same b a.

Lemma distinct_on_lookup rows i j a b :
  distinct_on same rows = true →
  rows !! i = Some a → rows !! j = Some b → i ≠ j → same a b = false.
Proof using symmetric.
  revert i j. induction rows as [|r rows IH]; intros i j; [done|].
  intros [Hr Hrows]%distinct_on_cons Ha Hb Hij.
  destruct i as [|i], j as [|j]; simpl in Ha, Hb; [done|..].
  - injection Ha as ->. apply Hr. by eapply list_elem_of_lookup_2.
  - injection Hb as ->. rewrite symmetric. apply Hr.
    by eapply list_elem_of_lookup_2.
  - apply (IH i j); [done..|]. congruence.
Qed.

Lemma lookup_distinct_on rows :
  (∀ i j a b, rows !! i = Some a → rows !! j = Some b → i ≠ j →
              same a b = false) →
  distinct_on same rows = true.
Proof.
  induction rows as [|r rows IH]; [done|]. intros Hall.
  apply distinct_on_cons. split.
  - intros r' [k Hk]%list_elem_of_lookup_1. by apply (Hall 0 (S k)).
  - apply IH. intros i j a b Ha Hb Hij. apply (Hall (S i) (S j)); [done..|].
    congruence.
Qed.
End Distinct.

(** Two hits at different places make a filter keep at least two rows. *)
Lemma two_hits {A} (f : A → bool) (l : list A) i j a b :
  l !! i = Some a → l !! j = Some b → i ≠ j → f a = true → f b = true →
  1 < length (filter (λ x, f x) l).
Proof.
  assert (∀ (l : list A) x, x ∈ l → f x = true →
            0 < length (filter (λ x, f x) l)) as Hone.
  { intros l' x Hx Hf.
    assert (x ∈ filter (λ x, f x) l') as Hin
      by (apply list_elem_of_filter; by rewrite Hf).
    destruct (filter _ l'); [by apply not_elem_of_nil in Hin|simpl; lia]. }
  revert i j. induction l as [|x l IH]; intros i j Ha Hb Hij Hfa Hfb; [done|].
  rewrite filter_cons.
  destruct i as [|i], j as [|j]; simpl in Ha, Hb; [done|..].
  - injection Ha as ->. rewrite Hfa. simpl.
    apply list_elem_of_lookup_2 in Hb. specialize (Hone l b Hb Hfb). lia.
  - injection Hb as ->. rewrite Hfb. simpl.
    apply list_elem_of_lookup_2 in Ha. specialize (Hone l a Ha Hfa). lia.
  - assert (1 < length (filter (λ x, f x) l)) as Hl
      by (apply (IH i j); [done..|congruence|done|done]).
    case_decide; simpl; lia.
Qed.

(** ** What a statement that went through has checked *)

Lemma first_error_None {A} (f : A → option sqlstate) (l : list A) :
  first_error f l = None ↔ ∀ x, x ∈ l → f x = None.
Proof.
  induction l as [|y l IH]; simpl.
  - split; [|done]. intros _ x Hx. by apply not_elem_of_nil in Hx.
  - destruct (f y) eqn:Hy.
    + split; [done|]. intros Hall. rewrite Hall in Hy; [done|left].
    + rewrite IH. split.
      * intros Hall x [->|Hx]%elem_of_cons; [done|by apply Hall].
      * intros Hall x Hx. apply Hall. by right.
Qed.

Section Checked.
Context {R : Type} (td : table_def R).

Lemma row_error_None conflict new :
  row_error td conflict new = None →
  (∀ c, c ∈ td_checks td → ck_holds c new = true)
  ∧ (∀ u, u ∈ td_uniques td → conflict u new = false).
Proof.
  unfold row_error.
  destruct (List.find _ (td_checks td)) eqn:Hck; [done|].
  destruct (List.find _ (td_uniques td)) eqn:Huq; [done|]. intros _.
  pose proof (proj1 (find_none_iff _ _) Hck) as Hck'.
  pose proof (proj1 (find_none_iff _ _) Huq) as Huq'.
  split; [|done]. intros c Hc. apply Hck' in Hc. by apply negb_false_iff in Hc.
Qed.

Lemma fk_error_None db new :
  fk_error td db new = None →
  ∀ f, f ∈ td_foreign_keys td → fk_holds f db new = true.
Proof.
  unfold fk_error. destruct (List.find _ _) eqn:Hfk; [done|]. intros _ f Hf.
  apply (proj1 (find_none_iff _ _) Hfk) in Hf. by apply negb_false_iff in Hf.
Qed.

Lemma insert_row_Ok db s new rows rows' :
  insert_row td db s new rows = Ok rows' →
  insert_as_owner td db new rows = Ok rows'.
Proof. unfold insert_row. by destruct (check_ok _ _ _ _ _). Qed.

(** The rows of an update that went through: each is an old row the
    statement did not reach, or the image of one it reached, and every
    image passed the checks, collides with no other row left in the table
    and references existing rows. *)
Lemma update_rows_checked srv db s where_ set rows rows' :
  update_rows td srv db s where_ set rows = Ok rows' →
  let hit := targeted td db s UPDATE where_ in
  let new := λ r, td_before_update td srv (set r) in
  rows' = (λ r, if hit r then new r else r) <$> rows
  ∧ ∀ r, r ∈ rows → hit r = true →
      (∀ c, c ∈ td_checks td → ck_holds c (new r) = true)
      ∧ (∀ u, u ∈ td_uniques td →
              ¬ 1 < length (filter (λ x, uq_same u (new r) x) rows'))
      ∧ (∀ f, f ∈ td_foreign_keys td → fk_holds f db (new r) = true).
Proof.
  intros Hup hit new. pose proof (update_rows_Ok _ _ _ _ _ _ _ _ Hup) as Hrows.
  split; [done|]. intros r Hr Hhit. unfold update_rows in Hup.
  destruct (forallb _ _); [|done].
  destruct (first_error _ _) eqn:Hrow; [done|].
  destruct (first_error (fk_error td db) _) eqn:Hfk; [done|].
  assert (new r ∈ new <$> filter (λ r, hit r) rows) as Hnew.
  { apply list_elem_of_fmap. exists r. split; [done|].
    apply list_elem_of_filter. by rewrite Hhit. }
  apply (proj1 (first_error_None _ _) Hrow) in Hnew as Hrow'.
  apply (proj1 (first_error_None _ _) Hfk) in Hnew as Hfk'.
  apply row_error_None in Hrow' as [Hck Huq]. split; [done|]. split.
  - intros u Hu. specialize (Huq u Hu). apply bool_decide_eq_false in Huq.
    by rewrite Hrows.
  - by apply fk_error_None.
Qed.

Hypothesis uniques_key_like : ∀ u, u ∈ td_uniques td → key_like (uq_same u).

Lemma insert_as_owner_keeps_unique db new rows rows' :
  insert_as_owner td db new rows = Ok rows' →
  unique_ok td rows = true → unique_ok td rows' = true.
Proof using uniques_key_like.
  intros (-> & _ & Huq & _)%insert_as_owner_Ok_iff. unfold unique_ok.
  rewrite !forallb_elem. intros Hrows u Hu. apply distinct_on_snoc; [by apply Hrows|].
  intros r Hr. destruct (uniques_key_like u Hu) as [_ Hsym].
  rewrite Hsym. by apply Huq.
Qed.

Lemma update_rows_keeps_unique srv db s where_ set rows rows' :
  update_rows td srv db s where_ set rows = Ok rows' →
  unique_ok td rows = true → unique_ok td rows' = true.
Proof using uniques_key_like.
  intros [Hrows Hnew]%update_rows_checked. unfold unique_ok.
  rewrite !forallb_elem. intros Hold u Hu.
  destruct (uniques_key_like u Hu) as [Hrefl Hsym].
  apply lookup_distinct_on. intros i j a b Ha Hb Hij.
  destruct (uq_same u a b) eqn:Hsame; [exfalso|done].
  pose proof Ha as Ha'. pose proof Hb as Hb'.
  rewrite Hrows, list_lookup_fmap in Ha', Hb'.
  destruct (rows !! i) as [a0|] eqn:Ha0; [|done].
  destruct (rows !! j) as [b0|] eqn:Hb0; [|done].
  simpl in Ha', Hb'. injection Ha' as Ha'. injection Hb' as Hb'.
  destruct (targeted td db s UPDATE where_ a0) eqn:Hhita.
  { destruct (Hnew a0 (list_elem_of_lookup_2 _ _ _ Ha0) Hhita) as (_ & Huq & _).
    apply (Huq u Hu). rewrite Ha'.
    by apply (two_hits (uq_same u a) rows' i j a b). }
  destruct (targeted td db s UPDATE where_ b0) eqn:Hhitb.
  { destruct (Hnew b0 (list_elem_of_lookup_2 _ _ _ Hb0) Hhitb) as (_ & Huq & _).
    apply (Huq u Hu). rewrite Hb'.
    apply (two_hits (uq_same u b) rows' i j a b); [done..| |done].
    by rewrite Hsym. }
  subst a b.
  by rewrite (distinct_on_lookup (uq_same u) Hsym rows i j a0 b0 (Hold u Hu)
                Ha0 Hb0 Hij) in Hsame.
Qed.

Lemma kept_rows_keeps_unique db s where_ rows :
  unique_ok td rows = true → unique_ok td (kept_rows td db s where_ rows) = true.
Proof.
  unfold unique_ok, kept_rows. rewrite !forallb_elem. intros Hold u Hu.
  by apply distinct_on_filter, Hold.
Qed.
End Checked.

(** ** Unique keys *)

Ltac solve_key_like :=
  let Hu := fresh "Hu" in
  intros ? Hu; simpl in Hu;
  repeat (apply elem_of_cons in Hu as [->|Hu]);
  [..|by apply not_elem_of_nil in Hu];
  (split; simpl; unfold eq_uuid; intros;
   [by rewrite ?bool_decide_eq_true_2
   |repeat f_equal; apply bool_decide_ext; split; congruence]).

Lemma profiles_key_like u : u ∈ td_uniques profiles_def → key_like (uq_same u).
Proof. revert u. solve_key_like. Qed.
Lemma user_roles_key_like u : u ∈ td_uniques user_roles_def → key_like (uq_same u).
Proof. revert u. solve_key_like. Qed.
Lemma cursos_key_like u : u ∈ td_uniques cursos_def → key_like (uq_same u).
Proof. revert u. solve_key_like. Qed.
Lemma alunos_key_like u : u ∈ td_uniques alunos_def → key_like (uq_same u).
Proof. revert u. solve_key_like. Qed.
Lemma matriculas_key_like u : u ∈ td_uniques matriculas_def → key_like (uq_same u).
Proof. revert u. solve_key_like. Qed.

Lemma unique_ok_filter {R} (td : table_def R) (P : R → Prop)
    `{∀ r, Decision (P r)} rows :
  unique_ok td rows = true → unique_ok td (filter P rows) = true.
Proof.
  unfold unique_ok. rewrite !forallb_elem. intros Hold u Hu.
  by apply distinct_on_filter, Hold.
Qed.

Lemma unique_keys_split db :
  unique_keys db = true ↔
    distinct_on (λ a b, eq_uuid (AuthUser.id a) (AuthUser.id b)) (auth_users db)
    = true
    ∧ unique_ok profiles_def (profiles db) = true
    ∧ unique_ok user_roles_def (user_roles db) = true
    ∧ unique_ok cursos_def (cursos db) = true
    ∧ unique_ok alunos_def (alunos db) = true
    ∧ unique_ok matriculas_def (matriculas db) = true.
Proof. unfold unique_keys. rewrite !andb_true_iff. tauto. Qed.

Lemma exec_keeps_unique_keys srv s st db db' :
  unique_keys db = true → exec srv s st db = Ok db' → unique_keys db' = true.
Proof.
  intros (Hau & Hp & Hur & Hc & Ha & Hm)%unique_keys_split Hex.
  apply unique_keys_split. destruct st; simpl in Hex.
  - by destruct (profile_row srv v).
  - destruct (update_rows _ _ _ _ _ _ _) as [rows|] eqn:Hup; simpl in Hex; [|done].
    destruct (no_orphans _ _ _ _); simpl in Hex; [|done].
    injection Hex as <-. simpl. repeat split; try done.
    by apply (update_rows_keeps_unique _ profiles_key_like) in Hup.
  - injection Hex as <-. simpl. repeat split; try done.
    + by apply kept_rows_keeps_unique.
    + by apply unique_ok_filter.
  - destruct (insert_row _ _ _ _ _) as [rows|] eqn:Hins; simpl in Hex; [|done].
    injection Hex as <-. simpl. repeat split; try done.
    apply insert_row_Ok in Hins.
    by apply (insert_as_owner_keeps_unique _ user_roles_key_like) in Hins.
  - destruct (update_rows _ _ _ _ _ _ _) as [rows|] eqn:Hup; simpl in Hex; [|done].
    injection Hex as <-. simpl. repeat split; try done.
    by apply (update_rows_keeps_unique _ user_roles_key_like) in Hup.
  - injection Hex as <-. simpl. repeat split; try done.
    by apply kept_rows_keeps_unique.
  - destruct (insert_row _ _ _ _ _) as [rows|] eqn:Hins; simpl in Hex; [|done].
    injection Hex as <-. simpl. repeat split; try done.
    apply insert_row_Ok in Hins.
    by apply (insert_as_owner_keeps_unique _ cursos_key_like) in Hins.
  - destruct (update_rows _ _ _ _ _ _ _) as [rows|] eqn:Hup; simpl in Hex; [|done].
    destruct (no_orphans _ _ _ _); simpl in Hex; [|done].
    injection Hex as <-. simpl. repeat split; try done.
    by apply (update_rows_keeps_unique _ cursos_key_like) in Hup.
  - injection Hex as <-. simpl. repeat split; try done.
    + by apply kept_rows_keeps_unique.
    + by apply unique_ok_filter.
  - destruct (insert_row _ _ _ _ _) as [rows|] eqn:Hins; simpl in Hex; [|done].
    injection Hex as <-. simpl. repeat split; try done.
    apply insert_row_Ok in Hins.
    by apply (insert_as_owner_keeps_unique _ alunos_key_like) in Hins.
  - destruct (update_rows _ _ _ _ _ _ _) as [rows|] eqn:Hup; simpl in Hex; [|done].
    destruct (no_orphans _ _ _ _); simpl in Hex; [|done].
    injection Hex as <-. simpl. repeat split; try done.
    by apply (update_rows_keeps_unique _ alunos_key_like) in Hup.
  - injection Hex as <-. simpl. repeat split; try done.
    + by apply kept_rows_keeps_unique.
    + by apply unique_ok_filter.
  - destruct (insert_row _ _ _ _ _) as [rows|] eqn:Hins; simpl in Hex; [|done].
    injection Hex as <-. simpl. repeat split; try done.
    apply insert_row_Ok in Hins.
    by apply (insert_as_owner_keeps_unique _ matriculas_key_like) in Hins.
  - destruct (update_rows _ _ _ _ _ _ _) as [rows|] eqn:Hup; simpl in Hex; [|done].
    injection Hex as <-. simpl. repeat split; try done.
    by apply (update_rows_keeps_unique _ matriculas_key_like) in Hup.
  - injection Hex as <-. simpl. repeat split; try done.
    by apply kept_rows_keeps_unique.
Qed.

Lemma sign_up_keeps_unique_keys srv NEW db db' :
  unique_keys db = true → insert_into_auth_users srv NEW db = Ok db' →
  unique_keys db' = true.
Proof.
  intros (Hau & Hp & Hur & Hc & Ha & Hm)%unique_keys_split.
  unfold insert_into_auth_users. case_bool_decide as Hid; [done|].
  unfold handle_new_user. destruct (profile_row _ _) as [new|]; simpl; [|done].
  destruct (insert_as_owner _ _ _ _) as [rows|] eqn:Hins; simpl; [|done].
  intros [= <-]. apply unique_keys_split. simpl. repeat split; try done.
  - apply distinct_on_snoc; [done|]. intros r Hr. unfold eq_uuid.
    apply bool_decide_eq_false_2. intros Heq. apply Hid. rewrite <- Heq.
    apply list_elem_of_fmap. by exists r.
  - by apply (insert_as_owner_keeps_unique _ profiles_key_like) in Hins.
Qed.

(** ** References *)

Lemma forallb_const_true {A} (l : list A) : forallb (λ _, true) l = true.
Proof. by induction l. Qed.

Lemma referential_integrity_iff db :
  referential_integrity db = true ↔
    (∀ p, p ∈ profiles db → Profile.id p ∈ AuthUser.id <$> auth_users db)
    ∧ (∀ r, r ∈ user_roles db →
            UserRole.user_id r ∈ Profile.id <$> profiles db)
    ∧ (∀ m, m ∈ matriculas db →
            Matricula.aluno_id m ∈ Aluno.id <$> alunos db
            ∧ Matricula.curso_id m ∈ Curso.id <$> cursos db).
Proof.
  unfold referential_integrity, fks_ok. simpl.
  rewrite !forallb_const_true, !andb_true_r, !andb_true_iff, !forallb_elem.
  setoid_rewrite andb_true_r. setoid_rewrite andb_true_iff.
  setoid_rewrite bool_decide_eq_true. tauto.
Qed.

Lemma orphaned_false old_keys final_keys child_refs k :
  orphaned old_keys final_keys child_refs = false →
  k ∈ old_keys → k ∈ child_refs → k ∈ final_keys.
Proof.
  unfold orphaned. rewrite existsb_false_iff. intros Hall Hold Hchild.
  specialize (Hall k Hold). rewrite bool_decide_eq_true_2 in Hall by done.
  simpl in Hall. apply negb_false_iff in Hall. by apply bool_decide_eq_true in Hall.
Qed.

Lemma no_orphans_Ok name old_keys final_keys child_refs :
  no_orphans name old_keys final_keys child_refs = Ok () →
  orphaned old_keys final_keys child_refs = false.
Proof. unfold no_orphans. by destruct (orphaned _ _ _). Qed.

(** A key that children reference is still a key after an update of the
    parents that left no orphan. *)
Lemma parent_update_keeps_key {R} (id : R → uuid) (hit : R → bool)
    (new : R → R) (rows : list R) child_refs k :
  orphaned (id <$> filter (λ r, hit r) rows)
    (id <$> ((λ r, if hit r then new r else r) <$> rows)) child_refs = false →
  k ∈ child_refs → k ∈ id <$> rows →
  k ∈ id <$> ((λ r, if hit r then new r else r) <$> rows).
Proof.
  intros Horph Hchild (r & -> & Hr)%list_elem_of_fmap.
  destruct (hit r) eqn:Hhit.
  - apply (orphaned_false _ _ _ _ Horph); [|done].
    apply list_elem_of_fmap. exists r. split; [done|].
    apply list_elem_of_filter. by rewrite Hhit.
  - apply list_elem_of_fmap. exists r. split; [done|].
    apply list_elem_of_fmap. exists r. by rewrite Hhit.
Qed.

(** A key of no deleted row is still a key after the delete. *)
Lemma parent_delete_keeps_key {R} (td : table_def R) db s where_
    (id : R → uuid) (rows : list R) k :
  k ∈ id <$> rows → k ∉ id <$> deleted_rows td db s where_ rows →
  k ∈ id <$> kept_rows td db s where_ rows.
Proof.
  intros (r & -> & Hr)%list_elem_of_fmap Hgone.
  apply list_elem_of_fmap. exists r. split; [done|].
  unfold kept_rows. apply list_elem_of_filter. split; [|done].
  destruct (targeted td db s DELETE where_ r) eqn:Hhit; [|done].
  exfalso. apply Hgone. apply list_elem_of_fmap. exists r. split; [done|].
  unfold deleted_rows. apply list_elem_of_filter. by rewrite Hhit.
Qed.

Lemma elem_of_kept_rows {R} (td : table_def R) db s where_ (rows : list R) r :
  r ∈ kept_rows td db s where_ rows → r ∈ rows.
Proof. unfold kept_rows. by intros [_ ?]%list_elem_of_filter. Qed.

Lemma elem_of_updated {R} (hit : R → bool) (new : R → R) (rows : list R) x :
  x ∈ (λ r, if hit r then new r else r) <$> rows →
  x ∈ rows ∨ ∃ r, r ∈ rows ∧ hit r = true ∧ x = new r.
Proof.
  intros (r & -> & Hr)%list_elem_of_fmap. destruct (hit r) eqn:Hhit; [|by left].
  right. by exists r.
Qed.

Lemma elem_of_fmap_snoc {A B} (f : A → B) (l : list A) (x : A) k :
  k ∈ f <$> l → k ∈ f <$> (l ++ [x]).
Proof. rewrite fmap_app, elem_of_app. by left. Qed.

Lemma exec_keeps_references srv s st db db' :
  referential_integrity db = true → exec srv s st db = Ok db' →
  referential_integrity db' = true.
Proof.
  intros (Hp & Hur & Hm)%referential_integrity_iff Hex.
  apply referential_integrity_iff. destruct st; simpl in Hex.
  - by destruct (profile_row srv v).
  - destruct (update_rows _ _ _ _ _ _ _) as [rows|] eqn:Hup; simpl in Hex; [|done].
    destruct (no_orphans _ _ _ _) as [[]|] eqn:Horph; simpl in Hex; [|done].
    injection Hex as <-. simpl. apply no_orphans_Ok in Horph.
    apply update_rows_checked in Hup as [Hrows Hnew]. split; [|split; [|done]].
    + intros p Hin. rewrite Hrows in Hin.
      apply elem_of_updated in Hin as [Hin|(r & Hr & Hhit & ->)]; [by apply Hp|].
      destruct (Hnew r Hr Hhit) as (_ & _ & Hfk).
      specialize (Hfk _ ltac:(apply list_elem_of_here)).
      by apply bool_decide_eq_true in Hfk.
    + intros r Hr. rewrite Hrows in Horph |- *.
      apply (parent_update_keeps_key Profile.id _ _ _ _ _ Horph); [|by apply Hur].
      apply list_elem_of_fmap. by exists r.
  - injection Hex as <-. simpl. split; [|split; [|done]].
    + intros p Hin%elem_of_kept_rows. by apply Hp.
    + intros r [Hgone Hr]%list_elem_of_filter.
      apply parent_delete_keeps_key; [by apply Hur|done].
  - destruct (insert_row _ _ _ _ _) as [rows|] eqn:Hins; simpl in Hex; [|done].
    injection Hex as <-. simpl.
    apply insert_row_Ok, insert_as_owner_Ok_iff in Hins as (-> & _ & _ & Hfk).
    split; [done|]. split; [|done].
    intros r [Hr|Hr]%elem_of_app; [by apply Hur|].
    apply list_elem_of_singleton in Hr as ->.
    specialize (Hfk _ ltac:(apply list_elem_of_here)).
    by apply bool_decide_eq_true in Hfk.
  - destruct (update_rows _ _ _ _ _ _ _) as [rows|] eqn:Hup; simpl in Hex; [|done].
    injection Hex as <-. simpl.
    apply update_rows_checked in Hup as [Hrows Hnew]. split; [done|]. split; [|done].
    intros x Hin. rewrite Hrows in Hin.
    apply elem_of_updated in Hin as [Hin|(r & Hr & Hhit & ->)]; [by apply Hur|].
    destruct (Hnew r Hr Hhit) as (_ & _ & Hfk).
    specialize (Hfk _ ltac:(apply list_elem_of_here)).
    by apply bool_decide_eq_true in Hfk.
  - injection Hex as <-. simpl. split; [done|]. split; [|done].
    intros r Hin%elem_of_kept_rows. by apply Hur.
  - destruct (insert_row _ _ _ _ _) as [rows|] eqn:Hins; simpl in Hex; [|done].
    injection Hex as <-. simpl.
    apply insert_row_Ok, insert_as_owner_Ok_iff in Hins as (-> & _).
    split; [done|]. split; [done|]. intros m Hin. destruct (Hm m Hin).
    split; [done|]. by apply elem_of_fmap_snoc.
  - destruct (update_rows _ _ _ _ _ _ _) as [rows|] eqn:Hup; simpl in Hex; [|done].
    destruct (no_orphans _ _ _ _) as [[]|] eqn:Horph; simpl in Hex; [|done].
    injection Hex as <-. simpl. apply no_orphans_Ok in Horph.
    apply update_rows_checked in Hup as [Hrows _]. split; [done|]. split; [done|].
    intros m Hin. destruct (Hm m Hin) as [Hal Hcu]. split; [done|].
    rewrite Hrows in Horph |- *.
    apply (parent_update_keeps_key Curso.id _ _ _ _ _ Horph); [|done].
    apply list_elem_of_fmap. by exists m.
  - injection Hex as <-. simpl. split; [done|]. split; [done|].
    intros m [Hgone Hin]%list_elem_of_filter. destruct (Hm m Hin) as [Hal Hcu].
    split; [done|]. by apply parent_delete_keeps_key.
  - destruct (insert_row _ _ _ _ _) as [rows|] eqn:Hins; simpl in Hex; [|done].
    injection Hex as <-. simpl.
    apply insert_row_Ok, insert_as_owner_Ok_iff in Hins as (-> & _).
    split; [done|]. split; [done|]. intros m Hin. destruct (Hm m Hin).
    split; [|done]. by apply elem_of_fmap_snoc.
  - destruct (update_rows _ _ _ _ _ _ _) as [rows|] eqn:Hup; simpl in Hex; [|done].
    destruct (no_orphans _ _ _ _) as [[]|] eqn:Horph; simpl in Hex; [|done].
    injection Hex as <-. simpl. apply no_orphans_Ok in Horph.
    apply update_rows_checked in Hup as [Hrows _]. split; [done|]. split; [done|].
    intros m Hin. destruct (Hm m Hin) as [Hal Hcu]. split; [|done].
    rewrite Hrows in Horph |- *.
    apply (parent_update_keeps_key Aluno.id _ _ _ _ _ Horph); [|done].
    apply list_elem_of_fmap. by exists m.
  - injection Hex as <-. simpl. split; [done|]. split; [done|].
    intros m [Hgone Hin]%list_elem_of_filter. destruct (Hm m Hin) as [Hal Hcu].
    split; [|done]. by apply parent_delete_keeps_key.
  - destruct (insert_row _ _ _ _ _) as [rows|] eqn:Hins; simpl in Hex; [|done].
    injection Hex as <-. simpl.
    apply insert_row_Ok, insert_as_owner_Ok_iff in Hins as (-> & _ & _ & Hfk).
    split; [done|]. split; [done|].
    intros m [Hin|Hin]%elem_of_app; [by apply Hm|].
    apply list_elem_of_singleton in Hin as ->.
    pose proof (Hfk _ ltac:(apply list_elem_of_here)) as Hal.
    pose proof (Hfk _ ltac:(apply list_elem_of_further, list_elem_of_here)) as Hcu.
    by apply bool_decide_eq_true in Hal, Hcu.
  - destruct (update_rows _ _ _ _ _ _ _) as [rows|] eqn:Hup; simpl in Hex; [|done].
    injection Hex as <-. simpl.
    apply update_rows_checked in Hup as [Hrows Hnew]. split; [done|]. split; [done|].
    intros x Hin. rewrite Hrows in Hin.
    apply elem_of_updated in Hin as [Hin|(r & Hr & Hhit & ->)]; [by apply Hm|].
    destruct (Hnew r Hr Hhit) as (_ & _ & Hfk).
    pose proof (Hfk _ ltac:(apply list_elem_of_here)) as Hal.
    pose proof (Hfk _ ltac:(apply list_elem_of_further, list_elem_of_here)) as Hcu.
    by apply bool_decide_eq_true in Hal, Hcu.
  - injection Hex as <-. simpl. split; [done|]. split; [done|].
    intros m Hin%elem_of_kept_rows. by apply Hm.
Qed.

Lemma sign_up_keeps_references srv NEW db db' :
  referential_integrity db = true → insert_into_auth_users srv NEW db = Ok db' →
  referential_integrity db' = true.
Proof.
  intros (Hp & Hur & Hm)%referential_integrity_iff.
  unfold insert_into_auth_users. case_bool_decide as Hid; [done|].
  unfold handle_new_user. destruct (profile_row _ _) as [new|]; simpl; [|done].
  destruct (insert_as_owner _ _ _ _) as [rows|] eqn:Hins; simpl; [|done].
  intros [= <-]. apply referential_integrity_iff. simpl.
  apply insert_as_owner_Ok_iff in Hins as (-> & _ & _ & Hfk).
  split; [|split; [|done]].
  - intros p [Hin|Hin]%elem_of_app; [by apply elem_of_fmap_snoc, Hp|].
    apply list_elem_of_singleton in Hin as ->.
    specialize (Hfk _ ltac:(apply list_elem_of_here)).
    by apply bool_decide_eq_true in Hfk.
  - intros r Hr. by apply elem_of_fmap_snoc, Hur.
Qed.

(** ** CHECK constraints *)

Lemma checks_hold_iff db :
  checks_hold db = true ↔
    ∀ m, m ∈ matriculas db → Matricula.semestre_ingresso m ∈ [1%Z; 2%Z].
Proof.
  unfold checks_hold, checks_ok. simpl.
  rewrite !forallb_const_true. simpl. rewrite forallb_elem.
  setoid_rewrite andb_true_r. by setoid_rewrite bool_decide_eq_true.
Qed.

Lemma exec_keeps_checks srv s st db db' :
  checks_hold db = true → exec srv s st db = Ok db' → checks_hold db' = true.
Proof.
  rewrite !checks_hold_iff. intros Hm Hex. destruct st; simpl in Hex;
    try (by destruct (profile_row srv v));
    try (destruct (insert_row _ _ _ _ _) as [rows|] eqn:Hins; simpl in Hex; [|done]);
    try (destruct (update_rows _ _ _ _ _ _ _) as [rows|] eqn:Hup;
         simpl in Hex; [|done]);
    try (destruct (no_orphans _ _ _ _) as [[]|]; simpl in Hex; [|done]);
    injection Hex as <-; simpl; try done.
  - intros m [_ Hin]%list_elem_of_filter. by apply Hm.
  - intros m [_ Hin]%list_elem_of_filter. by apply Hm.
  - apply insert_row_Ok, insert_as_owner_Ok_iff in Hins as (-> & Hck & _).
    intros m [Hin|Hin]%elem_of_app; [by apply Hm|].
    apply list_elem_of_singleton in Hin as ->.
    specialize (Hck _ ltac:(apply list_elem_of_here)).
    by apply bool_decide_eq_true in Hck.
  - apply update_rows_checked in Hup as [Hrows Hnew].
    intros x Hin. rewrite Hrows in Hin.
    apply elem_of_updated in Hin as [Hin|(r & Hr & Hhit & ->)]; [by apply Hm|].
    destruct (Hnew r Hr Hhit) as (Hck & _).
    specialize (Hck _ ltac:(apply list_elem_of_here)).
    by apply bool_decide_eq_true in Hck.
  - intros m Hin%elem_of_kept_rows. by apply Hm.
Qed.

Lemma sign_up_keeps_checks srv NEW db db' :
  checks_hold db = true → insert_into_auth_users srv NEW db = Ok db' →
  checks_hold db' = true.
Proof.
  rewrite !checks_hold_iff. intros Hm.
  unfold insert_into_auth_users. case_bool_decide; [done|].
  unfold handle_new_user. destruct (profile_row _ _) as [new|]; simpl; [|done].
  destruct (insert_as_owner _ _ _ _) as [rows|]; simpl; [|done].
  by intros [= <-].
Qed.

(** ** Runs *)

Lemma run_snoc ops op db :
  run (ops ++ [op]) db = commit (run ops db) (perform op (run ops db)).
Proof. unfold run. by rewrite foldl_app. Qed.

Lemma run_invariant (P : Db → Prop) :
  (∀ op db db', P db → perform op db = Ok db' → P db') →
  ∀ ops db, P db → P (run ops db).
Proof.
  intros Hstep ops db HP. induction ops as [|op ops IH] using rev_ind; [done|].
  rewrite run_snoc. destruct (perform op (run ops db)) as [db'|] eqn:Hop; [|done].
  by apply (Hstep op (run ops db)).
Qed.

(** X7. Whatever statements sessions send and whatever auth subjects are
    created, one after the other, each committed or rolled back: a
    database whose rows are distinct on every primary key and unique
    constraint stays so. *)
Theorem run_keeps_unique_keys (ops : list operation) (db : Db) :
  unique_keys db = true → unique_keys (run ops db) = true.
Proof.
  apply (run_invariant (λ db, unique_keys db = true)).
  intros [srv s st|srv NEW] d d' Hd Hop; simpl in Hop.
  - by apply (exec_keeps_unique_keys srv s st d).
  - by apply (sign_up_keeps_unique_keys srv NEW d).
Qed.

(** X8. Over any such run, a database in which every profile has its auth
    subject, every role assignment its profile and every enrollment its
    student and its course stays so: updates of keys and deletes leave no
    dangling reference. *)
Theorem run_keeps_references (ops : list operation) (db : Db) :
  referential_integrity db = true → referential_integrity (run ops db) = true.
Proof.
  apply (run_invariant (λ db, referential_integrity db = true)).
  intros [srv s st|srv NEW] d d' Hd Hop; simpl in Hop.
  - by apply (exec_keeps_references srv s st d).
  - by apply (sign_up_keeps_references srv NEW d).
Qed.

(** X9. Over any such run, if every stored enrollment has entry term 1 or
    2 then so has every enrollment stored afterwards. *)
Theorem run_keeps_terms (ops : list operation) (db : Db) :
  (∀ m, m ∈ matriculas db → Matricula.semestre_ingresso m ∈ [1%Z; 2%Z]) →
  ∀ m, m ∈ matriculas (run ops db) →
       Matricula.semestre_ingresso m ∈ [1%Z; 2%Z].
Proof.
  rewrite <- !checks_hold_iff.
  apply (run_invariant (λ db, checks_hold db = true)).
  intros [srv s st|srv NEW] d d' Hd Hop; simpl in Hop.
  - by apply (exec_keeps_checks srv s st d).
  - by apply (sign_up_keeps_checks srv NEW d).
Qed.

Lemma run_keeps_unique_keys_witness :
  unique_keys Sample.db = true
  ∧ unique_keys (run Sample.busy_day Sample.db) = true.
Proof.
  assert (unique_keys Sample.db = true) as Hdb by (vm_compute; reflexivity).
  split; [exact Hdb|]. exact (run_keeps_unique_keys Sample.busy_day Sample.db Hdb).
Defined.

Lemma run_keeps_references_witness :
  referential_integrity Sample.db = true
  ∧ referential_integrity (run Sample.busy_day Sample.db) = true.
Proof.
  assert (referential_integrity Sample.db = true) as Hdb
    by (vm_compute; reflexivity).
  split; [exact Hdb|]. exact (run_keeps_references Sample.busy_day Sample.db Hdb).
Defined.

Lemma run_keeps_terms_witness :
  (∀ m, m ∈ matriculas Sample.db → Matricula.semestre_ingresso m ∈ [1%Z; 2%Z])
  ∧ ∀ m, m ∈ matriculas (run Sample.busy_day Sample.db) →
         Matricula.semestre_ingresso m ∈ [1%Z; 2%Z].
Proof.
  assert (∀ m, m ∈ matriculas Sample.db →
               Matricula.semestre_ingresso m ∈ [1%Z; 2%Z]) as Hdb.
  { intros m Hm. apply list_elem_of_singleton in Hm. rewrite Hm.
    apply list_elem_of_here. }
  split; [exact Hdb|]. exact (run_keeps_terms Sample.busy_day Sample.db Hdb).
Defined.

(** ** Becoming an admin *)

Lemma exec_without_admin srv s st db db' :
  no_admin db → exec srv s st db = Ok db' →
  ∀ r, r ∈ user_roles db' → r ∈ user_roles db.
Proof.
  intros Hna Hex. specialize (Hna (auth_uid s)).
  destruct st; simpl in Hex;
    try (by destruct (profile_row srv v));
    try (destruct (insert_row _ _ _ _ _) as [rows|] eqn:Hins; simpl in Hex; [|done]);
    try (destruct (update_rows _ _ _ _ _ _ _) as [rows|] eqn:Hup;
         simpl in Hex; [|done]);
    try (destruct (no_orphans _ _ _ _) as [[]|]; simpl in Hex; [|done]);
    injection Hex as <-; simpl; try done.
  - intros r [_ Hin]%list_elem_of_filter. done.
  - unfold insert_row in Hins.
    change (td_policies user_roles_def) with user_roles_policies in Hins.
    by rewrite (proj2 (user_roles_writes_need_admin db s Hna INSERT _
                         ltac:(done))) in Hins.
  - rewrite update_rows_untargeted in Hup; [by injection Hup as <-|].
    intros r. by apply user_roles_writes_need_admin.
  - intros r Hin%elem_of_kept_rows. done.
Qed.

(** X10. Where nobody holds the admin role, nothing that sessions send and
    no creation of an auth subject gives it to anybody: the role
    assignments after any run are among those before it.  The first admin
    has to be made with the privileges of the table owner. *)
Theorem nobody_becomes_admin (ops : list operation) (db : Db) :
  no_admin db →
  no_admin (run ops db)
  ∧ ∀ r, r ∈ user_roles (run ops db) → r ∈ user_roles db.
Proof.
  intros Hna.
  apply (run_invariant
           (λ d, no_admin d ∧ ∀ r, r ∈ user_roles d → r ∈ user_roles db));
    [|done].
  intros op d d' [Hd Hsub] Hop.
  assert (∀ r, r ∈ user_roles d' → r ∈ user_roles d) as Hstep.
  { destruct op as [srv s st|srv NEW]; simpl in Hop.
    - by apply (exec_without_admin srv s st d).
    - unfold insert_into_auth_users in Hop. case_bool_decide; [done|].
      unfold handle_new_user in Hop.
      destruct (profile_row _ _) as [new|]; simpl in Hop; [|done].
      destruct (insert_as_owner _ _ _ _) as [rows|]; simpl in Hop; [|done].
      by injection Hop as <-. }
  split; [|intros r Hr; by apply Hsub, Hstep].
  intros u. apply not_true_iff_false. intros (row & Hrow & -> & Hrole)%has_role_true.
  specialize (Hd (Some (UserRole.user_id row))).
  apply not_true_iff_false in Hd. apply Hd, has_role_true.
  exists row. split; [by apply Hstep|done].
Qed.

Lemma nobody_becomes_admin_witness :
  no_admin Sample.before_admins
  ∧ has_role (run Sample.self_promotion Sample.before_admins)
      (Some Sample.bob) admin = false.
Proof.
  assert (no_admin Sample.before_admins) as Hna.
  { intros u. apply not_true_iff_false.
    intros (row & Hrow & _ & Hrole)%has_role_true.
    apply list_elem_of_singleton in Hrow. by rewrite Hrow in Hrole. }
  split; [exact Hna|].
  exact (proj1 (nobody_becomes_admin Sample.self_promotion Sample.before_admins Hna)
           (Some Sample.bob)).
Defined.

(** * Further properties of provisioning and deletes *)

(** X11. The creation of an auth subject goes through exactly when its id
    is new to [auth.users] and to [profiles] and it has an e-mail that no
    profile has; the subject and its profile are then the last rows of
    their tables.  A new subject without e-mail is refused by the NOT NULL
    constraint of the profile, one with a profile's e-mail by its unique
    constraint; either way no subject is created. *)
Theorem sign_up_outcome (srv : Server) (NEW : AuthUser.row) (db : Db) :
  let name :=
    COALESCE (json_get_text (AuthUser.raw_user_meta_data NEW) "nome_completo")
      "Usuário" in
  let profile mail :=
    {| Profile.id := AuthUser.id NEW; Profile.nome_completo := name;
       Profile.email := mail; Profile.created_at := NOW srv;
       Profile.updated_at := NOW srv |} in
  (∀ db', insert_into_auth_users srv NEW db = Ok db' ↔
     ∃ mail, AuthUser.email NEW = Some mail
       ∧ (AuthUser.id NEW ∉ AuthUser.id <$> auth_users db)
       ∧ (AuthUser.id NEW ∉ Profile.id <$> profiles db)
       ∧ (mail ∉ Profile.email <$> profiles db)
       ∧ db' = set_profiles (profiles db ++ [profile mail])
                 (set_auth_users (auth_users db ++ [NEW]) db))
  ∧ ((AuthUser.id NEW ∉ AuthUser.id <$> auth_users db) →
     AuthUser.email NEW = None →
     insert_into_auth_users srv NEW db = Err (not_null_violation "email"))
  ∧ (∀ mail, (AuthUser.id NEW ∉ AuthUser.id <$> auth_users db) →
       (AuthUser.id NEW ∉ Profile.id <$> profiles db) →
       AuthUser.email NEW = Some mail →
       mail ∈ Profile.email <$> profiles db →
       insert_into_auth_users srv NEW db
       = Err (unique_violation "profiles_email_key")).
Proof.
  intros name profile.
  assert (∀ (f : Profile.row → string) k rows,
            existsb (λ b, bool_decide (k = f b)) rows = false ↔ k ∉ f <$> rows)
    as Hex.
  { intros f k rows. rewrite existsb_false_iff. split.
    - intros Hall (r & -> & Hr)%list_elem_of_fmap.
      specialize (Hall r Hr). by rewrite bool_decide_eq_true_2 in Hall.
    - intros Hnot r Hr. apply bool_decide_eq_false_2. intros ->.
      apply Hnot, list_elem_of_fmap. by exists r. }
  split; [|split].
  - intros db'. unfold insert_into_auth_users.
    case_bool_decide as Hid.
    { split; [done|]. by intros (mail & _ & Hfresh & _). }
    unfold handle_new_user, profile_row. simpl.
    destruct (AuthUser.email NEW) as [mail|]; simpl;
      [|split; [done|]; by intros (mail & ? & _)].
    fold name. fold (profile mail).
    rewrite bind_insert_Ok_iff. simpl. rewrite !Forall_cons, !Forall_nil.
    simpl. unfold eq_uuid.
    split.
    + intros (-> & _ & (Hpk & Hmail & _) & _). exists mail.
      repeat split; try done; by apply Hex, existsb_false_iff.
    + intros (mail' & [= <-] & _ & Hpk & Hmail & ->). split; [done|].
      split; [done|]. split.
      { split; [by apply existsb_false_iff, Hex|].
        split; [by apply existsb_false_iff, Hex|done]. }
      split; [|done]. apply bool_decide_eq_true. rewrite fmap_app.
      apply elem_of_app. right. apply list_elem_of_here.
  - intros Hid Hnull. unfold insert_into_auth_users.
    rewrite bool_decide_eq_false_2 by done.
    unfold handle_new_user, profile_row. simpl. by rewrite Hnull.
  - intros mail Hid Hpk Hmail Hdup. unfold insert_into_auth_users.
    rewrite bool_decide_eq_false_2 by done.
    unfold handle_new_user, profile_row. simpl. rewrite Hmail. simpl.
    destruct (insert_as_owner _ _ _ _) as [rows|e] eqn:Hins; simpl.
    + apply insert_as_owner_Ok_iff in Hins as (_ & _ & Huq & _). exfalso.
      apply list_elem_of_fmap in Hdup as (r & -> & Hr).
      specialize (Huq _ r ltac:(apply list_elem_of_further, list_elem_of_here)
                    Hr).
      simpl in Huq. by rewrite bool_decide_eq_true_2 in Huq.
    + apply insert_as_owner_Err in Hins
        as [(c & Hc & _)|[(u & r & Hu & Hr & Hsame & ->)|(f & Hf & Hfail & _)]].
      * by apply not_elem_of_nil in Hc.
      * simpl in Hu. repeat (apply elem_of_cons in Hu as [->|Hu]);
          [..|by apply not_elem_of_nil in Hu]; simpl in Hsame; [|done].
        exfalso. apply bool_decide_eq_true in Hsame. simpl in Hsame.
        apply Hpk. rewrite Hsame. apply list_elem_of_fmap. by exists r.
      * apply list_elem_of_singleton in Hf as ->. simpl in Hfail.
        apply bool_decide_eq_false in Hfail. exfalso. apply Hfail.
        rewrite fmap_app. apply elem_of_app. right. apply list_elem_of_here.
Qed.

Lemma sign_up_outcome_witness :
  let twin := {| AuthUser.id := "a0000000-0000-4000-8000-000000000004";
                 AuthUser.email := Some "bob@example.org";
                 AuthUser.raw_user_meta_data := None |} in
  (AuthUser.id twin ∉ AuthUser.id <$> auth_users Sample.db)
  ∧ insert_into_auth_users Sample.srv twin Sample.db
    = Err (unique_violation "profiles_email_key").
Proof.
  intros twin.
  assert (∀ k l, bool_decide (k ∈ l) = false → k ∉ (l : list string)) as Hnot
    by (intros k l; apply bool_decide_eq_false).
  assert ((AuthUser.id twin ∉ AuthUser.id <$> auth_users Sample.db)) as Hid
    by (apply Hnot; vm_compute; reflexivity).
  split; [exact Hid|].
  apply (proj2 (proj2 (sign_up_outcome Sample.srv twin Sample.db))
           "bob@example.org" Hid).
  - apply Hnot. vm_compute. reflexivity.
  - reflexivity.
  - apply list_elem_of_further, list_elem_of_here.
Defined.

Lemma admin_reaches_alunos db s c r :
  has_role db (auth_uid s) admin = true →
  c ≠ SELECT →
  using_ok alunos_policies db s c r = true.
Proof. intros Ha Hc. unfold using_ok. destruct c; simpl; by rewrite ?Ha. Qed.

(** X12. A delete of students sent by an admin never fails: it removes
    exactly the students its condition selects and, by cascade, exactly
    the enrollments of those students; every other student and enrollment,
    and every other table, stays. *)
Theorem delete_student_cascades (srv : Server) (s : Session)
    (where_ : Aluno.row → bool) (db : Db) :
  has_role db (auth_uid s) admin = true →
  ∃ db', exec srv s (delete_from_alunos where_) db = Ok db'
    ∧ (∀ a, a ∈ alunos db' ↔ a ∈ alunos db ∧ where_ a = false)
    ∧ (∀ m, m ∈ matriculas db' ↔
            m ∈ matriculas db
            ∧ ¬ ∃ a, a ∈ alunos db ∧ where_ a = true
                     ∧ Matricula.aluno_id m = Aluno.id a)
    ∧ auth_users db' = auth_users db ∧ profiles db' = profiles db
    ∧ user_roles db' = user_roles db ∧ cursos db' = cursos db.
Proof.
  intros Ha. eexists. split; [reflexivity|]. simpl.
  assert (∀ a, targeted alunos_def db s DELETE where_ a = where_ a) as Ht.
  { intros a. unfold targeted.
    change (td_policies alunos_def) with alunos_policies.
    rewrite admin_reaches_alunos by done. apply andb_true_r. }
  split; [|split; [|done]].
  - intros a. unfold kept_rows. rewrite list_elem_of_filter, Ht.
    destruct (where_ a); simpl; split; intros [? ?]; done.
  - intros m. rewrite list_elem_of_filter. unfold deleted_rows.
    rewrite list_elem_of_fmap. split.
    + intros [Hn Hm]. split; [done|]. intros (a & Hin & Hw & Heq).
      apply Hn. exists a. split; [done|].
      apply list_elem_of_filter. by rewrite Ht, Hw.
    + intros [Hm Hn]. split; [|done]. intros (a & Heq & Hin).
      apply list_elem_of_filter in Hin as [Hw Hin]. rewrite Ht in Hw.
      apply Hn. exists a. split; [done|]. split; [|done].
      by destruct (where_ a).
Qed.

Lemma delete_student_cascades_witness :
  has_role Sample.db (auth_uid Sample.as_ana) admin = true
  ∧ ∃ db', exec Sample.srv Sample.as_ana
             (delete_from_alunos (λ a, eq_uuid (Aluno.id a) (Aluno.id Sample.rita)))
             Sample.db = Ok db'
      ∧ ∀ m, m ∈ matriculas db' ↔
             m ∈ matriculas Sample.db
             ∧ ¬ ∃ a, a ∈ alunos Sample.db
                      ∧ eq_uuid (Aluno.id a) (Aluno.id Sample.rita) = true
                      ∧ Matricula.aluno_id m = Aluno.id a.
Proof.
  split; [reflexivity|].
  destruct (delete_student_cascades Sample.srv Sample.as_ana
              (λ a, eq_uuid (Aluno.id a) (Aluno.id Sample.rita)) Sample.db)
    as (db' & Hex & _ & Hm & _); [reflexivity|].
  exists db'. split; [exact Hex | exact Hm].
Defined.

(** ** Updates that keep the keys *)

Lemma length_filter_fmap_ext {A B} (f : B → bool) (h : A → bool) (g : A → B)
    (l : list A) :
  (∀ x, x ∈ l → f (g x) = h x) →
  length (filter (λ y, f y) (g <$> l)) = length (filter (λ x, h x) l).
Proof.
  induction l as [|x l IH]; intros Hext; [done|].
  rewrite fmap_cons, !filter_cons, (Hext x) by left.
  assert (∀ y, y ∈ l → f (g y) = h y) as Hl by (intros y Hy; apply Hext; by right).
  destruct (h x); simpl; by rewrite IH.
Qed.

Lemma filter_none_elem {A} (f : A → bool) (l : list A) :
  (∀ x, x ∈ l → f x = false) → filter (λ x, f x) l = [].
Proof.
  induction l as [|x l IH]; intros Hf; [done|].
  rewrite filter_cons, (Hf x) by left. simpl. apply IH.
  intros y Hy. apply Hf. by right.
Qed.

(** Among rows that do not collide, at most one collides with a given
    row. *)
Lemma distinct_on_count {R} (same : R → R → bool) (rows : list R) r :
  (∀ a b, same a b = same b a) →
  (∀ a b c, same a b = true → same b c = true → same a c = true) →
  distinct_on same rows = true →
  length (filter (λ x, same r x) rows) ≤ 1.
Proof.
  intros Hsym Htrans. induction rows as [|x rows IH]; [simpl; lia|].
  intros [Hx Hrows]%distinct_on_cons. rewrite filter_cons.
  destruct (same r x) eqn:Hrx; simpl; [|by apply IH].
  rewrite filter_none_elem; [simpl; lia|]. intros y Hy.
  destruct (same r y) eqn:Hry; [|done].
  rewrite <- (Hx y Hy). symmetry. apply (Htrans x r y); [|done]. by rewrite Hsym.
Qed.

Section KeepsKeys.
Context {R : Type} (td : table_def R).
Hypothesis uniques_key_like : ∀ u, u ∈ td_uniques td → key_like (uq_same u).
Hypothesis uniques_transitive :
  ∀ u a b c, u ∈ td_uniques td →
    uq_same u a b = true → uq_same u b c = true → uq_same u a c = true.

(** An update goes through when the table was free of collisions and the
    image of every row it reaches passes the policy check and the CHECK
    constraints, collides with exactly the rows the old row collided with,
    and references existing rows. *)
Lemma update_rows_succeeds srv db s where_ set rows :
  let hit := targeted td db s UPDATE where_ in
  let new := λ r, td_before_update td srv (set r) in
  unique_ok td rows = true →
  (∀ r, r ∈ rows → hit r = true →
     check_ok (td_policies td) db s UPDATE (new r) = true
     ∧ (∀ c, c ∈ td_checks td → ck_holds c (new r) = true)
     ∧ (∀ u x, u ∈ td_uniques td → uq_same u (new r) x = uq_same u r x)
     ∧ (∀ f, f ∈ td_foreign_keys td → fk_holds f db (new r) = true)) →
  update_rows td srv db s where_ set rows
  = Ok ((λ r, if hit r then new r else r) <$> rows).
Proof using uniques_key_like uniques_transitive.
  intros hit new Huniq Hnew. unfold update_rows. fold hit. fold new.
  assert (∀ n, n ∈ new <$> filter (λ r, hit r) rows →
               ∃ r, r ∈ rows ∧ hit r = true ∧ n = new r) as Hnews.
  { intros n (r & -> & Hr)%list_elem_of_fmap.
    apply list_elem_of_filter in Hr as [Hhit Hr].
    exists r. split; [done|]. split; [by destruct (hit r)|done]. }
  rewrite (proj2 (forallb_elem _ _)); cycle 1.
  { intros n (r & Hr & Hhit & ->)%Hnews. by destruct (Hnew r Hr Hhit). }
  rewrite (proj2 (first_error_None _ _)); cycle 1.
  { intros n (r & Hr & Hhit & ->)%Hnews.
    destruct (Hnew r Hr Hhit) as (_ & Hck & Hkeys & _). unfold row_error.
    rewrite (proj2 (find_none_iff _ _)); cycle 1.
    { intros c Hc. by rewrite Hck. }
    rewrite (proj2 (find_none_iff _ _)); [done|].
    intros u Hu. apply bool_decide_eq_false_2.
    destruct (uniques_key_like u Hu) as [_ Hsym].
    rewrite (length_filter_fmap_ext _ (λ x, uq_same u r x)).
    - pose proof (distinct_on_count (uq_same u) rows r Hsym
                    (λ a b c, uniques_transitive u a b c Hu)
                    (proj1 (forallb_elem _ _) Huniq u Hu)). lia.
    - intros x Hx. rewrite Hkeys by done. destruct (hit x) eqn:Hhitx; [|done].
      destruct (Hnew x Hx Hhitx) as (_ & _ & Hkeysx & _).
      by rewrite Hsym, Hkeysx, Hsym. }
  rewrite (proj2 (first_error_None _ _)); [done|].
  intros n (r & Hr & Hhit & ->)%Hnews.
  destruct (Hnew r Hr Hhit) as (_ & _ & _ & Hfk). unfold fk_error.
  rewrite (proj2 (find_none_iff _ _)); [done|]. intros f Hf. by rewrite Hfk.
Qed.
End KeepsKeys.

Lemma alunos_transitive u a b c :
  u ∈ td_uniques alunos_def →
  uq_same u a b = true → uq_same u b c = true → uq_same u a c = true.
Proof.
  intros Hu. simpl in Hu. repeat (apply elem_of_cons in Hu as [->|Hu]);
    [..|by apply not_elem_of_nil in Hu]; simpl; unfold eq_uuid;
    rewrite !bool_decide_eq_true; congruence.
Qed.

(** X13. The soft delete that [AlunosManager.handleDelete] requests, sent
    by an admin to a table free of key collisions, always goes through: it
    sets the status of the student with that id to INATIVO and stamps the
    row with the server time, leaves every other student and every
    enrollment as they were, and from then on the enrollment form no
    longer lists that student. *)
Theorem soft_delete_outcome `{Collation} (srv : Server) (s : Session) (db : Db)
    (id : uuid) :
  has_role db (auth_uid s) admin = true →
  unique_ok alunos_def (alunos db) = true →
  let db' :=
    set_alunos
      ((λ a, if eq_uuid (Aluno.id a) id
             then Aluno.with_updated_at (NOW srv) (with_status INATIVO a)
             else a) <$> alunos db) db in
  exec srv s (alunos_soft_delete id) db = Ok db'
  ∧ matriculas db' = matriculas db
  ∧ length (alunos db') = length (alunos db)
  ∧ ∀ item, item ∈ MatriculasManager.alunos_select_ativos db' s →
            MatriculasManager.id item ≠ id.
Proof.
  intros Ha Huniq db'.
  assert (∀ a, targeted alunos_def db s UPDATE (λ r, eq_uuid (Aluno.id r) id) a
               = eq_uuid (Aluno.id a) id) as Ht.
  { intros a. unfold targeted.
    change (td_policies alunos_def) with alunos_policies.
    rewrite admin_reaches_alunos by done. apply andb_true_r. }
  split; [|split; [done|split]].
  - unfold alunos_soft_delete. simpl.
    rewrite (update_rows_succeeds alunos_def alunos_key_like
               (λ u a b c Hu, alunos_transitive u a b c Hu)); [|done|]; cycle 1.
    { intros r Hr Hhit. split; [|split; [|split]].
      - unfold check_ok, with_check. simpl. by rewrite Ha.
      - intros c Hc. by apply not_elem_of_nil in Hc.
      - intros u x Hu. simpl in Hu.
        by repeat (apply elem_of_cons in Hu as [->|Hu]);
          [..|by apply not_elem_of_nil in Hu].
      - intros f Hf. by apply not_elem_of_nil in Hf. }
    simpl. unfold no_orphans.
    match goal with
    | |- context [orphaned ?a ?b ?c] => assert (orphaned a b c = false) as ->
    end.
    { unfold orphaned. apply existsb_false_iff.
      intros k (r & -> & Hr)%list_elem_of_fmap.
      apply list_elem_of_filter in Hr as [Hhit Hr].
      apply andb_false_iff. right. apply negb_false_iff, bool_decide_eq_true.
      apply list_elem_of_fmap.
      exists (Aluno.with_updated_at (NOW srv) (with_status INATIVO r)).
      split; [done|]. apply list_elem_of_fmap. exists r. split; [|done].
      by destruct (targeted alunos_def db s UPDATE _ r). }
    simpl. subst db'. f_equal. f_equal. apply list_fmap_ext.
    intros i a _. by rewrite Ht.
  - subst db'. simpl. by rewrite length_fmap.
  - intros item Hitem Heq.
    apply alunos_select_ativos_active in Hitem as (a & Hin & Hid & Hst).
    subst db'. simpl in Hin.
    apply list_elem_of_fmap in Hin as (x & -> & Hx).
    destruct (eq_uuid (Aluno.id x) id) eqn:Hx_id; [done|].
    apply bool_decide_eq_false in Hx_id. congruence.
Qed.

Lemma soft_delete_outcome_witness :
  has_role Sample.db (auth_uid Sample.as_ana) admin = true
  ∧ unique_ok alunos_def (alunos Sample.db) = true
  ∧ ∀ item,
      item ∈ @MatriculasManager.alunos_select_ativos Sample.collation
               (commit Sample.db
                  (exec Sample.srv Sample.as_ana
                     (alunos_soft_delete (Aluno.id Sample.rita)) Sample.db))
               Sample.as_ana →
      MatriculasManager.id item ≠ Aluno.id Sample.rita.
Proof.
  assert (unique_ok alunos_def (alunos Sample.db) = true) as Huniq
    by (vm_compute; reflexivity).
  split; [reflexivity|]. split; [exact Huniq|].
  destruct (@soft_delete_outcome Sample.collation Sample.srv Sample.as_ana
              Sample.db (Aluno.id Sample.rita) eq_refl Huniq)
    as (Hex & _ & _ & Hlist).
  rewrite Hex. exact Hlist.
Defined.

(** * Further properties of the components *)

(** ** Deletes that reach nothing *)

Lemma unreached_writes srv s db :
  has_role db (auth_uid s) admin = false →
  (∀ w, exec srv s (delete_from_cursos w) db = Ok db)
  ∧ (∀ w, exec srv s (delete_from_matriculas w) db = Ok db)
  ∧ (∀ w set, exec srv s (update_alunos w set) db = Ok db).
Proof.
  intros Hna. split; [|split].
  - intros w. simpl.
    assert (∀ r, using_ok (td_policies cursos_def) db s DELETE r = false) as Hno
      by (intros r; by apply cursos_writes_need_admin).
    rewrite deleted_rows_untargeted, kept_rows_untargeted by done. simpl.
    rewrite set_cursos_id, filter_all; [by rewrite set_matriculas_id|].
    intros m _. apply not_elem_of_nil.
  - intros w. simpl. rewrite kept_rows_untargeted; [by rewrite set_matriculas_id|].
    intros r. by apply matriculas_writes_need_admin.
  - intros w set. simpl.
    assert (∀ r, using_ok (td_policies alunos_def) db s UPDATE r = false) as Hno
      by (intros r; by apply alunos_writes_need_admin).
    rewrite update_rows_untargeted by done. simpl.
    rewrite filter_none by (intros r; by apply targeted_false).
    simpl. by rewrite set_alunos_id.
Qed.

(** X14. When someone who is not an admin gets to the delete handlers,
    the store changes nothing and answers without an error, and each
    handler tells the user that the course was deleted, the enrollment was
    deleted, the student was deactivated. *)
Theorem unreached_delete_reports_success (srv : Server) (s : Session) (db : Db)
    (id : uuid) (to_error : sqlstate → PostgrestError) :
  has_role db (auth_uid s) admin = false →
  let answer st := λ _ : request, reply_error to_error (exec srv s st db) in
  (commit db (exec srv s (cursos_delete id) db) = db
   ∧ CursosManager.handleDelete true id (answer (cursos_delete id))
     = [Sent (cursos_delete_eq_id id);
        Toasted (success "Curso excluído com sucesso!");
        Sent cursos_select_order_nome])
  ∧ (commit db (exec srv s (matriculas_delete id) db) = db
     ∧ MatriculasManager.handleDelete true id (answer (matriculas_delete id))
       = [Sent (matriculas_delete_eq_id id);
          Toasted (success "Matrícula excluída com sucesso!");
          Sent matriculas_select_order_ano])
  ∧ (commit db (exec srv s (alunos_soft_delete id) db) = db
     ∧ AlunosManager.handleDelete true id (answer (alunos_soft_delete id))
       = [Sent (alunos_update_status_INATIVO_eq_id id);
          Toasted (success "Aluno desativado com sucesso!");
          Sent alunos_select_order_nome]).
Proof.
  intros Hna answer. destruct (unreached_writes srv s db Hna) as (Hc & Hm & Ha).
  subst answer. unfold cursos_delete, matriculas_delete, alunos_soft_delete,
    CursosManager.handleDelete, MatriculasManager.handleDelete,
    AlunosManager.handleDelete.
  by rewrite Hc, Hm, Ha.
Qed.

Lemma unreached_delete_reports_success_witness :
  has_role Sample.db (auth_uid Sample.as_bob) admin = false
  ∧ CursosManager.handleDelete true (Curso.id Sample.es)
      (λ _, reply_error (λ _, {| message := "recusado"; instanceof_Error := true |})
              (exec Sample.srv Sample.as_bob (cursos_delete (Curso.id Sample.es))
                 Sample.db))
    = [Sent (cursos_delete_eq_id (Curso.id Sample.es));
       Toasted (success "Curso excluído com sucesso!");
       Sent cursos_select_order_nome].
Proof.
  split; [reflexivity|].
  exact (proj2 (proj1 (unreached_delete_reports_success Sample.srv Sample.as_bob
                         Sample.db (Curso.id Sample.es)
                         (λ _, {| message := "recusado";
                                  instanceof_Error := true |})
                         eq_refl))).
Defined.

(** ** The student form *)

Lemma issue_unless_nil ok path msg : issue_unless ok path msg = [] ↔ ok = true.
Proof. unfold issue_unless. by destruct ok. Qed.

Lemma alunoSchema_nil `{Zod} f :
  alunoSchema f = [] ↔
    3 ≤ String.length (AlunoForm.nome_completo f)
    ∧ regex_test matricula_regex (AlunoForm.matricula f) = true
    ∧ regex_test cpf_regex (AlunoForm.cpf f) = true
    ∧ z_is_email (AlunoForm.email f) = true.
Proof.
  unfold alunoSchema, z_string_min, z_string_regex, z_string_email.
  rewrite !app_nil, !issue_unless_nil, bool_decide_eq_true. tauto.
Qed.

(** X15. The student form sends its insert or update exactly when the
    name has at least 3 characters, the matricula and the cpf have their
    formats and the e-mail passes the library's test, and then sends it
    first and once.  Otherwise it sends nothing and shows one message, that
    of the first field at fault, in the order name, matricula, cpf,
    e-mail. *)
Theorem student_form_outcome `{Zod} (editingAluno : option Aluno.row)
    (f : AlunoForm.formData) (reply : request → option PostgrestError) :
  let name_ok := 3 ≤ String.length (AlunoForm.nome_completo f) in
  let matricula_ok := regex_test matricula_regex (AlunoForm.matricula f) = true in
  let cpf_ok := regex_test cpf_regex (AlunoForm.cpf f) = true in
  let email_ok := z_is_email (AlunoForm.email f) = true in
  let events := AlunosManager.handleSubmit editingAluno f reply in
  let req := match editingAluno with
             | Some a => alunos_update_eq_id f (Aluno.id a)
             | None => alunos_insert f
             end in
  let shows msg := events = [Toasted (failure "Erro de validação" msg)] in
  (name_ok ∧ matricula_ok ∧ cpf_ok ∧ email_ok →
   head events = Some (Sent req)
   ∧ ∀ r, Sent r ∈ events → r = req ∨ r = alunos_select_order_nome)
  ∧ (¬ name_ok → shows "Nome deve ter no mínimo 3 caracteres")
  ∧ (name_ok → ¬ matricula_ok → shows "Formato: AAAA-S-NNNN (ex: 2025-1-1234)")
  ∧ (name_ok → matricula_ok → ¬ cpf_ok → shows "Formato: XXX.XXX.XXX-XX")
  ∧ (name_ok → matricula_ok → cpf_ok → ¬ email_ok → shows "Email inválido").
Proof.
  intros name_ok matricula_ok cpf_ok email_ok events req shows.
  subst events shows. unfold AlunosManager.handleSubmit.
  split; [|unfold alunoSchema, z_string_min, z_string_regex, z_string_email;
           subst name_ok matricula_ok cpf_ok email_ok; repeat split].
  - intros Hvalid. apply alunoSchema_nil in Hvalid. rewrite Hvalid. subst req.
    destruct editingAluno as [a|]; (split; [done|]); intros r Hr;
      destruct (reply _) in Hr;
      repeat (apply elem_of_cons in Hr as [Hr|Hr]; [try discriminate; naive_solver|]);
      by apply not_elem_of_nil in Hr.
  - intros Hn. by rewrite bool_decide_eq_false_2.
  - intros Hn Hm. rewrite bool_decide_eq_true_2 by done.
    by destruct (regex_test matricula_regex _).
  - intros Hn -> Hc. rewrite bool_decide_eq_true_2 by done.
    by destruct (regex_test cpf_regex _).
  - intros Hn -> -> He. rewrite bool_decide_eq_true_2 by done.
    by destruct (z_is_email _).
Qed.

Lemma student_form_outcome_witness :
  let f := {| AlunoForm.nome_completo := "Rui Sá";
              AlunoForm.matricula := "2025-3-0001";
              AlunoForm.cpf := "sem cpf"; AlunoForm.email := "";
              AlunoForm.data_nascimento := ""; AlunoForm.telefone := "";
              AlunoForm.status := ATIVO |} in
  3 ≤ String.length (AlunoForm.nome_completo f)
  ∧ ¬ regex_test matricula_regex (AlunoForm.matricula f) = true
  ∧ @AlunosManager.handleSubmit Sample.zod None f (λ _, None)
    = [Toasted (failure "Erro de validação"
                  "Formato: AAAA-S-NNNN (ex: 2025-1-1234)")].
Proof.
  intros f.
  assert (3 ≤ String.length (AlunoForm.nome_completo f)) as Hn
    by (vm_compute; repeat constructor).
  assert (¬ regex_test matricula_regex (AlunoForm.matricula f) = true) as Hm
    by (vm_compute; discriminate).
  split; [exact Hn|]. split; [exact Hm|].
  exact (proj1 (proj2 (proj2 (@student_form_outcome Sample.zod None f (λ _, None))))
           Hn Hm).
Defined.

(** ** Formats *)

Lemma regex_test_length re s :
  regex_test re s = true → String.length s = length re.
Proof.
  revert s. induction re as [|a re IH]; intros [|c s]; simpl; try done.
  intros [_ Hs]%andb_true_iff. by rewrite (IH s).
Qed.

Lemma string_length_append s t :
  String.length (String.append s t) = String.length s + String.length t.
Proof. induction s as [|c s IH]; simpl; [done|]. by rewrite IH. Qed.

Lemma regex_test_chars re s c :
  regex_test re s = true → c ∈ String.list_ascii_of_string s →
  ∃ a, a ∈ re ∧ atom_matches a c = true.
Proof.
  revert s. induction re as [|a re IH]; intros [|c' s]; simpl; try done.
  - intros _ Hc. by apply not_elem_of_nil in Hc.
  - intros [Ha Hs]%andb_true_iff [->|Hc]%elem_of_cons.
    + exists a. split; [left|done].
    + destruct (IH s Hs Hc) as (a' & Ha' & Hm). exists a'. split; [by right|done].
Qed.

(** X16. What the two formats of the student form accept: a matricula has
    exactly 11 characters and a cpf exactly 14, each of them a digit or one
    of the separators of its format, and, the patterns being anchored at
    both ends, nothing can be appended to an accepted text. *)
Theorem formats_fix_length_and_characters (s t : string) :
  (regex_test matricula_regex s = true →
   String.length s = 11
   ∧ (∀ c, c ∈ String.list_ascii_of_string s → is_digit c = true ∨ c = "-"%char)
   ∧ (regex_test matricula_regex (String.append s t) = true → t = ""))
  ∧ (regex_test cpf_regex s = true →
     String.length s = 14
     ∧ (∀ c, c ∈ String.list_ascii_of_string s →
             is_digit c = true ∨ c = "."%char ∨ c = "-"%char)
     ∧ (regex_test cpf_regex (String.append s t) = true → t = "")).
Proof.
  assert (∀ u : string, String.length u = 0 → u = "") as Hempty
    by (by intros [|? ?]).
  split; intros Hs; pose proof (regex_test_length _ _ Hs) as Hlen;
    (split; [exact Hlen|split]).
  - intros c Hc. destruct (regex_test_chars _ _ c Hs Hc) as (a & Ha & Hm).
    simpl in Ha. repeat (apply elem_of_cons in Ha as [->|Ha]);
      [..|by apply not_elem_of_nil in Ha]; simpl in Hm;
      try (by left); try (apply bool_decide_eq_true in Hm; by right).
    apply bool_decide_eq_true in Hm. left.
    by repeat (apply elem_of_cons in Hm as [->|Hm]);
      [..|by apply not_elem_of_nil in Hm].
  - intros Hst%regex_test_length. rewrite string_length_append, Hlen in Hst.
    apply Hempty. simpl in Hst. lia.
  - intros c Hc. destruct (regex_test_chars _ _ c Hs Hc) as (a & Ha & Hm).
    simpl in Ha. repeat (apply elem_of_cons in Ha as [->|Ha]);
      [..|by apply not_elem_of_nil in Ha]; simpl in Hm;
      try (by left); apply bool_decide_eq_true in Hm; right;
      first [by left | by right].
  - intros Hst%regex_test_length. rewrite string_length_append, Hlen in Hst.
    apply Hempty. simpl in Hst. lia.
Qed.

Lemma formats_fix_length_and_characters_witness :
  regex_test matricula_regex "2025-1-1234" = true
  ∧ regex_test cpf_regex "111.222.333-44" = true
  ∧ String.length "2025-1-1234" = 11
  ∧ String.length "111.222.333-44" = 14.
Proof.
  assert (regex_test matricula_regex "2025-1-1234" = true) as Hm by reflexivity.
  assert (regex_test cpf_regex "111.222.333-44" = true) as Hc by reflexivity.
  split; [exact Hm|]. split; [exact Hc|]. split.
  - exact (proj1 (proj1 (formats_fix_length_and_characters "2025-1-1234" "") Hm)).
  - exact (proj1 (proj2 (formats_fix_length_and_characters "111.222.333-44" "")
                    Hc)).
Defined.

(** ** The search box of the student list *)

Lemma append_cons c s t :
  String.append (String c s) t = String c (String.append s t).
Proof. reflexivity. Qed.

Lemma prefix_spec n h :
  String.prefix n h = true ↔ ∃ post, h = String.append n post.
Proof.
  revert h. induction n as [|c n IH]; intros h.
  - split; [by exists h|by destruct h].
  - destruct h as [|c' h]; simpl; [split; [done|by intros [? ?]]|].
    destruct (Ascii.ascii_dec c c') as [->|Hne].
    + rewrite IH. split; intros [post Hpost]; exists post;
        rewrite append_cons in *; congruence.
    + split; [done|]. intros [post Hpost]. rewrite append_cons in Hpost.
      congruence.
Qed.

(** [includes] is the search for a substring. *)
Lemma includes_spec h n :
  includes h n = true ↔
  ∃ pre post, h = String.append pre (String.append n post).
Proof.
  induction h as [|c h IH].
  - change (includes "" n) with (String.prefix n "" || false).
    rewrite orb_false_r, prefix_spec. split.
    + intros [post Hpost]. by exists "", post.
    + intros (pre & post & Hh). destruct pre; [by exists post|done].
  - change (includes (String c h) n)
      with (String.prefix n (String c h) || includes h n).
    rewrite orb_true_iff, prefix_spec, IH. split.
    + intros [[post Hpost]|(pre & post & Hh)].
      * by exists "", post.
      * exists (String c pre), post. by rewrite append_cons, Hh.
    + intros (pre & post & Hh). destruct pre as [|c' pre].
      * left. by exists post.
      * right. exists pre, post. rewrite append_cons in Hh. congruence.
Qed.

(** X17. The search box of the student list shows a student exactly when
    the lower-cased name contains the lower-cased term or the matricula
    contains the term as typed; the students shown keep their order; an
    empty term shows every student; and searching the result again for the
    same term changes nothing. *)
Theorem search_shows_matches `{JsString} (searchTerm : string)
    (alunos : list Aluno.row) :
  (∀ a, a ∈ filteredAlunos searchTerm alunos ↔
        a ∈ alunos
        ∧ ((∃ pre post,
              toLowerCase (Aluno.nome_completo a)
              = String.append pre (String.append (toLowerCase searchTerm) post))
           ∨ ∃ pre post,
               Aluno.matricula a
               = String.append pre (String.append searchTerm post)))
  ∧ filteredAlunos searchTerm alunos `sublist_of` alunos
  ∧ filteredAlunos "" alunos = alunos
  ∧ filteredAlunos searchTerm (filteredAlunos searchTerm alunos)
    = filteredAlunos searchTerm alunos.
Proof.
  unfold filteredAlunos. split; [|split; [|split]].
  - intros a. rewrite list_elem_of_filter, Is_true_true, orb_true_iff,
      !includes_spec. tauto.
  - apply sublist_filter.
  - apply filter_all. intros a _. apply Is_true_true, orb_true_iff. right.
    apply includes_spec. by exists "", (Aluno.matricula a).
  - apply filter_all. by intros a [Hshown _]%list_elem_of_filter.
Qed.

(** ** The sign-in page *)

Lemma loginSchema_nil `{Zod} email password :
  Auth.loginSchema email password = [] ↔
    z_is_email email = true ∧ 6 ≤ String.length password.
Proof.
  unfold Auth.loginSchema, z_string_email, z_string_min.
  by rewrite app_nil, !issue_unless_nil, bool_decide_eq_true.
Qed.

Lemma signupSchema_nil `{Zod} email password confirmPassword nomeCompleto :
  Auth.signupSchema email password confirmPassword nomeCompleto = [] ↔
    z_is_email email = true ∧ 6 ≤ String.length password
    ∧ 3 ≤ String.length nomeCompleto ∧ password = confirmPassword.
Proof.
  unfold Auth.signupSchema, z_string_min.
  rewrite !app_nil, loginSchema_nil, !issue_unless_nil, !bool_decide_eq_true.
  tauto.
Qed.

Ltac auth_cases isLogin signIn signUp :=
  unfold Auth.handleSubmit;
  destruct isLogin;
  [ destruct (Auth.loginSchema _ _) as [|issue rest] eqn:Hschema;
    [ apply loginSchema_nil in Hschema; destruct (signIn _ _) eqn:Hcall
    | assert (¬ Auth.loginSchema _ _ = []) as Hbad
        by (rewrite Hschema; discriminate);
      rewrite loginSchema_nil in Hbad ]
  | destruct (Auth.signupSchema _ _ _ _) as [|issue rest] eqn:Hschema;
    [ apply signupSchema_nil in Hschema; destruct (signUp _ _ _) eqn:Hcall
    | assert (¬ Auth.signupSchema _ _ _ _ = []) as Hbad
        by (rewrite Hschema; discriminate);
      rewrite signupSchema_nil in Hbad ] ];
  simpl.

(** X18. The sign-in page calls [signIn] exactly in login mode with an
    e-mail that passes the library's test and a password of at least 6
    characters, and [signUp] exactly in sign-up mode when moreover the name
    has at least 3 characters and the two passwords are equal; it passes
    them the texts of the form, and never calls both. *)
Theorem sign_in_page_gate `{Zod} (isLogin : bool)
    (email password confirmPassword nomeCompleto : string)
    (signIn : string → string → option string)
    (signUp : string → string → string → option string) :
  let events := Auth.handleSubmit isLogin email password confirmPassword
                  nomeCompleto signIn signUp in
  (∀ e p, Auth.SignIn e p ∈ events ↔
          isLogin = true ∧ e = email ∧ p = password
          ∧ z_is_email email = true ∧ 6 ≤ String.length password)
  ∧ (∀ e p n, Auth.SignUp e p n ∈ events ↔
              isLogin = false ∧ e = email ∧ p = password ∧ n = nomeCompleto
              ∧ z_is_email email = true ∧ 6 ≤ String.length password
              ∧ 3 ≤ String.length nomeCompleto ∧ password = confirmPassword).
Proof.
  intros events. subst events.
  auth_cases isLogin signIn signUp; split; intros; set_unfold;
    intuition (simplify_eq; eauto).
Qed.

(** X19. Every submit of the sign-in page switches the loading flag on
    first and off last, whatever happens in between.  It navigates to the
    home page exactly when the call it made came back without an error.
    The two errors the page knows, wrong credentials on login and a
    registered e-mail on sign-up, are shown in its own words, any other
    error in the words of the auth provider. *)
Theorem sign_in_page_flow `{Zod} (isLogin : bool)
    (email password confirmPassword nomeCompleto : string)
    (signIn : string → string → option string)
    (signUp : string → string → string → option string) :
  let events := Auth.handleSubmit isLogin email password confirmPassword
                  nomeCompleto signIn signUp in
  let shown msg known own := if bool_decide (msg = known) then own else msg in
  head events = Some (Auth.SetLoading true)
  ∧ last events = Some (Auth.SetLoading false)
  ∧ (Auth.Navigate "/" ∈ events ↔
       (Auth.SignIn email password ∈ events ∧ signIn email password = None)
       ∨ (Auth.SignUp email password nomeCompleto ∈ events
          ∧ signUp email password nomeCompleto = None))
  ∧ (∀ msg, Auth.SignIn email password ∈ events →
            signIn email password = Some msg →
            Auth.Notify
              (failure "Erro ao fazer login"
                 (shown msg "Invalid login credentials"
                    "Credenciais inválidas. Verifique seu email e senha."))
              ∈ events)
  ∧ (∀ msg, Auth.SignUp email password nomeCompleto ∈ events →
            signUp email password nomeCompleto = Some msg →
            Auth.Notify
              (failure "Erro ao criar conta"
                 (shown msg "User already registered"
                    "Este email já está cadastrado."))
              ∈ events).
Proof.
  intros events shown. subst events shown.
  auth_cases isLogin signIn signUp;
    (split; [done|]); (split; [done|]); (split; [|split]);
    intros; set_unfold; intuition (simplify_eq; eauto).
Qed.

Lemma sign_in_page_flow_witness :
  let events :=
    @Auth.handleSubmit Sample.zod true "ana@example.org" "segredo" "" ""
      (λ _ _, Some "Invalid login credentials") (λ _ _ _, None) in
  Auth.SignIn "ana@example.org" "segredo" ∈ events
  ∧ Auth.Notify
      (failure "Erro ao fazer login"
         "Credenciais inválidas. Verifique seu email e senha.")
    ∈ events.
Proof.
  intros events.
  assert (Auth.SignIn "ana@example.org" "segredo" ∈ events) as Hcall
    by (apply list_elem_of_further, list_elem_of_here).
  split; [exact Hcall|].
  exact (proj1 (proj2 (proj2 (proj2
           (@sign_in_page_flow Sample.zod true "ana@example.org" "segredo" "" ""
              (λ _ _, Some "Invalid login credentials") (λ _ _ _, None)))))
           "Invalid login credentials" Hcall eq_refl).
Defined.

(** ** The course form *)

Lemma cursoSchema_nil_iff `{Zod} f :
  cursoSchema f = [] ↔
    3 ≤ String.length (CursoForm.nome f)
    ∧ 2 ≤ String.length (CursoForm.codigo_curso f)
    ∧ ∃ z, CursoForm.duracao_semestres f = Num z ∧ (1 ≤ z)%Z.
Proof.
  unfold cursoSchema, z_string_min, z_number_min.
  rewrite !app_nil, !issue_unless_nil, !bool_decide_eq_true.
  destruct (CursoForm.duracao_semestres f) as [|z].
  - split; [by intros (_ & _ & ?)|]. by intros (_ & _ & z & ? & _).
  - rewrite issue_unless_nil, bool_decide_eq_true. split.
    + intros (? & ? & ?). by eauto.
    + intros (? & ? & z' & [= <-] & ?). done.
Qed.

(** X20. The course form sends its insert or update exactly when the
    name has at least 3 characters, the code at least 2 and the duration is
    a number of at least 1, and then sends it first.  Otherwise it sends
    nothing and shows the message of the first field at fault, in the order
    name, code, duration; a duration that is not a number gets the
    library's own message.  The form as it opens, with its empty name,
    cannot be submitted. *)
Theorem course_form_outcome `{Zod} (editingCurso : option Curso.row)
    (f : CursoForm.formData) (reply : request → option PostgrestError) :
  let name_ok := 3 ≤ String.length (CursoForm.nome f) in
  let code_ok := 2 ≤ String.length (CursoForm.codigo_curso f) in
  let events := CursosManager.handleSubmit editingCurso f reply in
  let req := match editingCurso with
             | Some c => cursos_update_eq_id f (Curso.id c)
             | None => cursos_insert f
             end in
  let shows msg := events = [Toasted (failure "Erro de validação" msg)] in
  (head events = Some (Sent req) ↔
     name_ok ∧ code_ok
     ∧ ∃ z, CursoForm.duracao_semestres f = Num z ∧ (1 ≤ z)%Z)
  ∧ (¬ name_ok → shows "Nome deve ter no mínimo 3 caracteres")
  ∧ (name_ok → ¬ code_ok → shows "Código deve ter no mínimo 2 caracteres")
  ∧ (name_ok → code_ok → CursoForm.duracao_semestres f = NaN →
     shows z_nan_message)
  ∧ (∀ z, name_ok → code_ok → CursoForm.duracao_semestres f = Num z →
          (z < 1)%Z → shows "Duração deve ser no mínimo 1 semestre")
  ∧ CursosManager.handleSubmit None cursos_emptyForm reply
    = [Toasted (failure "Erro de validação"
                  "Nome deve ter no mínimo 3 caracteres")].
Proof.
  intros name_ok code_ok events req shows.
  subst events shows name_ok code_ok. unfold CursosManager.handleSubmit.
  split; [|unfold cursoSchema, z_string_min, z_number_min; repeat split].
  - rewrite <- cursoSchema_nil_iff. subst req.
    destruct (cursoSchema f) as [|issue rest]; [|done].
    by destruct editingCurso.
  - intros Hn. by rewrite bool_decide_eq_false_2.
  - intros Hn Hc. rewrite bool_decide_eq_true_2 by done.
    by rewrite bool_decide_eq_false_2.
  - intros Hn Hc ->. by rewrite !bool_decide_eq_true_2.
  - intros z Hn Hc -> Hz. rewrite !bool_decide_eq_true_2 by done.
    rewrite bool_decide_eq_false_2 by lia. done.
Qed.

Lemma course_form_outcome_witness :
  let f := {| CursoForm.nome := "Direito"; CursoForm.codigo_curso := "D";
              CursoForm.duracao_semestres := Num 10 |} in
  3 ≤ String.length (CursoForm.nome f)
  ∧ ¬ 2 ≤ String.length (CursoForm.codigo_curso f)
  ∧ @CursosManager.handleSubmit Sample.zod None f (λ _, None)
    = [Toasted (failure "Erro de validação"
                  "Código deve ter no mínimo 2 caracteres")].
Proof.
  intros f.
  assert (3 ≤ String.length (CursoForm.nome f)) as Hn
    by (vm_compute; repeat constructor).
  assert (¬ 2 ≤ String.length (CursoForm.codigo_curso f)) as Hc
    by (vm_compute; lia).
  split; [exact Hn|]. split; [exact Hc|].
  exact (proj1 (proj2 (proj2 (@course_form_outcome Sample.zod None f (λ _, None))))
           Hn Hc).
Defined.

(** * Writing and reading back *)

(** X21. A course that was inserted is in the course list that the
    enrollment form fetches, under the name and code it was given, for
    every session of the [authenticated] role. *)
Theorem inserted_course_is_listed `{Collation} (srv : Server) (s s' : Session)
    (v : curso_values) (db db' : Db) :
  exec srv s (insert_into_cursos v) db = Ok db' →
  db_role s' = authenticated →
  {| MatriculasManager.curso_item_id := gen_random_uuid srv;
     MatriculasManager.nome := cv_nome v;
     MatriculasManager.codigo_curso := cv_codigo_curso v |}
    ∈ MatriculasManager.cursos_select db' s'.
Proof.
  intros Hex Hrole. simpl in Hex.
  destruct (insert_row _ _ _ _ _) as [rows|] eqn:Hins; simpl in Hex; [|done].
  injection Hex as <-.
  apply insert_row_Ok, insert_as_owner_Ok_iff in Hins as (-> & _).
  unfold MatriculasManager.cursos_select. apply list_elem_of_fmap.
  exists (curso_row srv v). split; [done|]. apply elem_of_order_by.
  unfold visible. apply list_elem_of_filter. split.
  - unfold using_ok, applies. simpl. rewrite Hrole. done.
  - simpl. apply elem_of_app. right. apply list_elem_of_here.
Qed.

Lemma inserted_course_is_listed_witness :
  let v := {| cv_nome := "Direito"; cv_codigo_curso := "DIR";
              cv_duracao_semestres := 10 |} in
  ∃ db', exec Sample.srv Sample.as_ana (insert_into_cursos v) Sample.db = Ok db'
    ∧ {| MatriculasManager.curso_item_id := gen_random_uuid Sample.srv;
         MatriculasManager.nome := "Direito";
         MatriculasManager.codigo_curso := "DIR" |}
        ∈ @MatriculasManager.cursos_select Sample.collation db' Sample.as_bob.
Proof.
  intros v.
  set (db' := commit Sample.db
                (exec Sample.srv Sample.as_ana (insert_into_cursos v) Sample.db)).
  assert (exec Sample.srv Sample.as_ana (insert_into_cursos v) Sample.db = Ok db')
    as Hex by (vm_compute; reflexivity).
  exists db'. split; [exact Hex|].
  exact (@inserted_course_is_listed Sample.collation Sample.srv Sample.as_ana
           Sample.as_bob v Sample.db db' Hex eq_refl).
Defined.

(** X22. A subject that was created reads the profile made for it, and,
    unless it holds the admin role, no other profile. *)
Theorem new_subject_reads_own_profile (srv : Server) (NEW : AuthUser.row)
    (db db' : Db) (s : Session) :
  insert_into_auth_users srv NEW db = Ok db' →
  auth_uid s = Some (AuthUser.id NEW) →
  (∃ p, p ∈ visible profiles_def db' s (profiles db')
        ∧ Profile.id p = AuthUser.id NEW
        ∧ AuthUser.email NEW = Some (Profile.email p)
        ∧ Profile.nome_completo p
          = COALESCE
              (json_get_text (AuthUser.raw_user_meta_data NEW) "nome_completo")
              "Usuário")
  ∧ (has_role db' (auth_uid s) admin = false →
     ∀ q, q ∈ visible profiles_def db' s (profiles db') →
          Profile.id q = AuthUser.id NEW).
Proof.
  intros Hex Huid.
  assert (∀ q, using_ok profiles_policies db' s SELECT q = true ↔
               Profile.id q = AuthUser.id NEW
               ∨ has_role db' (auth_uid s) admin = true) as Hsee.
  { intros q. unfold using_ok. simpl.
    rewrite orb_false_r, orb_true_iff, uid_is_spec, Huid.
    split; (intros [Hq|Hq]; [left; congruence|by right]). }
  split.
  - unfold insert_into_auth_users in Hex. case_bool_decide; [done|].
    unfold handle_new_user, profile_row in Hex. simpl in Hex.
    destruct (AuthUser.email NEW) as [mail|] eqn:Hmail; simpl in Hex; [|done].
    destruct (insert_as_owner _ _ _ _) as [rows|] eqn:Hins; simpl in Hex; [|done].
    injection Hex as <-. apply insert_as_owner_Ok_iff in Hins as (-> & _).
    match goal with |- context [profiles db ++ [?p]] => exists p end.
    split; [|done]. unfold visible. apply list_elem_of_filter. split.
    + apply Is_true_true, Hsee. by left.
    + simpl. apply elem_of_app. right. apply list_elem_of_here.
  - intros Hna q [Hq _]%list_elem_of_filter.
    apply Is_true_true, Hsee in Hq as [Hq|Hq]; [done|]. congruence.
Qed.

Lemma new_subject_reads_own_profile_witness :
  let s := {| auth_uid := Some (AuthUser.id Sample.carla);
              db_role := authenticated |} in
  ∃ db', insert_into_auth_users Sample.srv Sample.carla Sample.db = Ok db'
    ∧ ∃ p, p ∈ visible profiles_def db' s (profiles db')
           ∧ Profile.nome_completo p = "Carla Dias".
Proof.
  intros s.
  set (db' := commit Sample.db
                (insert_into_auth_users Sample.srv Sample.carla Sample.db)).
  assert (insert_into_auth_users Sample.srv Sample.carla Sample.db = Ok db')
    as Hex by (vm_compute; reflexivity).
  exists db'. split; [exact Hex|].
  destruct (proj1 (new_subject_reads_own_profile Sample.srv Sample.carla
                     Sample.db db' s Hex eq_refl))
    as (p & Hp & _ & _ & Hname).
  exists p. split; [exact Hp | exact Hname].
Defined.

(** ** Access to profiles *)

Lemma profiles_transitive u a b c :
  u ∈ td_uniques profiles_def →
  uq_same u a b = true → uq_same u b c = true → uq_same u a c = true.
Proof.
  intros Hu. simpl in Hu. repeat (apply elem_of_cons in Hu as [->|Hu]);
    [..|by apply not_elem_of_nil in Hu]; simpl; unfold eq_uuid;
    rewrite !bool_decide_eq_true; congruence.
Qed.

(** What row-level security lets through and what it refuses. *)

Lemma first_error_Some {A} (f : A → option sqlstate) (l : list A) e :
  first_error f l = Some e → ∃ x, x ∈ l ∧ f x = Some e.
Proof.
  induction l as [|y l IH]; simpl; [done|].
  destruct (f y) as [e'|] eqn:Hy.
  - intros [= <-]. exists y. split; [left|done].
  - intros (x & Hx & Hfx)%IH. exists x. split; [by right|done].
Qed.

Section Denied.
Context {R : Type} (td : table_def R).

Lemma row_error_not_policy conflict new :
  row_error td conflict new ≠ Some insufficient_privilege.
Proof.
  unfold row_error. destruct (List.find _ (td_checks td)); [done|].
  by destruct (List.find _ (td_uniques td)).
Qed.

Lemma fk_error_not_policy db new :
  fk_error td db new ≠ Some insufficient_privilege.
Proof. unfold fk_error. by destruct (List.find _ _). Qed.

(** An update is refused by row-level security exactly when the image of
    a row it reaches fails the policy check. *)
Lemma update_rows_denied srv db s where_ set rows :
  update_rows td srv db s where_ set rows = Err insufficient_privilege ↔
  ∃ r, r ∈ rows ∧ targeted td db s UPDATE where_ r = true
       ∧ check_ok (td_policies td) db s UPDATE (td_before_update td srv (set r))
         = false.
Proof.
  unfold update_rows.
  destruct (forallb _ _) eqn:Hall.
  - split.
    + destruct (first_error _ _) as [e|] eqn:Hrow.
      { intros [= ->]. apply first_error_Some in Hrow as (x & _ & Hx).
        by apply row_error_not_policy in Hx. }
      destruct (first_error (fk_error td db) _) as [e|] eqn:Hfk; [|done].
      intros [= ->]. apply first_error_Some in Hfk as (x & _ & Hx).
      by apply fk_error_not_policy in Hx.
    + intros (r & Hr & Hhit & Hno). exfalso.
      rewrite forallb_elem in Hall. rewrite Hall in Hno; [done|].
      apply list_elem_of_fmap. exists r. split; [done|].
      apply list_elem_of_filter. by rewrite Hhit.
  - split; [intros _|done]. apply not_true_iff_false in Hall.
    rewrite forallb_elem in Hall.
    destruct (existsb (λ r, targeted td db s UPDATE where_ r
                 && negb (check_ok (td_policies td) db s UPDATE
                            (td_before_update td srv (set r)))) rows) eqn:Hex.
    + apply existsb_exists in Hex as (r & Hr & Hboth).
      apply list_elem_of_In in Hr. apply andb_true_iff in Hboth as [Hhit Hno].
      exists r. by apply negb_true_iff in Hno.
    + exfalso. apply Hall. intros n (r & -> & Hr)%list_elem_of_fmap.
      apply list_elem_of_filter in Hr as [Hhit Hr].
      apply (proj1 (existsb_false_iff _ _) Hex) in Hr.
      destruct (targeted td db s UPDATE where_ r); [|done]. simpl in Hr.
      by apply negb_false_iff in Hr.
Qed.

(** An update that reaches no row of the table changes nothing. *)
Lemma update_rows_unreached srv db s where_ set rows :
  (∀ r, r ∈ rows → targeted td db s UPDATE where_ r = false) →
  update_rows td srv db s where_ set rows = Ok rows
  ∧ filter (λ r, targeted td db s UPDATE where_ r) rows = [].
Proof.
  intros Hno. unfold update_rows.
  rewrite filter_none_elem by done. simpl. split; [|done]. f_equal.
  rewrite <- (list_fmap_id rows) at 2. apply list_fmap_ext.
  intros i r Hr. by rewrite Hno by (by apply list_elem_of_lookup_2 in Hr).
Qed.
End Denied.

Lemma profiles_targeted db s where_ p :
  targeted profiles_def db s UPDATE where_ p
  = where_ p && uid_is s (Profile.id p).
Proof. unfold targeted, using_ok. simpl. by rewrite orb_false_r. Qed.

Lemma profiles_update_check db s p :
  check_ok (td_policies profiles_def) db s UPDATE p = uid_is s (Profile.id p).
Proof. unfold check_ok, with_check. simpl. by rewrite orb_false_r. Qed.

Lemma exec_update_profiles_denied srv s where_ set db :
  exec srv s (update_profiles where_ set) db = Err insufficient_privilege ↔
  update_rows profiles_def srv db s where_ set (profiles db)
  = Err insufficient_privilege.
Proof.
  simpl. destruct (update_rows _ _ _ _ _ _ _) as [rows|e]; simpl;
    [|split; by intros [= ->]].
  unfold no_orphans.
  match goal with
  | |- context [orphaned ?a ?b ?c] => destruct (orphaned a b c)
  end; simpl; split; done.
Qed.

(** C4. Row-level security on [profiles]: a session reads a profile
    exactly when the profile is its own or it holds the admin role; an
    update reaches a profile exactly when the profile is the session's own,
    admin or not, and the row it writes must still be the session's own; no
    policy admits an insert, so every insert a session
    sends fails and changes nothing; no policy admits a delete, so every
    delete a session sends removes nothing.

    For the update statement itself, with a [SET] clause that writes
    values of the column types: one that went through has rewritten
    exactly the session's own profiles among those its condition selects,
    each to its [SET] image stamped with the server time and still under
    the same id, and has left every other profile and every other table as
    it was; one whose condition selects no profile of the session changes
    nothing, whoever sends it; it is refused by row-level security exactly
    when it would change the id of a profile it reaches; and, in a table
    free of key collisions whose profiles have their auth subject, one that
    keeps id and e-mail goes through. *)
Theorem profiles_access (srv : Server) (s : Session) (db : Db) :
  (∀ p, p ∈ visible profiles_def db s (profiles db) ↔
        p ∈ profiles db
        ∧ (auth_uid s = Some (Profile.id p)
           ∨ has_role db (auth_uid s) admin = true))
  ∧ (∀ where_ p, targeted profiles_def db s UPDATE where_ p = true ↔
                 where_ p = true ∧ auth_uid s = Some (Profile.id p))
  ∧ (∀ p, check_ok profiles_policies db s UPDATE p = true ↔
          auth_uid s = Some (Profile.id p))
  ∧ (∀ p, check_ok profiles_policies db s INSERT p = false
          ∧ using_ok profiles_policies db s DELETE p = false)
  ∧ (∀ v, is_err (exec srv s (insert_into_profiles v) db) = true
          ∧ commit db (exec srv s (insert_into_profiles v) db) = db)
  ∧ (∀ where_, exec srv s (delete_from_profiles where_) db = Ok db)
  ∧ (∀ where_ set,
       (∀ p, profile_typed p = true → profile_typed (set p) = true) →
       let mine := λ p, where_ p && uid_is s (Profile.id p) in
       let written :=
         (λ p, if mine p then Profile.with_updated_at (NOW srv) (set p) else p)
           <$> profiles db in
       let st := update_profiles where_ set in
       (∀ db', exec srv s st db = Ok db' →
               db' = set_profiles written db
               ∧ ∀ p, p ∈ profiles db → mine p = true →
                      Profile.id (set p) = Profile.id p)
       ∧ ((∀ p, p ∈ profiles db → mine p = false) → exec srv s st db = Ok db)
       ∧ (exec srv s st db = Err insufficient_privilege ↔
          ∃ p, p ∈ profiles db ∧ mine p = true
               ∧ Profile.id (set p) ≠ Profile.id p)
       ∧ (unique_ok profiles_def (profiles db) = true →
          fks_ok profiles_def db (profiles db) = true →
          (∀ p, p ∈ profiles db → mine p = true →
                Profile.id (set p) = Profile.id p
                ∧ Profile.email (set p) = Profile.email p) →
          exec srv s st db = Ok (set_profiles written db))).
Proof.
  split; [|split; [|split; [|split; [|split; [|split]]]]].
  - intros p. unfold visible. rewrite list_elem_of_filter.
    unfold using_ok. simpl. rewrite orb_false_r, Is_true_true, orb_true_iff.
    rewrite uid_is_spec. tauto.
  - intros where_ p. unfold targeted, using_ok. simpl.
    rewrite orb_false_r, andb_true_iff, uid_is_spec. done.
  - intros p. unfold check_ok, with_check. simpl.
    by rewrite orb_false_r, uid_is_spec.
  - done.
  - intros v. simpl. unfold profile_row, insert_row.
    destruct (pv_email v); done.
  - intros where_. simpl.
    rewrite deleted_rows_untargeted, kept_rows_untargeted by done. simpl.
    rewrite set_profiles_id, filter_all; [by rewrite set_user_roles_id|].
    intros r _. apply not_elem_of_nil.
  - intros where_ set _ mine written st.
    assert (∀ p, targeted profiles_def db s UPDATE where_ p = mine p) as Ht
      by (intros p; apply profiles_targeted).
    assert (written
            = (λ r, if targeted profiles_def db s UPDATE where_ r
                    then td_before_update profiles_def srv (set r) else r)
                <$> profiles db) as Hwritten.
    { apply list_fmap_ext. intros i p _. by rewrite Ht. }
    assert (exec srv s st db = Err insufficient_privilege ↔
            ∃ p, p ∈ profiles db ∧ mine p = true
                 ∧ Profile.id (set p) ≠ Profile.id p) as Hdenied.
    { unfold st. rewrite exec_update_profiles_denied, update_rows_denied.
      split; intros (p & Hp & Hhit & Hno); exists p; (split; [done|]).
      - rewrite Ht in Hhit. split; [done|].
        rewrite profiles_update_check in Hno. simpl in Hno.
        apply andb_true_iff in Hhit as [_ Hown]. apply uid_is_spec in Hown.
        intros Hid. apply not_true_iff_false in Hno. apply Hno.
        apply uid_is_spec. by rewrite Hid.
      - rewrite Ht. split; [done|]. rewrite profiles_update_check. simpl.
        apply andb_true_iff in Hhit as [_ Hown]. apply uid_is_spec in Hown.
        apply not_true_iff_false. rewrite uid_is_spec, Hown. congruence. }
    split; [|split; [|split; [done|]]].
    + intros db' Hex. split.
      * pose proof (exec_update_profiles_Ok _ _ _ _ _ _ Hex) as Hup.
        apply update_rows_Ok in Hup. rewrite Hwritten, <- Hup.
        unfold st in Hex. simpl in Hex.
        destruct (update_rows _ _ _ _ _ _ _) as [rows|]; simpl in Hex; [|done].
        destruct (no_orphans _ _ _ _); simpl in Hex; [|done].
        by injection Hex as <-.
      * intros p Hp Hmine.
        destruct (decide (Profile.id (set p) = Profile.id p)) as [|Hne]; [done|].
        assert (exec srv s st db = Err insufficient_privilege) as Hno
          by (apply Hdenied; by exists p).
        by rewrite Hno in Hex.
    + intros Hnone. unfold st. simpl.
      destruct (update_rows_unreached profiles_def srv db s where_ set
                  (profiles db)) as [-> ->].
      { intros p Hp. rewrite Ht. by apply Hnone. }
      simpl. by rewrite set_profiles_id.
    + intros Huniq Hfk Hkeys. unfold st. simpl.
      rewrite (update_rows_succeeds profiles_def profiles_key_like
                 (λ k a b c Hk, profiles_transitive k a b c Hk)); [|done|]; cycle 1.
      { intros r Hr Hhit. rewrite Ht in Hhit.
        destruct (Hkeys r Hr Hhit) as [Hid Hemail].
        split; [|split; [|split]].
        - rewrite profiles_update_check. simpl. rewrite Hid.
          by apply andb_true_iff in Hhit as [_ ?].
        - intros c Hc. by apply not_elem_of_nil in Hc.
        - intros k x Hk. simpl in Hk.
          repeat (apply elem_of_cons in Hk as [->|Hk]);
            [..|by apply not_elem_of_nil in Hk]; simpl; by rewrite ?Hid, ?Hemail.
        - intros f Hf. apply list_elem_of_singleton in Hf as ->.
          unfold fks_ok in Hfk. rewrite forallb_elem in Hfk.
          specialize (Hfk r Hr). simpl in Hfk. rewrite andb_true_r in Hfk.
          simpl. by rewrite Hid. }
      simpl. unfold no_orphans.
      match goal with
      | |- context [orphaned ?a ?b ?c] => assert (orphaned a b c = false) as ->
      end.
      { unfold orphaned. apply existsb_false_iff.
        intros k (r & -> & Hr)%list_elem_of_fmap.
        apply list_elem_of_filter in Hr as [Hhit Hr].
        apply andb_false_iff. right. apply negb_false_iff, bool_decide_eq_true.
        apply list_elem_of_fmap.
        exists (Profile.with_updated_at (NOW srv) (set r)).
        assert (mine r = true) as Hmine
          by (rewrite <- Ht; by destruct (targeted profiles_def db s UPDATE _ r)).
        split; [simpl; by destruct (Hkeys r Hr Hmine)|].
        apply list_elem_of_fmap. exists r. split; [|done].
        by rewrite Ht, Hmine. }
      simpl. by rewrite Hwritten.
Qed.

Lemma profiles_access_witness :
  (∀ p, profile_typed p = true → profile_typed (rename "Roberto" p) = true)
  ∧ unique_ok profiles_def (profiles Sample.db) = true
  ∧ fks_ok profiles_def Sample.db (profiles Sample.db) = true
  ∧ Profile.nome_completo
      <$> profiles
            (commit Sample.db
               (exec Sample.srv Sample.as_bob
                  (update_profiles (λ _, true) (rename "Roberto")) Sample.db))
    = ["Ana"; "Roberto"]
  ∧ exec Sample.srv Sample.as_ana
      (update_profiles (λ p, eq_uuid (Profile.id p) Sample.bob)
         (rename "Roberto")) Sample.db
    = Ok Sample.db.
Proof.
  assert (unique_ok profiles_def (profiles Sample.db) = true) as Huniq
    by (vm_compute; reflexivity).
  assert (fks_ok profiles_def Sample.db (profiles Sample.db) = true) as Hfk
    by (vm_compute; reflexivity).
  assert (∀ p, profile_typed p = true →
               profile_typed (rename "Roberto" p) = true) as Htyped.
  { intros p. unfold profile_typed. simpl.
    rewrite !andb_true_iff. intros [[Hid _] Hemail]. by rewrite Hid, Hemail. }
  split; [exact Htyped|]. split; [exact Huniq|]. split; [exact Hfk|]. split.
  - destruct (profiles_access Sample.srv Sample.as_bob Sample.db)
      as (_ & _ & _ & _ & _ & _ & Hup).
    destruct (Hup (λ _, true) (rename "Roberto") Htyped) as (_ & _ & _ & Hok).
    rewrite Hok; [reflexivity | exact Huniq | exact Hfk |].
    intros p _ _. split; reflexivity.
  - destruct (profiles_access Sample.srv Sample.as_ana Sample.db)
      as (_ & _ & _ & _ & _ & _ & Hup).
    destruct (Hup (λ p, eq_uuid (Profile.id p) Sample.bob) (rename "Roberto")
                Htyped) as (_ & Hnone & _).
    apply Hnone. intros p Hp.
    repeat (apply elem_of_cons in Hp as [->|Hp]);
      [reflexivity | reflexivity | by apply not_elem_of_nil in Hp].
Defined.

(** ** A user's own profile *)

(** X23. A user cannot hand the own profile to another id: an update that
    reaches the user's profile and would change its id is refused with
    [insufficient_privilege], because the policy that lets the user update
    the row is also the check on the row written. *)
Theorem profile_cannot_change_hands (srv : Server) (s : Session) (db : Db)
    (where_ : Profile.row → bool) (set : Profile.row → Profile.row)
    (p : Profile.row) :
  p ∈ profiles db → where_ p = true →
  auth_uid s = Some (Profile.id p) →
  Profile.id (set p) ≠ Profile.id p →
  exec srv s (update_profiles where_ set) db = Err insufficient_privilege.
Proof.
  intros Hp Hw Huid Hmove. simpl. unfold update_rows.
  assert (targeted profiles_def db s UPDATE where_ p = true) as Hhit.
  { unfold targeted, using_ok. simpl. rewrite Hw, orb_false_r. simpl.
    by apply uid_is_spec. }
  match goal with
  | |- context [forallb ?f ?l] => assert (forallb f l = false) as ->; [|done]
  end.
  apply not_true_iff_false. rewrite forallb_elem. intros Hall.
  specialize (Hall (update_updated_at_column Profile.with_updated_at srv (set p))).
  assert (check_ok (td_policies profiles_def) db s UPDATE
            (update_updated_at_column Profile.with_updated_at srv (set p))
          = false) as Hno.
  { unfold check_ok, with_check. simpl. rewrite orb_false_r.
    apply not_true_iff_false. rewrite uid_is_spec, Huid. congruence. }
  rewrite Hall in Hno; [done|]. apply list_elem_of_fmap. exists p.
  split; [done|]. apply list_elem_of_filter. by rewrite Hhit.
Qed.

Lemma profile_cannot_change_hands_witness :
  let bobs := {| Profile.id := Sample.bob; Profile.nome_completo := "Bob";
                 Profile.email := "bob@example.org";
                 Profile.created_at := 2%Z; Profile.updated_at := 2%Z |} in
  let steal := λ p, {| Profile.id := Sample.ana;
                       Profile.nome_completo := Profile.nome_completo p;
                       Profile.email := Profile.email p;
                       Profile.created_at := Profile.created_at p;
                       Profile.updated_at := Profile.updated_at p |} in
  bobs ∈ profiles Sample.db
  ∧ exec Sample.srv Sample.as_bob (update_profiles (λ _, true) steal) Sample.db
    = Err insufficient_privilege.
Proof.
  intros bobs steal.
  assert (bobs ∈ profiles Sample.db) as Hin
    by (apply list_elem_of_further, list_elem_of_here).
  split; [exact Hin|].
  apply (profile_cannot_change_hands Sample.srv Sample.as_bob Sample.db
           (λ _, true) steal bobs Hin eq_refl eq_refl).
  discriminate.
Defined.

(** X24. A user's update of the own display name always goes through, in
    a table free of key collisions whose profiles have their auth subject:
    the user's profile gets the new name and the server time as update
    timestamp; every other profile, and every other column, stays. *)
Theorem own_profile_rename (srv : Server) (s : Session) (db : Db) (u : uuid)
    (name : string) :
  auth_uid s = Some u →
  unique_ok profiles_def (profiles db) = true →
  fks_ok profiles_def db (profiles db) = true →
  exec srv s (update_profiles (λ p, eq_uuid (Profile.id p) u) (rename name)) db
  = Ok (set_profiles
          ((λ p, if eq_uuid (Profile.id p) u
                 then Profile.with_updated_at (NOW srv) (rename name p)
                 else p) <$> profiles db) db).
Proof.
  intros Huid Huniq Hfk.
  assert (∀ p, targeted profiles_def db s UPDATE
                 (λ p, eq_uuid (Profile.id p) u) p
               = eq_uuid (Profile.id p) u) as Ht.
  { intros p. unfold targeted, using_ok, eq_uuid. simpl.
    rewrite orb_false_r. unfold uid_is. rewrite Huid.
    destruct (decide (Profile.id p = u)) as [->|Hne].
    - by rewrite !bool_decide_eq_true_2.
    - by rewrite bool_decide_eq_false_2. }
  simpl.
  rewrite (update_rows_succeeds profiles_def profiles_key_like
             (λ k a b c Hk, profiles_transitive k a b c Hk)); [|done|]; cycle 1.
  { intros r Hr Hhit. rewrite Ht in Hhit. apply bool_decide_eq_true in Hhit.
    split; [|split; [|split]].
    - unfold check_ok, with_check. simpl. rewrite orb_false_r.
      apply uid_is_spec. by rewrite Huid, <- Hhit.
    - intros c Hc. by apply not_elem_of_nil in Hc.
    - intros k x Hk. simpl in Hk.
      by repeat (apply elem_of_cons in Hk as [->|Hk]);
        [..|by apply not_elem_of_nil in Hk].
    - intros f Hf. apply list_elem_of_singleton in Hf as ->.
      unfold fks_ok in Hfk. rewrite forallb_elem in Hfk.
      specialize (Hfk r Hr). simpl in Hfk. by rewrite andb_true_r in Hfk. }
  simpl. unfold no_orphans.
  match goal with
  | |- context [orphaned ?a ?b ?c] => assert (orphaned a b c = false) as ->
  end.
  { unfold orphaned. apply existsb_false_iff.
    intros k (r & -> & Hr)%list_elem_of_fmap.
    apply list_elem_of_filter in Hr as [Hhit Hr].
    apply andb_false_iff. right. apply negb_false_iff, bool_decide_eq_true.
    apply list_elem_of_fmap.
    exists (Profile.with_updated_at (NOW srv) (rename name r)).
    split; [done|]. apply list_elem_of_fmap. exists r. split; [|done].
    by destruct (targeted profiles_def db s UPDATE _ r). }
  simpl. f_equal. f_equal. apply list_fmap_ext. intros i p _. by rewrite Ht.
Qed.

Lemma own_profile_rename_witness :
  auth_uid Sample.as_bob = Some Sample.bob
  ∧ unique_ok profiles_def (profiles Sample.db) = true
  ∧ fks_ok profiles_def Sample.db (profiles Sample.db) = true
  ∧ Profile.nome_completo
      <$> profiles
            (commit Sample.db
               (exec Sample.srv Sample.as_bob
                  (update_profiles (λ p, eq_uuid (Profile.id p) Sample.bob)
                     (rename "Roberto")) Sample.db))
    = ["Ana"; "Roberto"].
Proof.
  assert (unique_ok profiles_def (profiles Sample.db) = true) as Huniq
    by (vm_compute; reflexivity).
  assert (fks_ok profiles_def Sample.db (profiles Sample.db) = true) as Hfk
    by (vm_compute; reflexivity).
  split; [reflexivity|]. split; [exact Huniq|]. split; [exact Hfk|].
  rewrite (own_profile_rename Sample.srv Sample.as_bob Sample.db Sample.bob
             "Roberto" eq_refl Huniq Hfk).
  reflexivity.
Defined.
